(* ===== verification/_CoqProject ===== *)
-Q . S2P
Prelude.v
JsValue.v
Constants.v
State.v
Validate.v
Promise.v
SubCode.v
Interceptors.v
Network.v
Concurrent.v
PipelineSpec.v
Rejections.v
Client.v
TestScript.v
Backoff.v
Auth.v
ScriptRun.v
Ready.v
Scenarios.v
Runs.v
