(* ===== verification/Prelude.v ===== *)
(** * A verification development for node-cashfree

    node-cashfree is a Node.js client for the Cashfree payout HTTP API.
    Its sources under [src/] are
    - [lib/constants.js]: the endpoint URLs, the request timeout and the
      [STATUS] enumeration object;
    - [lib/validate.js]: the classification of the client [state] into one
      of four lifecycle statuses;
    - [lib/interceptors.js]: the request and response interceptors that
      are installed on the axios instance: they stamp a correlation id
      ([networkId]) on every request, response and error, call the
      user's [preHook] and [postHook], check the provider's [subCode],
      and turn hook errors and rejected sub-codes into rejections;
    - [lib/index.js]: the client constructor: the [state] record, the
      two login steps [authenticate] and [verifyToken], the business
      methods, [wrapResponse], the retry loop [resolution] with its
      exponential backoff and the buffering of method calls until the
      login handshake has finished;
    - [test.js]: an integration script against the live API, whose
      hooks record every call in [networkCache] and whose checks count
      the keys recorded.

    How they interact: every method of the client calls
    [network.request]; axios runs the request interceptor, sends the
    request, then runs the response interceptor, and the method's
    continuation ([wrapResponse] and its handler) turns the settled
    promise into a Node-style callback.  The login loop in
    [lib/index.js] runs [authenticate] then [verifyToken] through this
    same pipeline and releases the buffered calls when both succeed.

    ** Layout of the development (one file per component)
    - [Prelude] (this file): the [cashfree_scope] notation scope, the
      [invc] tactic, the [cashfree] hint database and the [cashfree_rw]
      rewrite database, generic lemmas on lists.
    - [JsValue]: the JavaScript values the code manipulates (objects as
      insertion-ordered association lists, arrays, strings, integers,
      [undefined], [null]), truthiness, and the lodash helpers the
      sources call ([_.get], [_.set], [_.pick], [_.extend]) with their
      laws.
    - [Constants]: [URLS], [TIMEOUT] and the [STATUS] object built by
      [_.reduce] in [lib/constants.js].
    - [State]: the [state] object of the constructor, the hook protocol
      ([hook]: an invocation is answered with [done(err)] or never) and
      the two writes the login steps make.
    - [Validate]: [lib/validate.js] ([validate]) and the lifecycle table
      of the specification ([classify]).
    - [Promise]: settled promises and the state/trace monad [PM] that
      threads the guid supply, the count of requests sent and the trace
      of hook invocations and sends; [then_] is [p.then(f, r)].
    - [SubCode]: the interface [SubCodeValidator] of
      [lib/subCodeValidator.js], which is not in the repository: a
      class with the fail-closed law of the specification, and the
      instance accepting ["200"].
    - [Interceptors]: every closure of [lib/interceptors.js]
      ([getNetworkId], [addNetworkTracking], [promisify],
      [preHookInterceptor], [preErrorHook], [postHookInterceptor],
      [postErrorHook], [addInterceptors]) in [PM], proved against the
      [SubCodeValidator] interface.
    - [Network]: the axios instance of [getNetwork], the transport as a
      function of the request index, and [request]: the promise chain
      [Promise.resolve(config).then(reqF, reqR).then(dispatch).then(resF,
      resR)] axios builds from the registered interceptors.
    - [Concurrent]: calls in flight at the same time: each call split
      at the points where the event loop may run another call
      ([phase], [advance]), any interleaving of the stages of all calls
      ([conc_step]) over the shared guid supply, send count and trace,
      and an executable scheduler ([conc_run]).
    - [PipelineSpec]: the contract the specification gives the pipeline
      (section 4.3) as a function of the hooks' and the transport's
      answers ([spec_outcome]), what a caller can observe of a settled
      call ([observe]), and the refinement of the contract by
      [request].
    - [ScriptRun]: the run of [src/test.js]: [async.auto] on the
      script's chain of tasks ([auto_chain], [script_tasks]) with the
      data passed between them, [async.map] over the beneficiaries
      ([map_calls], [map_replies]) and the login loop the buffered
      [getBeneficiaries] waits for ([script_run]).
    - [Rejections]: the type of the error channel: a judgment
      [rejection_ty] with one rule per shape of value the pipeline
      rejects with (hook error, tagged axios error, tagged rejected
      body).
    - [TestScript]: the bookkeeping of [src/test.js]: its recording
      hooks ([test_hook], [cache_write]), [networkCache] as a function of
      the pipeline's trace ([cache_of_trace]), [verifyRequestsComplete]
      ([requests_complete]), the script's calls made one after the
      other ([run_requests]) and its status checks
      ([getStatusMessage], [checkCashFreeStatus]).
    - [Client]: the methods of [lib/index.js]: [wrapResponse],
      [call_method] (the [.then(wrapResponse(...)).catch(callback)]
      continuation), the two login steps and the nine business methods
      with their request configurations.
    - [Backoff]: the retry delay [parseInt(Math.pow(2, timeout) * 500)]
      as JavaScript computes it and as Node's [setTimeout] applies it.
    - [Auth]: the login loop [resolution]: [async.series] over the two
      steps ([login_series]), one cycle with its decision
      ([resolution]), the loop as a step relation ([loop_step]) and as
      a fuelled function ([run_loop]).
    - [Ready]: the constructor's readiness branch ([construct]) and the
      buffered client ([system]): calls on the model interleaved with
      login cycles ([sys_step]).
    - [Scenarios], [Runs]: concrete clients, transports and runs, and
      the witnesses of the theorems.

    ** What the theorems show
    - Lifecycle: [validate] refines the table of the specification and
      never returns [undefined] ([Validate]).
    - Contract ([PipelineSpec]): for hooks with fixed answers, a
      pre-hook that does not veto and object bodies, [request] produces
      the outcome the specification prescribes (success, provider error,
      transport error, hook error or stall), every error carrying the
      request's id, except where the post-hook fails on top of an error:
      there the contract keeps the original error nested and the code
      drops it.  The paths the refinement excludes are those where the
      code departs from the contract, each the subject of a theorem of
      [Network].
    - Pipeline ([Network]): correlation of the request sent and the
      outcome through the same [networkId] for object or falsy bodies,
      while a truthy primitive body (a string) makes the call fail with
      the bare body and no id; a post-hook error supersedes the outcome
      and keeps the id; a vetoing pre-hook stops the request before the
      transport and its error is re-tagged with a fresh guid; rejected
      sub-codes fail the call with the tagged body, accepted ones succeed
      with it, falsy bodies pass unchecked; the pre-hook is never called
      in error mode; every configuration handed to axios carries the
      [timeout] of [axiosConfig] when it sets one and [TIMEOUT]
      otherwise ([request_timeout], from the lookup laws of [_.extend]
      in [JsValue]).
    - Type of errors ([Rejections]): whatever the hooks and the
      transport do, every rejection of [request] has one of the three
      shapes, so a rejection is never a body the validator accepts.
    - Concurrency ([Concurrent]): the executable scheduler [conc_run]
      reaches exactly the states of [conc_step]; under every
      interleaving each finished call carries the id of the
      configuration it sent (for object or falsy bodies), and no two
      calls in flight share an id.
    - Methods ([Client]): the login steps' effects on [state] and the
      default header, the failure of an [authenticate] without token, the
      dead branch of [wrapResponse] and its [TypeError] on falsy bodies,
      the pick lists that drop three fields.
    - Backoff ([Backoff]): the delay doubles from 1000 ms for 22 cycles,
      then collapses to at most 9 ms.
    - Login loop ([Auth]): the invariant of every reachable state, the
      status never goes back, a good cycle sends exactly two requests in
      the order of [async.series] (authenticate's, then verifyToken's
      with the Bearer header of the token just stored), the loop runs
      forever with the computed schedule when every request fails, and
      the fuelled runner [run_loop] the script uses reaches exactly the
      states of the step relation.
    - Readiness ([Ready]): the calls executed followed by the queue are
      the calls made, in order (FIFO, a property of the spec-modelled
      queue that the liveness proof uses); a ready client holds a verified
      token and its bearer header; and (liveness) once the transport
      answers with a token, every reachable state leads to readiness
      with all calls made executed.  The login cycles of the buffered
      client simulate [loop_step] ([sys_follows_loop]), and the loop's
      progress is proved by well-founded induction on the number of
      requests left before the transport turns good.
    - Script ([TestScript]): after [k] calls made one after the other
      the script's [networkCache] has exactly [k] keys, so its check
      [verifyRequestsComplete(k)] passes; its final check with [12]
      thus holds only for one pre-existing beneficiary.  The same count
      holds under every interleaving of calls in flight at once (the
      parallel removals of [async.map]): one key per call started.
      What the hooks record reads back ([cache_roundtrip]):
      [networkCache[id].request] is the pre-hook's [params] and
      [networkCache[id].response] the tagged body or error.
      A whole run of the script ([ScriptRun]) passes only if the login
      succeeded at its first cycle (two requests) and exactly one
      beneficiary was listed; after a retried login the run stops at
      [completedRequestsMid], and nothing is sent after
      [getBeneficiaries].
      The lifecycle checks the script has commented out
      ([checkCashFreeStatus] before and after the two login steps)
      would pass against a provider that issues a token.

    ** Bounds and fuel
    JavaScript numbers are modelled as [Z] where they stay integers: the
    backoff computation is exact below [2^53] and the theorems cover all
    [timeout] values (at [timeout = 1016] [Math.pow] overflows to
    [Infinity], which [js_parseInt] maps to [NaN]).  [run_loop] takes
    fuel as the number of cycles; the theorems are stated on the step
    relation [loop_step], so no result depends on the fuel chosen.

    ** Not modelled
    - In [test.js]: reading the environment, the random ids and the
      console output.  [async.auto] and [async.map] are library code,
      modelled with the semantics of [async] 1.x that the script's
      [(callback, results)] tasks rely on; tasks ready at the same time
      ([completedRequestsMid] and [removeBeneficiaries]) are taken in
      the order written, and the calls of [async.map] each run to
      completion in index order (the keys they add do not depend on
      the interleaving, as [conc_requests_complete] shows).
    - axios internals beyond the chain the sources rely on: header
      merging, HTTP, status validation (a non-2xx status is a transport
      failure, [TFail]) and timeouts are inside the transport function:
      the model fixes the [timeout] each request is configured with,
      not the clock that enforces it.
    - Hooks that mutate their arguments, and hooks that call [done]
      later than synchronously: hooks are observers answering once or
      never.
    - [buffer-methods] is not in the repository: it is modelled from the
      specification (FIFO queue flushed once on [resolve()]), and each
      flushed call runs to completion before the next starts.
    - The shortest round-trip printing of doubles: [parseInt] of a
      number at least [10^21] is taken as the leading digit of the exact
      value, which may differ from the printed digit by one (both lie
      between 1 and 9, all the theorems use).
*)

From stdpp Require Export base list strings pretty relations.
From Stdlib Require Export ZArith Lia.

Declare Scope cashfree_scope.
Delimit Scope cashfree_scope with cf.

Create HintDb cashfree discriminated.
Create Rewrite HintDb cashfree_rw.

(** ** Tactics shared by the development *)

(** Invert a hypothesis and clean up. *)
Ltac invc H := inversion H; subst; clear H.

(** ** Generic lemmas on lists and options *)

Lemma app_snoc_assoc {A} (l1 l2 : list A) (x : A) :
  l1 ++ l2 ++ [x] = (l1 ++ l2) ++ [x].
Proof. by rewrite app_assoc. Qed.

Lemma elem_of_app_middle {A} (l1 l2 : list A) (x : A) : x ∈ l1 ++ x :: l2.
Proof. apply elem_of_app. right. by left. Qed.

#[export] Hint Resolve elem_of_app_middle : cashfree.
#[export] Hint Rewrite @app_nil_r : cashfree_rw.
