(* ===== verification/JsValue.v ===== *)
(** * JavaScript values and the lodash helpers the sources call

    The sources manipulate plain JavaScript data: request configurations,
    response bodies, error objects and the client [state].  This file
    models those values and the four lodash functions the sources apply
    to them:
    - an object is an insertion-ordered association list of its own
      properties (JavaScript objects keep insertion order, and [_.set] on
      an existing key keeps its position);
    - numbers are integers ([Z]): every number the sources compute is an
      integer;
    - [truthy] is JavaScript's [ToBoolean], used by every [!x], [x || y]
      and [if (x)] of the sources;
    - [js_get], [js_get_path], [js_set] and [js_pick] are lodash's
      [_.get], [_.get] with a dotted path, [_.set] on one key and
      [_.pick].

    Not modelled: properties of strings and arrays other than elements
    ([_.get("abc", "length")]), and named properties set on arrays by
    [_.set] (the sources only set named keys on objects they expect to
    be plain objects). *)

From S2P Require Import Prelude.

Inductive jsval :=
| JUndef
| JNull
| JBool (b : bool)
| JNum (n : Z)
| JStr (s : string)
| JArr (items : list jsval)
| JObj (fields : list (string * jsval)).

Abbreviation js_fields := (list (string * jsval)).

(** ** Truthiness ([ToBoolean]) *)

Definition truthy (v : jsval) : bool :=
  match v with
  | JUndef | JNull => false
  | JBool b => b
  | JNum n => negb (Z.eqb n 0)
  | JStr s => negb (String.eqb s "")
  | JArr _ | JObj _ => true
  end.

(** [a || b]: the first operand when it is truthy, else the second. *)
Definition js_or (a b : jsval) : jsval := if truthy a then a else b.

(** [v === s] for a string literal [s]. *)
Definition js_is_string (v : jsval) (s : string) : bool :=
  match v with JStr s' => String.eqb s' s | _ => false end.

(** lodash's [_.isObject]: objects and arrays (functions are not values
    of this model). *)
Definition is_object (v : jsval) : bool :=
  match v with JArr _ | JObj _ => true | _ => false end.

(** ** Own properties of an object *)

Fixpoint fields_lookup (k : string) (fs : js_fields) : option jsval :=
  match fs with
  | [] => None
  | (k', v) :: fs' => if String.eqb k k' then Some v else fields_lookup k fs'
  end.

(** Assignment [o[k] = v]: an existing key keeps its position, a new key
    goes last. *)
Fixpoint fields_set (k : string) (v : jsval) (fs : js_fields) : js_fields :=
  match fs with
  | [] => [(k, v)]
  | (k', v') :: fs' =>
      if String.eqb k k' then (k', v) :: fs' else (k', v') :: fields_set k v fs'
  end.

(** ** lodash *)

(** [_.get(v, k)] for a single key: [undefined] when [v] is not an
    object or has no such property. *)
Definition js_get (v : jsval) (k : string) : jsval :=
  match v with
  | JObj fs => default JUndef (fields_lookup k fs)
  | _ => JUndef
  end.

(** [_.get(v, "k1.k2...")]: a walk that yields [undefined] as soon as a
    step does. *)
Definition js_get_path (v : jsval) (ks : list string) : jsval :=
  foldl js_get v ks.

(** [_.get(v, path, d)]: the default replaces only [undefined]. *)
Definition js_get_or (v : jsval) (ks : list string) (d : jsval) : jsval :=
  match js_get_path v ks with JUndef => d | x => x end.

(** [_.set(v, k, x)] for a single key: it mutates an object and returns
    it; any other value is returned unchanged. *)
Definition js_set (v : jsval) (k : string) (x : jsval) : jsval :=
  match v with
  | JObj fs => JObj (fields_set k x fs)
  | _ => v
  end.

(** [_.pick(v, ks)]: a fresh object holding, in the order of [ks], the
    keys of [ks] that [v] has ([hasIn]); [{}] for a non-object. *)
Definition js_pick (v : jsval) (ks : list string) : jsval :=
  match v with
  | JObj fs =>
      JObj (foldl (fun acc k =>
                     match fields_lookup k fs with
                     | Some x => fields_set k x acc
                     | None => acc
                     end) [] ks)
  | _ => JObj []
  end.

(** [_.extend(dst, src)] / [Object.assign]: the properties of [src]
    assigned onto [dst] in order; a non-object [src] adds nothing. *)
Definition js_assign (dst src : jsval) : jsval :=
  match dst, src with
  | JObj fs, JObj gs => JObj (foldl (fun acc kv => fields_set kv.1 kv.2 acc) fs gs)
  | _, _ => dst
  end.

(** String conversion as in a template literal [`${v}`]. *)
Fixpoint js_to_string (v : jsval) : string :=
  match v with
  | JUndef => "undefined"
  | JNull => "null"
  | JBool true => "true"
  | JBool false => "false"
  | JNum n => pretty n
  | JStr s => s
  | JArr items =>
      (fix go (l : list jsval) : string :=
         match l with
         | [] => ""
         | [x] => match x with JUndef | JNull => "" | _ => js_to_string x end
         | x :: l' =>
             (match x with JUndef | JNull => "" | _ => js_to_string x end)
               +:+ "," +:+ go l'
         end) items
  | JObj _ => "[object Object]"
  end.

Notation "o '.@' k" := (js_get o k) (at level 1, left associativity) : cashfree_scope.
Open Scope cashfree_scope.

(** ** Laws of the helpers *)

Lemma fields_lookup_set_eq k v fs :
  fields_lookup k (fields_set k v fs) = Some v.
Proof.
  induction fs as [|[k' v'] fs IH]; simpl.
  - by rewrite String.eqb_refl.
  - destruct (String.eqb_spec k k') as [->|Hne]; simpl.
    + by rewrite String.eqb_refl.
    + by destruct (String.eqb_spec k k').
Qed.

Lemma fields_lookup_set_ne k k' v fs :
  k <> k' -> fields_lookup k' (fields_set k v fs) = fields_lookup k' fs.
Proof.
  intros Hne. induction fs as [|[k'' v'] fs IH]; simpl.
  - by destruct (String.eqb_spec k' k).
  - destruct (String.eqb_spec k k'') as [->|Hne']; simpl.
    + by destruct (String.eqb_spec k' k'').
    + by rewrite IH.
Qed.

Lemma js_get_set_eq (fs : js_fields) k x : (js_set (JObj fs) k x) .@ k = x.
Proof. simpl. by rewrite fields_lookup_set_eq. Qed.

Lemma js_get_set_ne (v : jsval) k k' x :
  k <> k' -> (js_set v k x) .@ k' = v .@ k'.
Proof. intros Hne. destruct v; simpl; try done. by rewrite fields_lookup_set_ne. Qed.

Lemma js_set_not_object v k x : is_object v = false -> js_set v k x = v.
Proof. by destruct v. Qed.

Lemma js_set_truthy v k x : truthy v = true -> truthy (js_set v k x) = true.
Proof. by destruct v. Qed.

Lemma js_get_falsy v k : truthy v = false -> v .@ k = JUndef.
Proof. by destruct v. Qed.

Lemma pick_fold_lookup fs ks k acc :
  fields_lookup k (foldl (fun acc k =>
                     match fields_lookup k fs with
                     | Some x => fields_set k x acc
                     | None => acc
                     end) acc ks) =
  if decide (k ∈ ks) then
    match fields_lookup k fs with Some x => Some x | None => fields_lookup k acc end
  else fields_lookup k acc.
Proof.
  revert acc. induction ks as [|k' ks IH]; intros acc; simpl; [done|].
  rewrite IH. destruct (decide (k = k')) as [<-|Hne].
  - rewrite (decide_True _ _ (list_elem_of_here k ks)).
    destruct (fields_lookup k fs) eqn:E;
      destruct (decide (k ∈ ks)); by rewrite ?fields_lookup_set_eq, ?E.
  - assert (Hacc : fields_lookup k (match fields_lookup k' fs with
                                   | Some x => fields_set k' x acc | None => acc end) =
                   fields_lookup k acc)
      by (destruct (fields_lookup k' fs); [by apply fields_lookup_set_ne|done]).
    rewrite Hacc. pose proof (elem_of_cons ks k k').
    destruct (decide (k ∈ ks)), (decide (k ∈ k' :: ks)); naive_solver.
Qed.

(** [_.pick] keeps exactly the listed keys of an object. *)
Lemma js_pick_get fs ks k :
  (js_pick (JObj fs) ks) .@ k = if decide (k ∈ ks) then (JObj fs) .@ k else JUndef.
Proof.
  unfold js_pick, js_get. rewrite pick_fold_lookup.
  destruct (decide _); [|done]. by destruct (fields_lookup k fs).
Qed.

Lemma js_pick_absent v ks k : k ∉ ks -> (js_pick v ks) .@ k = JUndef.
Proof. intros Hk. destruct v; try done. rewrite js_pick_get. by rewrite decide_False. Qed.

Lemma js_get_undef k : JUndef .@ k = JUndef.
Proof. done. Qed.

Lemma js_get_path_undef ks : js_get_path JUndef ks = JUndef.
Proof. by induction ks. Qed.

Lemma js_or_falsy a b : truthy a = false -> js_or a b = b.
Proof. unfold js_or. by intros ->. Qed.

Lemma js_or_truthy a b : truthy a = true -> js_or a b = a.
Proof. unfold js_or. by intros ->. Qed.

Lemma js_or_undef b : js_or JUndef b = b.
Proof. done. Qed.

#[export] Hint Rewrite js_or_undef js_get_set_eq js_get_undef js_get_path_undef : cashfree_rw.

(** ** Lookups through [_.extend]: the last write of a key wins *)

Lemma fields_lookup_app k xs ys :
  fields_lookup k (xs ++ ys) =
  match fields_lookup k xs with Some v => Some v | None => fields_lookup k ys end.
Proof. induction xs as [|[k' v'] xs IH]; simpl; [done|]. by destruct (String.eqb k k'). Qed.

Lemma fields_lookup_notin k fs : k ∉ fs.*1 -> fields_lookup k fs = None.
Proof.
  induction fs as [|[k' v'] fs IH]; simpl; [done|]. rewrite elem_of_cons. intros Hk.
  destruct (String.eqb_spec k k'); [subst; tauto|]. apply IH. tauto.
Qed.

Lemma fields_set_keys_in k v fs x : x ∈ (fields_set k v fs).*1 -> x = k \/ x ∈ fs.*1.
Proof.
  induction fs as [|[k' v'] fs IH]; simpl; rewrite ?elem_of_cons, ?list_elem_of_singleton;
    [tauto|].
  destruct (String.eqb_spec k k'); simpl; rewrite ?elem_of_cons; [tauto|].
  intros [->|Hx]; [tauto|]. destruct (IH Hx); tauto.
Qed.

Lemma fields_set_nodup k v fs : NoDup fs.*1 -> NoDup (fields_set k v fs).*1.
Proof.
  induction fs as [|[k' v'] fs IH]; simpl; [intros; apply NoDup_singleton|].
  rewrite !NoDup_cons. intros [Hk Hnd].
  destruct (String.eqb_spec k k'); simpl; rewrite NoDup_cons; [tauto|].
  split; [|by apply IH]. intros [->|]%fields_set_keys_in; tauto.
Qed.

(** [_.extend] onto an object with distinct keys keeps them distinct. *)
Lemma assign_nodup fs gs :
  NoDup fs.*1 -> NoDup (foldl (fun acc kv => fields_set kv.1 kv.2 acc) fs gs).*1.
Proof.
  revert fs. induction gs as [|g gs IH]; intros fs Hfs; simpl; [done|].
  apply IH, fields_set_nodup, Hfs.
Qed.

(** Looking a key up after [_.extend(dst, src)] finds the last value
    [src] gives it, and otherwise the value of [dst]. *)
Lemma assign_lookup k fs gs :
  fields_lookup k (foldl (fun acc kv => fields_set kv.1 kv.2 acc) fs gs) =
  match fields_lookup k (reverse gs) with Some v => Some v | None => fields_lookup k fs end.
Proof.
  revert fs. induction gs as [|[k' v'] gs IH]; intros fs; simpl; [done|].
  rewrite IH, reverse_cons, fields_lookup_app. simpl.
  destruct (fields_lookup k (reverse gs)); [done|].
  clear. induction fs as [|[k'' v''] fs IH]; simpl.
  - by destruct (String.eqb k k').
  - destruct (String.eqb_spec k' k''), (String.eqb_spec k k''), (String.eqb_spec k k');
      subst; simpl; rewrite ?String.eqb_refl; try done;
      repeat match goal with
             | H : ?a <> ?b |- context [String.eqb ?a ?b] =>
                 rewrite (proj2 (String.eqb_neq a b) H)
             end; done.
Qed.

(** In an object with distinct keys the first and the last value of a
    key are the same. *)
Lemma fields_lookup_reverse k fs : NoDup fs.*1 -> fields_lookup k (reverse fs) = fields_lookup k fs.
Proof.
  induction fs as [|[k' v'] fs IH]; simpl; [done|]. rewrite NoDup_cons. intros [Hk Hnd].
  rewrite reverse_cons, fields_lookup_app, IH by done. simpl.
  destruct (String.eqb_spec k k'); [subst; by rewrite fields_lookup_notin|].
  by destruct (fields_lookup k fs).
Qed.
