(* ===== verification/Constants.v ===== *)
(** * [lib/constants.js]: endpoint URLs, the timeout and [STATUS]

    [STATUS] is built at load time by [_.reduce] over the list of status
    names, setting each name as a key mapped to itself; [status] is the
    enumeration it encodes. *)

From S2P Require Import Prelude JsValue.

(** The four lifecycle statuses, in the order of [statuses]. *)
Inductive status := UNINITIALIZED | UNAUTHENTICATED | AUTHENTICATED | TOKEN_VERIFIED.

#[export] Instance status_eq_dec : EqDecision status.
Proof. solve_decision. Defined.

Definition status_name (s : status) : string :=
  match s with
  | UNINITIALIZED => "UNINITIALIZED"
  | UNAUTHENTICATED => "UNAUTHENTICATED"
  | AUTHENTICATED => "AUTHENTICATED"
  | TOKEN_VERIFIED => "TOKEN_VERIFIED"
  end.

Definition statuses : list string :=
  ["UNINITIALIZED"; "UNAUTHENTICATED"; "AUTHENTICATED"; "TOKEN_VERIFIED"].

(** [_.reduce(statuses, (acc, value) => _.set(acc, value, value), {})] *)
Definition STATUS : jsval :=
  foldl (fun acc value => js_set acc value (JStr value)) (JObj []) statuses.

Definition URLS : jsval :=
  JObj [("AUTHENTICATE", JStr "/payout/v1/authorize");
        ("VERIFY_TOKEN", JStr "/payout/v1/verifyToken");
        ("ADD_BENEFICIARY", JStr "/payout/v1/addBeneficiary");
        ("VERIFY_BENEFICIARY", JStr "/payout/v1/validation/bankDetails");
        ("GET_BENEFICIARIES", JStr "/payout/v1/getBeneficiaries");
        ("GET_BENEFICIARY_ID", JStr "/payout/v1/getBeneId");
        ("GET_BENEFICIARY", JStr "/payout/v1/getBeneficiary");
        ("REMOVE_BENEFICIARIES", JStr "/payout/v1/removeBeneficiary");
        ("REQUEST_TRANSFER", JStr "/payout/v1/requestTransfer");
        ("GET_BALANCE", JStr "/payout/v1/getBalance");
        ("LIST_TRANSFERS", JStr "/payout/v1/getTransfers");
        ("GET_TRANSFER", JStr "/payout/v1/getTransferStatus")].

Definition TIMEOUT : Z := 30000.

(** [STATUS] as a map from names: every status name is a key bound to
    itself, and nothing else is. *)
Lemma STATUS_fields :
  STATUS = JObj (map (fun s => (status_name s, JStr (status_name s)))
                     [UNINITIALIZED; UNAUTHENTICATED; AUTHENTICATED; TOKEN_VERIFIED]).
Proof. reflexivity. Qed.

Lemma STATUS_get (s : status) : STATUS .@ (status_name s) = JStr (status_name s).
Proof. by destruct s. Qed.

Lemma status_name_inj (s1 s2 : status) : status_name s1 = status_name s2 -> s1 = s2.
Proof. destruct s1, s2; simpl; congruence. Qed.

#[export] Hint Rewrite STATUS_get : cashfree_rw.
