(* ===== verification/State.v ===== *)
(** * The client [state] of [lib/index.js] and the hook interface

    [lib/index.js] keeps one mutable object [state] per client: the
    credentials and the two hooks given to the constructor, and the
    [token] and [tokenVerified] properties that the login steps add with
    [_.set].  A property that was never set reads as [undefined]; it is
    [JUndef] here.

    A hook is the caller-supplied function [(invocation, done) => ...].
    Its observable behaviour is what it passes to [done]: [Some err] when
    it calls [done(err)] ([done()] is [Some JUndef]), [None] when it never
    calls [done], which leaves the surrounding promise pending.  Hooks
    are observers here: in-place mutation of the objects they receive is
    not modelled. *)

From S2P Require Import Prelude JsValue.

(** The object [{ error, data, params }] a hook receives. *)
Record invocation := mkInvocation {
  inv_error : jsval;
  inv_data : jsval;
  inv_params : jsval
}.

Definition hook := invocation -> option jsval.

Record state := mkState {
  clientId : jsval;
  clientSecret : jsval;
  preHook : option hook;
  postHook : option hook;
  token : jsval;
  tokenVerified : jsval
}.

(** [const state = { clientId, clientSecret, preHook, postHook }] *)
Definition init_state (id secret : jsval) (pre post : option hook) : state :=
  mkState id secret pre post JUndef JUndef.

(** [_.set(state, 'token', token)] *)
Definition set_token (s : state) (t : jsval) : state :=
  mkState (clientId s) (clientSecret s) (preHook s) (postHook s) t (tokenVerified s).

(** [_.set(state, 'tokenVerified', true)] *)
Definition set_token_verified (s : state) : state :=
  mkState (clientId s) (clientSecret s) (preHook s) (postHook s) (token s) (JBool true).
