(* ===== verification/Validate.v ===== *)
(** * [lib/validate.js]: the lifecycle status of a state

    [validate] is the exported function, translated branch by branch; its
    argument is [None] for an absent ([undefined]/[null]) state, and it
    returns the JavaScript value the function returns ([JUndef] if
    control falls off the end).  [classify] is the table of the
    specification (section 4.2); [validate_refines_classify] shows that
    the code implements it, which also shows that control never falls off
    the end. *)

From S2P Require Import Prelude JsValue Constants State.

Definition validate (st : option state) : jsval :=
  match st with
  | None => STATUS .@ "UNINITIALIZED"
  | Some s =>
      if negb (truthy (clientId s)) || negb (truthy (clientSecret s))
      then STATUS .@ "UNINITIALIZED"
      else if negb (truthy (token s))
      then STATUS .@ "UNAUTHENTICATED"
      else if truthy (token s) && negb (truthy (tokenVerified s))
      then STATUS .@ "AUTHENTICATED"
      else if truthy (tokenVerified s)
      then STATUS .@ "TOKEN_VERIFIED"
      else JUndef
  end.

(** The specification's table: credentials present, token present,
    token verified. *)
Definition classify (creds tok verified : bool) : status :=
  if negb creds then UNINITIALIZED
  else if negb tok then UNAUTHENTICATED
  else if negb verified then AUTHENTICATED
  else TOKEN_VERIFIED.

(** The abstraction of a state to the three booleans of the table. *)
Definition status_of (s : state) : status :=
  classify (truthy (clientId s) && truthy (clientSecret s))
           (truthy (token s)) (truthy (tokenVerified s)).

(** C1: [validate] implements the lifecycle table of the specification:
    on every state it returns the [STATUS] string of the status the
    table assigns to the state's (credentials, token, verified)
    truthiness; in particular it never returns [undefined]. *)
Theorem validate_refines_classify (s : state) :
  validate (Some s) = JStr (status_name (status_of s)).
Proof.
  unfold validate, status_of, classify.
  destruct (truthy (clientId s)), (truthy (clientSecret s)),
           (truthy (token s)), (truthy (tokenVerified s)); reflexivity.
Qed.

(** A state with credentials and a verified token is [TOKEN_VERIFIED]. *)
Lemma validate_token_verified s :
  truthy (clientId s) = true -> truthy (clientSecret s) = true ->
  truthy (token s) = true -> tokenVerified s = JBool true ->
  validate (Some s) = JStr (status_name TOKEN_VERIFIED).
Proof. intros Hi Hs Ht Hv. unfold validate. by rewrite Hi, Hs, Ht, Hv. Qed.

(** [validate] always returns one of the four [STATUS] values. *)
Lemma validate_total (st : option state) :
  exists t, validate st = JStr (status_name t).
Proof.
  destruct st as [s|]; [|by exists UNINITIALIZED]. unfold validate.
  destruct (truthy (clientId s)), (truthy (clientSecret s)),
           (truthy (token s)), (truthy (tokenVerified s)); simpl;
    first [by exists UNINITIALIZED | by exists UNAUTHENTICATED
          | by exists AUTHENTICATED | by exists TOKEN_VERIFIED].
Qed.

(** A fresh client (no token yet) is [UNAUTHENTICATED] exactly when both
    credentials are truthy, and [UNINITIALIZED] otherwise. *)
Lemma validate_init (id secret : jsval) (pre post : option hook) :
  validate (Some (init_state id secret pre post)) =
  JStr (status_name (if truthy id && truthy secret then UNAUTHENTICATED else UNINITIALIZED)).
Proof. unfold validate. simpl. by destruct (truthy id), (truthy secret). Qed.
