(* ===== verification/Promise.v ===== *)
(** * Promises with a trace: the effects of the interceptor pipeline

    One call through the axios instance is a chain of promises whose
    handlers draw fresh correlation ids ([chance.guid()]), call hooks and
    send requests.  [PM] threads those effects explicitly:
    - [ps_next] is the index of the next fresh guid (the ids themselves
      are given by a function [guid : nat -> jsval] fixed by the files
      that use the pipeline);
    - [ps_sent] counts the requests handed to the transport, which lets
      the transport answer differently over time;
    - [ps_trace] records, in order, every hook invocation and every
      request handed to the transport; it is an instrumentation of the
      model, read only by the theorems.
    A promise is [Fulfilled], [Rejected] or [Pending] forever (a hook
    that never calls [done], a request that never answers); [then_] is
    [p.then(onFulfilled, onRejected)]. *)

From S2P Require Import Prelude JsValue State.

Inductive settled :=
| Fulfilled (v : jsval)
| Rejected (e : jsval)
| Pending.

Inductive hook_side := PreSide | PostSide.

Inductive event :=
| EvHook (side : hook_side) (inv : invocation)
| EvSend (cfg : jsval) (auth : option string).

Record pstate := mkPState {
  ps_next : nat;
  ps_sent : nat;
  ps_trace : list event
}.

Definition PM (A : Type) : Type := pstate -> pstate * A.

#[export] Instance pm_ret : MRet PM := fun A x ps => (ps, x).
#[export] Instance pm_bind : MBind PM :=
  fun A B k m ps => let '(ps', x) := m ps in k x ps'.

(** Draw the next fresh guid index. *)
Definition fresh_index : PM nat :=
  fun ps => (mkPState (S (ps_next ps)) (ps_sent ps) (ps_trace ps), ps_next ps).

(** Append an event to the trace. *)
Definition emit (e : event) : PM unit :=
  fun ps => (mkPState (ps_next ps) (ps_sent ps) (ps_trace ps ++ [e]), tt).

(** [p.then(f, r)]: a pending promise stays pending. *)
Definition then_ (p : PM settled) (f r : jsval -> PM settled) : PM settled :=
  s ← p;
  match s with
  | Fulfilled v => f v
  | Rejected e => r e
  | Pending => mret Pending
  end.

Lemma pm_bind_unfold {A B} (m : PM A) (k : A -> PM B) ps :
  (m ≫= k) ps = let '(ps', x) := m ps in k x ps'.
Proof. done. Qed.

Lemma pm_ret_unfold {A} (x : A) ps : (mret x : PM A) ps = (ps, x).
Proof. done. Qed.

(** The trace only grows. *)
Definition trace_extends (ps ps' : pstate) : Prop :=
  exists tr, ps_trace ps' = ps_trace ps ++ tr.

Lemma then_run (p : PM settled) f r ps :
  then_ p f r ps =
  let '(ps', s) := p ps in
  match s with
  | Fulfilled v => f v ps'
  | Rejected e => r e ps'
  | Pending => (ps', Pending)
  end.
Proof. unfold then_. rewrite pm_bind_unfold. by destruct (p ps) as [? []]. Qed.

(** A settled promise whose value (or error) carries the correlation id
    [id] in its [networkId] property; a pending one carries nothing. *)
Definition settled_carries (s : settled) (id : jsval) : Prop :=
  match s with
  | Fulfilled v | Rejected v => v .@ "networkId" = id
  | Pending => True
  end.

(** [tick ps]: one more guid drawn. *)
Definition tick (ps : pstate) : pstate :=
  mkPState (S (ps_next ps)) (ps_sent ps) (ps_trace ps).

Definition is_send (e : event) : bool :=
  match e with EvSend _ _ => true | EvHook _ _ => false end.
