(* ===== verification/SubCode.v ===== *)
(** * The sub-code validator (interface)

    [lib/subCodeValidator.js] is required by [lib/interceptors.js] and
    [lib/index.js] but is not among the sources; the specification
    (section 4.1) says it accepts a fixed set of provider status codes
    and rejects every other value (fail closed).  [SubCodeValidator] is
    that contract: the pipeline's theorems are proved for any instance,
    and [cashfree_subcodes] is an instance accepting the provider's
    success code ["200"]. *)

From S2P Require Import Prelude JsValue.

Class SubCodeValidator := {
  accepted_subcodes : list string;
  validateSubCode : jsval -> bool;
  validateSubCode_spec c :
    validateSubCode c = true <-> exists s, c = JStr s /\ s ∈ accepted_subcodes
}.

Section Laws.
Context `{SubCodeValidator}.

(** Fail closed: a missing code is never accepted. *)
Lemma validateSubCode_undef : validateSubCode JUndef = false.
Proof.
  destruct (validateSubCode JUndef) eqn:E; [|done].
  apply validateSubCode_spec in E as (s & [=] & _).
Qed.

Lemma validateSubCode_null : validateSubCode JNull = false.
Proof.
  destruct (validateSubCode JNull) eqn:E; [|done].
  apply validateSubCode_spec in E as (s & [=] & _).
Qed.
End Laws.

#[export] Hint Rewrite @validateSubCode_undef @validateSubCode_null : cashfree_rw.

Definition subcode_ok (c : jsval) : bool :=
  match c with JStr s => bool_decide (s = "200") | _ => false end.

#[export] Program Instance cashfree_subcodes : SubCodeValidator := {
  accepted_subcodes := ["200"];
  validateSubCode := subcode_ok
}.
Next Obligation.
  intros c. destruct c as [| | | |s| |]; simpl;
    try (split; [done | by intros (? & [=] & _)]).
  rewrite bool_decide_eq_true. split.
  - intros ->. exists "200". split; [done|]. by apply list_elem_of_singleton.
  - intros (s' & [=<-] & Hin). by apply list_elem_of_singleton.
Qed.
