(* ===== verification/Interceptors.v ===== *)
(** * [lib/interceptors.js]: correlation ids, hooks and sub-code checks

    The module exports a function that installs two interceptor pairs on
    the axios instance.  Each closure of the source is one definition:
    - [getNetworkId], [addNetworkTracking], [addRequestNetworkTracking],
      [addResponseNetworkTracking] and [promisify] (lines 7-40);
    - the four handlers of [module.exports] (lines 43-66): the source's
      local names [preHook] and [postHook] are [preHookInterceptor] and
      [postHookInterceptor] here, because [preHook] and [postHook] are
      already the fields of [state];
    - [addInterceptors] (lines 67-74): the handlers as axios installs
      them, the tracking wrapped around each.
    The handlers run in [PM] (file [Promise]): fresh ids come from
    [guid], and each hook invocation is recorded in the trace.  The
    sub-code check is the [SubCodeValidator] interface. *)

From S2P Require Import Prelude JsValue State Promise SubCode.

(** The handlers axios runs: the fulfilled and the rejected handler of
    the request interceptor and of the response interceptor. *)
Record interceptors := mkInterceptors {
  on_request : jsval -> PM settled;
  on_request_error : jsval -> PM settled;
  on_response : jsval -> PM settled;
  on_response_error : jsval -> PM settled
}.

Definition request_param_keys : list string :=
  ["headers"; "method"; "baseURL"; "url"; "params"; "networkId"].

Section Interceptors.
Context `{SubCodeValidator} (guid : nat -> jsval).

(** [const getNetworkId = () => chance.guid()] *)
Definition getNetworkId : PM jsval := i ← fresh_index; mret (guid i).

(** [_.set(data, 'networkId', _.get(data, path) || getNetworkId())]:
    a fresh id is drawn only when the value at [path] is falsy. *)
Definition addNetworkTracking (data : jsval) (path : list string) : PM jsval :=
  let cur := js_get_path data path in
  if truthy cur then mret (js_set data "networkId" cur)
  else id ← getNetworkId; mret (js_set data "networkId" id).

Definition addRequestNetworkTracking (h : jsval -> PM settled) (data : jsval) : PM settled :=
  d ← addNetworkTracking data ["networkId"]; h d.

Definition addResponseNetworkTracking (h : jsval -> PM settled) (data : jsval) : PM settled :=
  d ← addNetworkTracking data ["config"; "networkId"]; h d.

(** The hook error, tagged with the id of [error || data], supersedes
    the original error; without a hook the original outcome stands. *)
Definition promisify (side : hook_side) (h : option hook) (error data params : jsval)
  : PM settled :=
  match h with
  | Some f =>
      emit (EvHook side (mkInvocation error data params));;
      mret (match f (mkInvocation error data params) with
            | None => Pending
            | Some err =>
                let combinedError :=
                  if truthy err
                  then JObj [("hookError", err); ("networkId", (js_or error data) .@ "networkId")]
                  else error in
                if truthy combinedError then Rejected combinedError else Fulfilled data
            end)
  | None => mret (if truthy error then Rejected error else Fulfilled data)
  end.

Definition preHookInterceptor (st : state) (data : jsval) : PM settled :=
  promisify PreSide (preHook st) JUndef data (js_pick data request_param_keys).

Definition preErrorHook (st : state) (error : jsval) : PM settled :=
  promisify PreSide (preHook st) error JUndef JUndef.

(** [params] is the response body, the same object as [data.data]: the
    [_.set] on it is visible through [data] too. *)
Definition postHookInterceptor (st : state) (data : jsval) : PM settled :=
  let params := data .@ "data" in
  let params' := js_set params "networkId" (data .@ "networkId") in
  let data' := if is_object params then js_set data "data" params' else data in
  let error := if validateSubCode (params' .@ "subCode") then JNull else params' in
  promisify PostSide (postHook st) error data' (if truthy error then JNull else params').

Definition postErrorHook (st : state) (error : jsval) : PM settled :=
  promisify PostSide (postHook st) error JUndef JUndef.

Definition addInterceptors (st : state) : interceptors :=
  mkInterceptors
    (addRequestNetworkTracking (preHookInterceptor st))
    (addRequestNetworkTracking (preErrorHook st))
    (addResponseNetworkTracking (postHookInterceptor st))
    (addResponseNetworkTracking (postErrorHook st)).
End Interceptors.

(** ** Hook answers

    [hook_passes h inv]: there is no hook, or it calls [done] with a
    falsy value.  [hook_events] is what [promisify] records. *)
Definition hook_passes (h : option hook) (inv : invocation) : Prop :=
  match h with
  | None => True
  | Some f => exists err, f inv = Some err /\ truthy err = false
  end.

Definition hook_events (side : hook_side) (h : option hook) (inv : invocation) : list event :=
  match h with Some _ => [EvHook side inv] | None => [] end.

(** The tagged error a failing hook produces. *)
Definition hook_error (err id : jsval) : jsval :=
  JObj [("hookError", err); ("networkId", id)].

Section Laws.
Context `{SubCodeValidator} (guid : nat -> jsval).

(** Tracking sets [networkId] to the value at [path] if truthy, else to
    the next fresh guid, which it then draws. *)
Lemma addNetworkTracking_run data path ps :
  addNetworkTracking guid data path ps =
  (if truthy (js_get_path data path) then ps else tick ps,
   js_set data "networkId" (js_or (js_get_path data path) (guid (ps_next ps)))).
Proof. unfold addNetworkTracking, js_or. by destruct (truthy _). Qed.

(** [promisify] settles with a value carrying [id] when the error it is
    given carries [id] if truthy, and the data carries [id] otherwise. *)
Lemma promisify_carries side h error data params ps id :
  (if truthy error then error .@ "networkId" = id else data .@ "networkId" = id) ->
  settled_carries (promisify side h error data params ps).2 id.
Proof.
  intros Hid. destruct h as [f|]; simpl.
  - destruct (f _) as [err|]; simpl; [|done].
    unfold js_or. destruct (truthy err), (truthy error) eqn:E; simpl; try done.
    all: by rewrite E.
  - by destruct (truthy error).
Qed.

Lemma promisify_state side h error data params ps :
  (promisify side h error data params ps).1 =
  mkPState (ps_next ps) (ps_sent ps)
           (ps_trace ps ++ hook_events side h (mkInvocation error data params)).
Proof. destruct h; simpl; [done|]. by destruct ps; autorewrite with cashfree_rw. Qed.

(** A hook that passes leaves the outcome [promisify] would have
    without it. *)
Lemma promisify_passes side h error data params ps :
  hook_passes h (mkInvocation error data params) ->
  (promisify side h error data params ps).2 =
  if truthy error then Rejected error else Fulfilled data.
Proof.
  destruct h as [f|]; simpl; [|done].
  intros (err & -> & Hf). by rewrite Hf.
Qed.

(** A hook that reports a truthy error supersedes the outcome, and the
    error carries the id of [error || data]. *)
Lemma promisify_vetoes side f error data params err ps :
  f (mkInvocation error data params) = Some err -> truthy err = true ->
  (promisify side (Some f) error data params ps).2 =
  Rejected (hook_error err ((js_or error data) .@ "networkId")).
Proof. intros Hf Ht. simpl. by rewrite Hf, Ht. Qed.

(** A hook that never calls [done] leaves the promise pending. *)
Lemma promisify_hangs side f error data params ps :
  f (mkInvocation error data params) = None ->
  (promisify side (Some f) error data params ps).2 = Pending.
Proof. intros Hf. simpl. by rewrite Hf. Qed.

(** [promisify] only ever rejects with a truthy value. *)
Lemma promisify_rejected_truthy side h error data params ps e :
  (promisify side h error data params ps).2 = Rejected e -> truthy e = true.
Proof.
  destruct h as [f|]; simpl.
  - destruct (f _) as [err|]; [|done].
    destruct (truthy (if truthy err then _ else _)) eqn:E; by intros [= <-].
  - destruct (truthy error) eqn:E; by intros [= <-].
Qed.

Lemma fields_lookup_subCode_networkId x gs :
  fields_lookup "subCode" (fields_set "networkId" x gs) = fields_lookup "subCode" gs.
Proof. by apply fields_lookup_set_ne. Qed.

(** The response interceptor on an object body: the body gets the
    response's id; an accepted sub-code lets the (updated) response
    through, a rejected one makes the body the error. *)
Lemma postHookInterceptor_object st r gs ps :
  r .@ "data" = JObj gs ->
  (forall inv, hook_passes (postHook st) inv) ->
  let body := JObj (fields_set "networkId" (r .@ "networkId") gs) in
  (postHookInterceptor st r ps).2 =
  if validateSubCode ((JObj gs) .@ "subCode")
  then Fulfilled (js_set r "data" body)
  else Rejected body.
Proof.
  intros Hr Hpass body. unfold postHookInterceptor. rewrite Hr, promisify_passes by apply Hpass.
  simpl. rewrite fields_lookup_subCode_networkId.
  by destruct (validateSubCode _).
Qed.

(** A falsy body (no body, [""], [0], [false], [null]) passes the
    interceptor as a success although its missing sub-code is
    rejected by the validator. *)
Lemma postHookInterceptor_falsy st r ps :
  truthy (r .@ "data") = false ->
  (forall inv, hook_passes (postHook st) inv) ->
  (postHookInterceptor st r ps).2 = Fulfilled r.
Proof.
  intros Hf Hpass. unfold postHookInterceptor. rewrite promisify_passes by apply Hpass.
  destruct (r .@ "data") as [| | | | | |] eqn:E; simpl in Hf |- *; try done;
    rewrite ?validateSubCode_undef; simpl; by rewrite ?Hf.
Qed.

(** [promisify] fulfils only with its data, and only when the error it
    was given is falsy. *)
Lemma promisify_fulfilled side h error data params ps v :
  (promisify side h error data params ps).2 = Fulfilled v -> v = data /\ truthy error = false.
Proof.
  destruct h as [f|]; simpl.
  - destruct (f _) as [err|]; [|done].
    destruct (truthy err) eqn:Ee; simpl; [done|].
    destruct (truthy error) eqn:E; by intros [= ->].
  - destruct (truthy error) eqn:E; by intros [= ->].
Qed.

(** What the response interceptor lets through has an accepted sub-code
    in its body, or a falsy body. *)
Lemma postHookInterceptor_fulfilled st r ps v :
  (postHookInterceptor st r ps).2 = Fulfilled v ->
  validateSubCode ((v .@ "data") .@ "subCode") = true \/ truthy (v .@ "data") = false.
Proof.
  unfold postHookInterceptor. intros Hf%promisify_fulfilled. destruct Hf as [-> Herr].
  set (params' := js_set (r .@ "data") "networkId" (r .@ "networkId")) in *.
  assert (Hd : (if is_object (r .@ "data") then js_set r "data" params' else r) .@ "data"
               = params').
  { subst params'. destruct (r .@ "data") eqn:E; simpl; try done;
      destruct r; simpl in *; try discriminate; by rewrite fields_lookup_set_eq. }
  rewrite Hd. destruct (validateSubCode (params' .@ "subCode")); [by left|]. by right.
Qed.
End Laws.

#[export] Hint Rewrite @promisify_state @addNetworkTracking_run : cashfree_rw.
