(* ===== verification/Network.v ===== *)
(** * The axios instance and the interceptor chain

    [getNetwork] ([lib/index.js], lines 11-13) creates the axios
    instance with the default timeout extended by the caller's
    [axiosConfig].  Axios itself is the transport the specification
    excludes; what this file models of it is what the sources rely on:
    - [network.request(config)] merges the instance defaults with
      [config] and runs the chain
      [Promise.resolve(config).then(reqF, reqR).then(dispatchRequest,
      undefined).then(resF, resR)] built from the handlers installed by
      [addInterceptors];
    - [dispatchRequest] hands the configuration and the default
      [Authorization] header to the transport, a function [transport]
      of the number of requests already sent, the configuration and the
      header, that answers with a response, a failure or never;
    - a response carries the configuration it answers ([response.config])
      and so does a transport error ([error.config]), as in axios.
    Header merging of axios ([headers.common]) is abstracted: the default
    [Authorization] header is the [authorization] field of [network] and
    is passed to the transport beside the configuration.  The last
    section shows which [timeout] a request is configured with. *)

From S2P Require Import Prelude JsValue Constants State Promise SubCode Interceptors.

Inductive tresult :=
| TResp (status : Z) (body : jsval)
| TFail (message : string)
| THang.

Record network := mkNetwork {
  defaults : jsval;
  authorization : option string
}.

(** [axios.create(_.extend({ timeout: TIMEOUT }, options))] *)
Definition getNetwork (axiosConfig : jsval) : network :=
  mkNetwork (js_assign (JObj [("timeout", JNum TIMEOUT)]) axiosConfig) None.

(** [network.defaults.headers.common['Authorization'] = `Bearer ${token}`] *)
Definition set_authorization (net : network) (tok : jsval) : network :=
  mkNetwork (defaults net) (Some ("Bearer " +:+ js_to_string tok)).

Definition mergeConfig (dflt cfg : jsval) : jsval :=
  js_assign (js_assign (JObj []) dflt) cfg.

Definition axios_response (cfg : jsval) (status : Z) (body : jsval) : jsval :=
  JObj [("data", body); ("status", JNum status); ("config", cfg)].

Definition axios_error (cfg : jsval) (message : string) : jsval :=
  JObj [("message", JStr message); ("config", cfg)].

Section Network.
Context `{SubCodeValidator} (guid : nat -> jsval)
        (transport : nat -> jsval -> option string -> tresult).

Definition dispatchRequest (auth : option string) (cfg : jsval) : PM settled :=
  fun ps =>
    (mkPState (ps_next ps) (S (ps_sent ps)) (ps_trace ps ++ [EvSend cfg auth]),
     match transport (ps_sent ps) cfg auth with
     | TResp status body => Fulfilled (axios_response cfg status body)
     | TFail message => Rejected (axios_error cfg message)
     | THang => Pending
     end).

(** [network.request(cfg)] with the interceptors of [state]. *)
Definition request (st : state) (net : network) (cfg : jsval) : PM settled :=
  let ic := addInterceptors guid st in
  then_
    (then_
       (then_ (mret (Fulfilled (mergeConfig (defaults net) cfg)))
              (on_request ic) (on_request_error ic))
       (dispatchRequest (authorization net)) (fun e => mret (Rejected e)))
    (on_response ic) (on_response_error ic).
End Network.

Lemma mergeConfig_obj dflt cfg : exists fs, mergeConfig dflt cfg = JObj fs.
Proof. unfold mergeConfig. destruct dflt, cfg; simpl; eauto. Qed.

(** A property the call's own configuration sets is the one sent: the
    configuration is assigned last, over the instance defaults. *)
Lemma mergeConfig_own d cs k v x :
  fields_lookup k (reverse cs) = Some v -> k <> "networkId" ->
  (js_set (mergeConfig d (JObj cs)) "networkId" x) .@ k = v.
Proof.
  intros Hk Hne. rewrite js_get_set_ne by congruence.
  unfold mergeConfig. destruct d; simpl; by rewrite assign_lookup, Hk.
Qed.

(** The requests a trace segment hands to the transport, in order,
    with the [Authorization] header each went with. *)
Definition sends (tr : list event) : list (jsval * option string) :=
  omap (fun ev => match ev with EvSend c a => Some (c, a) | _ => None end) tr.

Lemma sends_app a b : sends (a ++ b) = sends a ++ sends b.
Proof. apply omap_app. Qed.

Lemma sends_hook_events side h inv : sends (hook_events side h inv) = [].
Proof. by destruct h. Qed.

(** A response body the correlation id can be attached to: an object, or
    a falsy value (no body). *)
Definition body_ok (b : jsval) : Prop :=
  match b with JObj _ => True | _ => truthy b = false end.

(** The id the request interceptor gives a configuration. *)
Definition request_id (guid : nat -> jsval) (m : jsval) (ps : pstate) : jsval :=
  js_or (m .@ "networkId") (guid (ps_next ps)).

(** A trace segment in which every call of the pre-hook is in success
    mode: its [error] argument is [undefined]. *)
Definition pre_clean (tr : list event) : Prop :=
  forall inv, EvHook PreSide inv ∈ tr -> inv_error inv = JUndef.

Lemma pre_clean_app a b : pre_clean a -> pre_clean b -> pre_clean (a ++ b).
Proof. intros Ha Hb inv [?|?]%elem_of_app; auto. Qed.

Lemma pre_clean_post h inv : pre_clean (hook_events PostSide h inv).
Proof. destruct h; intros ? Hin; [apply list_elem_of_singleton in Hin|]; inversion Hin. Qed.

Lemma pre_clean_pre h d p : pre_clean (hook_events PreSide h (mkInvocation JUndef d p)).
Proof. destruct h; intros ? Hin; [apply list_elem_of_singleton in Hin|]; inversion Hin; done. Qed.

Lemma pre_clean_send c a : pre_clean [EvSend c a].
Proof. intros ? Hin%list_elem_of_singleton. discriminate. Qed.

#[export] Hint Resolve pre_clean_app pre_clean_post pre_clean_pre pre_clean_send : cashfree.

Section Chain.
Context `{SubCodeValidator} (guid : nat -> jsval)
        (transport : nat -> jsval -> option string -> tresult).
Hypothesis guid_truthy : forall n, truthy (guid n) = true.

Lemma request_unfold st net cfg ps :
  request guid transport st net cfg ps =
  let '(ps1, s1) :=
    addRequestNetworkTracking guid (preHookInterceptor st) (mergeConfig (defaults net) cfg) ps in
  let '(ps2, s2) :=
    match s1 with
    | Fulfilled v => dispatchRequest transport (authorization net) v ps1
    | Rejected e => (ps1, Rejected e)
    | Pending => (ps1, Pending)
    end in
  match s2 with
  | Fulfilled v => addResponseNetworkTracking guid (postHookInterceptor st) v ps2
  | Rejected e => addResponseNetworkTracking guid (postErrorHook st) e ps2
  | Pending => (ps2, Pending)
  end.
Proof.
  unfold request. rewrite !then_run. simpl.
  by destruct (addRequestNetworkTracking _ _ _ _) as [ps1 [v|e|]].
Qed.

(** The request interceptor with a pre-hook that passes: the
    configuration gets its id and goes on. *)
Lemma request_stage_passes st m ps :
  (forall inv, hook_passes (preHook st) inv) ->
  let c := js_set m "networkId" (request_id guid m ps) in
  addRequestNetworkTracking guid (preHookInterceptor st) m ps =
  (mkPState (ps_next (if truthy (m .@ "networkId") then ps else tick ps)) (ps_sent ps)
            (ps_trace ps ++ hook_events PreSide (preHook st)
                               (mkInvocation JUndef c (js_pick c request_param_keys))),
   Fulfilled c).
Proof.
  intros Hpass c. unfold addRequestNetworkTracking, preHookInterceptor.
  rewrite pm_bind_unfold, addNetworkTracking_run.
  rewrite (surjective_pairing (promisify _ _ _ _ _ _)), promisify_state, promisify_passes
    by apply Hpass.
  cbn [js_get_path foldl truthy]. by destruct (truthy (m .@ "networkId")).
Qed.

(** The request interceptor with a pre-hook that always reports the
    error [err]: the request is rejected with the tagged error. *)
Lemma request_stage_vetoes st f err fs ps :
  preHook st = Some f -> (forall inv, f inv = Some err) -> truthy err = true ->
  let c := js_set (JObj fs) "networkId" (request_id guid (JObj fs) ps) in
  addRequestNetworkTracking guid (preHookInterceptor st) (JObj fs) ps =
  (mkPState (ps_next (if truthy ((JObj fs) .@ "networkId") then ps else tick ps)) (ps_sent ps)
            (ps_trace ps ++ [EvHook PreSide (mkInvocation JUndef c (js_pick c request_param_keys))]),
   Rejected (hook_error err (request_id guid (JObj fs) ps))).
Proof.
  intros Hpre Hf Ht c. unfold addRequestNetworkTracking, preHookInterceptor.
  rewrite pm_bind_unfold, addNetworkTracking_run.
  rewrite (surjective_pairing (promisify _ _ _ _ _ _)), promisify_state, Hpre.
  erewrite promisify_vetoes by eauto.
  rewrite js_or_undef. unfold c. rewrite js_get_set_eq. cbn [js_get_path foldl].
  by destruct (truthy ((JObj fs) .@ "networkId")).
Qed.

Lemma request_id_truthy m ps : truthy (request_id guid m ps) = true.
Proof.
  unfold request_id, js_or. destruct (truthy (m .@ "networkId")) eqn:E; [done|].
  apply guid_truthy.
Qed.

(** The chain only rejects with truthy values: its last handler is
    always a [promisify]. *)
Lemma request_rejected_truthy st net cfg ps e :
  (request guid transport st net cfg ps).2 = Rejected e -> truthy e = true.
Proof.
  rewrite request_unfold.
  destruct (addRequestNetworkTracking _ _ _ _) as [ps1 [v|e1|]];
    [destruct (dispatchRequest transport (authorization net) v ps1) as [ps2 [v2|e2|]]|..];
    simpl; try discriminate;
    unfold addResponseNetworkTracking; rewrite pm_bind_unfold;
    destruct (addNetworkTracking _ _ _ _); apply promisify_rejected_truthy.
Qed.

Lemma response_path_id c code b :
  js_get_path (axios_response c code b) ["config"; "networkId"] = c .@ "networkId".
Proof. done. Qed.

Lemma error_path_id c msg :
  js_get_path (axios_error c msg) ["config"; "networkId"] = c .@ "networkId".
Proof. done. Qed.

(** The response interceptor attaches the request's id to whatever it
    settles with, for a body the id can be attached to. *)
Lemma response_stage_carries st c code b ps :
  truthy (c .@ "networkId") = true -> body_ok b ->
  settled_carries
    (addResponseNetworkTracking guid (postHookInterceptor st) (axios_response c code b) ps).2
    (c .@ "networkId").
Proof.
  intros Hid Hb. unfold addResponseNetworkTracking.
  rewrite pm_bind_unfold, addNetworkTracking_run, response_path_id, js_or_truthy by done.
  unfold postHookInterceptor. apply promisify_carries. simpl.
  destruct b as [| | | | | |gs]; simpl in Hb |- *;
    rewrite ?validateSubCode_undef; simpl; try rewrite Hb; try done.
  destruct (validateSubCode _); simpl; [done|]. by rewrite fields_lookup_set_eq.
Qed.

Lemma error_stage_carries st c msg ps :
  truthy (c .@ "networkId") = true ->
  settled_carries
    (addResponseNetworkTracking guid (postErrorHook st) (axios_error c msg) ps).2
    (c .@ "networkId").
Proof.
  intros Hid. unfold addResponseNetworkTracking.
  rewrite pm_bind_unfold, addNetworkTracking_run, error_path_id, js_or_truthy by done.
  unfold postErrorHook. by apply promisify_carries.
Qed.

(** The response side only appends to the trace. *)
Lemma response_stage_trace (P : list event -> Prop) (h : state -> jsval -> PM settled) st v ps :
  (forall d ps', exists tr, ps_trace (h st d ps').1 = ps_trace ps' ++ tr /\ P tr) ->
  exists tr, ps_trace (addResponseNetworkTracking guid (h st) v ps).1 = ps_trace ps ++ tr /\ P tr.
Proof.
  intros Hh. unfold addResponseNetworkTracking.
  rewrite pm_bind_unfold, addNetworkTracking_run.
  destruct (Hh (js_set v "networkId" (js_or (js_get_path v ["config"; "networkId"])
                                            (guid (ps_next ps))))
               (if truthy (js_get_path v ["config"; "networkId"]) then ps else tick ps))
    as (tr & Htr & HP).
  exists tr. rewrite Htr. by destruct (truthy _).
Qed.

Lemma postHookInterceptor_trace st d ps :
  exists tr, ps_trace (postHookInterceptor st d ps).1 = ps_trace ps ++ tr /\ pre_clean tr.
Proof. unfold postHookInterceptor. rewrite promisify_state. eauto with cashfree. Qed.

Lemma postErrorHook_trace st d ps :
  exists tr, ps_trace (postErrorHook st d ps).1 = ps_trace ps ++ tr /\ pre_clean tr.
Proof. unfold postErrorHook. rewrite promisify_state. eauto with cashfree. Qed.

(** The response side neither sends nor shortens the trace. *)
Lemma response_stage_sent (h : state -> jsval -> PM settled) st v ps :
  (forall d ps', ps_sent (h st d ps').1 = ps_sent ps') ->
  ps_sent (addResponseNetworkTracking guid (h st) v ps).1 = ps_sent ps.
Proof.
  intros Hh. unfold addResponseNetworkTracking.
  rewrite pm_bind_unfold, addNetworkTracking_run, Hh. by destruct (truthy _).
Qed.

Lemma postHookInterceptor_sent st d ps : ps_sent (postHookInterceptor st d ps).1 = ps_sent ps.
Proof. unfold postHookInterceptor. by rewrite promisify_state. Qed.

Lemma postErrorHook_sent st d ps : ps_sent (postErrorHook st d ps).1 = ps_sent ps.
Proof. unfold postErrorHook. by rewrite promisify_state. Qed.

(** A request the pre-hook lets through is sent exactly once. *)
Lemma request_sends_one st net cfg ps :
  (forall inv, hook_passes (preHook st) inv) ->
  ps_sent (request guid transport st net cfg ps).1 = S (ps_sent ps).
Proof.
  intros Hpass. rewrite request_unfold, request_stage_passes by done.
  unfold dispatchRequest. cbn [fst snd ps_sent].
  destruct (transport _ _ _); simpl; [rewrite response_stage_sent..|];
    auto using postHookInterceptor_sent, postErrorHook_sent.
Qed.

(** The response side sends nothing. *)
Lemma response_stage_sends (h : state -> jsval -> PM settled) st v ps :
  (forall d ps', exists inv side,
     ps_trace (h st d ps').1 = ps_trace ps' ++ hook_events side (postHook st) inv) ->
  exists tr, ps_trace (addResponseNetworkTracking guid (h st) v ps).1 = ps_trace ps ++ tr /\
             sends tr = [].
Proof.
  intros Hh. apply (response_stage_trace (fun tr => sends tr = [])). intros d ps'.
  destruct (Hh d ps') as (inv & side & ->). eexists; split; [reflexivity|]. apply sends_hook_events.
Qed.

Lemma postHookInterceptor_events st d ps :
  exists inv side, ps_trace (postHookInterceptor st d ps).1 = ps_trace ps ++ hook_events side (postHook st) inv.
Proof. unfold postHookInterceptor. rewrite promisify_state. by do 2 eexists. Qed.

Lemma postErrorHook_events st d ps :
  exists inv side, ps_trace (postErrorHook st d ps).1 = ps_trace ps ++ hook_events side (postHook st) inv.
Proof. unfold postErrorHook. rewrite promisify_state. by do 2 eexists. Qed.

(** A request the pre-hook lets through hands exactly one configuration
    to the transport: the merged one with its id, with the instance's
    [Authorization] header. *)
Lemma request_trace_sends st net cfg ps :
  (forall inv, hook_passes (preHook st) inv) ->
  let m := mergeConfig (defaults net) cfg in
  exists tr, ps_trace (request guid transport st net cfg ps).1 = ps_trace ps ++ tr /\
    sends tr = [(js_set m "networkId" (request_id guid m ps), authorization net)].
Proof.
  intros Hpass m. rewrite request_unfold, request_stage_passes by done.
  unfold dispatchRequest. cbn [fst snd ps_sent ps_trace].
  destruct (transport _ _ _);
    try match goal with
    | |- context [addResponseNetworkTracking guid (?h st) ?v ?p] =>
        destruct (response_stage_sends h st v p) as (tr2 & -> & Hs2);
        [by intros; apply postHookInterceptor_events || apply postErrorHook_events|]
    end;
    cbn [ps_trace]; rewrite <- ?app_assoc; eexists; (split; [reflexivity|]);
    rewrite ?sends_app, sends_hook_events, ?Hs2; reflexivity.
Qed.

Lemma promisify_settles side h error data params ps :
  hook_passes h (mkInvocation error data params) ->
  (promisify side h error data params ps).2 <> Pending.
Proof. intros Hp. rewrite promisify_passes by done. by destruct (truthy error). Qed.

(** When the hooks answer and the transport answers the next request,
    the call settles. *)
Lemma request_settles st net cfg ps :
  (forall inv, hook_passes (preHook st) inv) ->
  (forall inv, hook_passes (postHook st) inv) ->
  (forall c a, transport (ps_sent ps) c a <> THang) ->
  (request guid transport st net cfg ps).2 <> Pending.
Proof.
  intros Hpre Hpost Ht. rewrite request_unfold, request_stage_passes by done.
  unfold dispatchRequest. cbn [fst snd ps_sent].
  destruct (transport _ _ _) eqn:E; [| |by exfalso; eapply Ht];
    unfold addResponseNetworkTracking; rewrite pm_bind_unfold;
    destruct (addNetworkTracking _ _ _ _); apply promisify_settles, Hpost.
Qed.

(** A transport failure with answering hooks fails the call. *)
Lemma request_fails st net cfg ps msg :
  (forall inv, hook_passes (preHook st) inv) ->
  (forall inv, hook_passes (postHook st) inv) ->
  (forall c a, transport (ps_sent ps) c a = TFail msg) ->
  exists e, (request guid transport st net cfg ps).2 = Rejected e.
Proof.
  intros Hpre Hpost Ht. rewrite request_unfold, request_stage_passes by done.
  unfold dispatchRequest. cbn [fst snd ps_sent]. rewrite Ht.
  unfold addResponseNetworkTracking. rewrite pm_bind_unfold.
  destruct (addNetworkTracking _ _ _ _) as [ps' e'] eqn:E. unfold postErrorHook.
  rewrite promisify_passes by apply Hpost.
  assert (truthy e' = true) as ->; [|by eexists].
  rewrite addNetworkTracking_run in E. injection E as _ <-. done.
Qed.

(** A fulfilled call went through the response interceptor: its body has
    an accepted sub-code, or is falsy. *)
Lemma request_fulfilled_checked st net cfg ps v :
  (request guid transport st net cfg ps).2 = Fulfilled v ->
  validateSubCode ((v .@ "data") .@ "subCode") = true \/ truthy (v .@ "data") = false.
Proof.
  rewrite request_unfold.
  destruct (addRequestNetworkTracking guid (preHookInterceptor st)
              (mergeConfig (defaults net) cfg) ps) as [ps1 s1] eqn:E1.
  assert (Hr1 : forall e, s1 = Rejected e -> truthy e = true).
  { intros e ->. unfold addRequestNetworkTracking, preHookInterceptor in E1.
    rewrite pm_bind_unfold in E1. destruct (addNetworkTracking _ _ _ _).
    eapply promisify_rejected_truthy. by rewrite E1. }
  destruct s1 as [c|e|]; simpl; [|..|done].
  - destruct (dispatchRequest transport (authorization net) c ps1) as [ps2 s2] eqn:E2.
    unfold dispatchRequest in E2. injection E2 as _ <-.
    destruct (transport _ _ _); simpl; [|..|done];
      unfold addResponseNetworkTracking; rewrite pm_bind_unfold;
      destruct (addNetworkTracking _ _ _ _) as [ps3 d] eqn:E3.
    + apply postHookInterceptor_fulfilled.
    + unfold postErrorHook. intros Hf%promisify_fulfilled. destruct Hf as [_ Hf].
      rewrite addNetworkTracking_run in E3. injection E3 as _ <-. by simpl in Hf.
  - unfold addResponseNetworkTracking; rewrite pm_bind_unfold.
    destruct (addNetworkTracking _ _ _ _) as [ps3 d] eqn:E3.
    unfold postErrorHook. intros Hf%promisify_fulfilled. destruct Hf as [_ Hf].
    rewrite addNetworkTracking_run in E3. injection E3 as _ <-.
    by rewrite js_set_truthy in Hf by (by apply Hr1).
Qed.

(** The outcome of a request the pre-hook lets through carries the
    request's id, for a body the id can be attached to. *)
Lemma request_carries st net cfg ps :
  (forall inv, hook_passes (preHook st) inv) ->
  (forall c a code b, transport (ps_sent ps) c a = TResp code b -> body_ok b) ->
  settled_carries (request guid transport st net cfg ps).2
                  (request_id guid (mergeConfig (defaults net) cfg) ps).
Proof.
  intros Hpass Hbody. rewrite request_unfold, request_stage_passes by done.
  set (c := js_set _ "networkId" _).
  assert (Hc : c .@ "networkId" = request_id guid (mergeConfig (defaults net) cfg) ps).
  { subst c. destruct (mergeConfig_obj (defaults net) cfg) as [fs ->]. apply js_get_set_eq. }
  assert (Hct : truthy (c .@ "networkId") = true) by (rewrite Hc; apply request_id_truthy).
  rewrite <- Hc. unfold dispatchRequest. cbn [fst snd ps_sent].
  destruct (transport _ _ _) as [code b|msg|] eqn:Ht; [| |done].
  - apply response_stage_carries; [done|]. by eapply Hbody.
  - by apply error_stage_carries.
Qed.

(** A post-hook that always reports an error rejects every request
    that reaches the transport with its tagged error. *)
Lemma request_posthook_vetoes st f err net cfg ps :
  (forall inv, hook_passes (preHook st) inv) ->
  postHook st = Some f -> (forall inv, f inv = Some err) -> truthy err = true ->
  (forall c a, transport (ps_sent ps) c a <> THang) ->
  exists x, (request guid transport st net cfg ps).2 = Rejected (hook_error err x).
Proof.
  intros Hpre Hpost Hf Herr Hhang. rewrite request_unfold, request_stage_passes by done.
  unfold dispatchRequest. cbn [fst snd ps_sent].
  destruct (transport _ _ _) eqn:Ht; [| |by exfalso; eapply Hhang];
    unfold addResponseNetworkTracking; rewrite pm_bind_unfold;
    destruct (addNetworkTracking _ _ _ _);
    unfold postHookInterceptor, postErrorHook; rewrite Hpost;
    erewrite promisify_vetoes by eauto; by eexists.
Qed.

(** C3: correlation.  When the pre-hook lets the request through and
    the body can carry an id (an object or a falsy value, [body_ok];
    [request_string_body_untagged] shows a string body does not), the
    request handed to the transport and
    the value or error the call settles with carry the same id: the
    caller's [networkId] when it supplied a truthy one, else the next
    fresh guid. *)
Theorem request_correlation st net cfg ps :
  (forall inv, hook_passes (preHook st) inv) ->
  (forall c a code b, transport (ps_sent ps) c a = TResp code b -> body_ok b) ->
  let id := request_id guid (mergeConfig (defaults net) cfg) ps in
  (exists tr c, ps_trace (request guid transport st net cfg ps).1 = ps_trace ps ++ tr /\
                EvSend c (authorization net) ∈ tr /\ c .@ "networkId" = id) /\
  settled_carries (request guid transport st net cfg ps).2 id.
Proof.
  intros Hpass Hbody id. subst id. rewrite request_unfold, request_stage_passes by done.
  destruct (mergeConfig_obj (defaults net) cfg) as [fs Hm]. rewrite Hm.
  set (c := js_set (JObj fs) "networkId" (request_id guid (JObj fs) ps)).
  assert (Hc : c .@ "networkId" = request_id guid (JObj fs) ps) by apply js_get_set_eq.
  assert (Hct : truthy (c .@ "networkId") = true) by (rewrite Hc; apply request_id_truthy).
  rewrite <- Hc. unfold dispatchRequest. cbn [fst snd ps_sent ps_next ps_trace]. split.
  - destruct (transport _ _ _) as [code b|msg|];
      [edestruct (response_stage_trace pre_clean postHookInterceptor st) as (tr & Htr & _);
         [apply postHookInterceptor_trace|]
      |edestruct (response_stage_trace pre_clean postErrorHook st) as (tr & Htr & _);
         [apply postErrorHook_trace|]
      |];
      try rewrite Htr; simpl; rewrite <- ?app_assoc; simpl; eexists _, c;
      (split; [reflexivity | split; [|done]]); auto with cashfree.
  - destruct (transport _ _ _) as [code b|msg|] eqn:Ht; [| |done].
    + apply response_stage_carries; [done|]. by eapply Hbody.
    + by apply error_stage_carries.
Qed.

(** C28: [preErrorHook] is dead code.  Axios starts the chain from a
    fulfilled [Promise.resolve(config)], so the request-error
    interceptor never runs: whatever the hooks and the transport do,
    every call of the pre-hook a request makes is in success mode. *)
Theorem prehook_never_error_mode st net cfg ps :
  exists tr, ps_trace (request guid transport st net cfg ps).1 = ps_trace ps ++ tr /\
             forall inv, EvHook PreSide inv ∈ tr -> inv_error inv = JUndef.
Proof.
  rewrite request_unfold. unfold addRequestNetworkTracking, preHookInterceptor.
  rewrite pm_bind_unfold, addNetworkTracking_run.
  set (ps1 := if truthy _ then ps else tick ps). set (d := js_set _ _ _).
  assert (H1 : ps_trace ps1 = ps_trace ps) by (subst ps1; by destruct (truthy _)).
  pose proof (promisify_state PreSide (preHook st) JUndef d (js_pick d request_param_keys) ps1) as Hs.
  destruct (promisify _ _ _ _ _ _) as [ps2 [v|e|]]; simpl in Hs; subst ps2.
  - unfold dispatchRequest. cbn [fst snd ps_trace ps_next ps_sent].
    destruct (transport _ _ _);
      [edestruct (response_stage_trace pre_clean postHookInterceptor st) as (tr & Htr & Hc);
         [apply postHookInterceptor_trace|]
      |edestruct (response_stage_trace pre_clean postErrorHook st) as (tr & Htr & Hc);
         [apply postErrorHook_trace|]
      |];
      try rewrite Htr; simpl; rewrite H1, <- ?app_assoc;
      (eexists; split; [reflexivity|refine (_ : pre_clean _); eauto 10 with cashfree]).
  - edestruct (response_stage_trace pre_clean postErrorHook st) as (tr & Htr & Hc);
      [apply postErrorHook_trace|].
    rewrite Htr. simpl. rewrite H1, <- app_assoc. eexists; split; [reflexivity|refine (_ : pre_clean _); eauto with cashfree].
  - simpl. rewrite H1. eexists; split; [reflexivity|refine (_ : pre_clean _); eauto with cashfree].
Qed.

(** A request the pre-hook lets through and the transport answers
    reaches the response interceptor as the tracked response. *)
Lemma request_response_stage st net cfg ps code b :
  (forall inv, hook_passes (preHook st) inv) ->
  (forall c a, transport (ps_sent ps) c a = TResp code b) ->
  let m := mergeConfig (defaults net) cfg in
  let id := request_id guid m ps in
  exists ps2, (exists tr, ps_trace ps2 = ps_trace ps ++ tr) /\
    request guid transport st net cfg ps =
    postHookInterceptor st
       (js_set (axios_response (js_set m "networkId" id) code b) "networkId" id) ps2.
Proof.
  intros Hpass Ht m id. subst m id. rewrite request_unfold, request_stage_passes by done.
  unfold dispatchRequest. cbn [fst snd ps_sent ps_trace]. rewrite Ht.
  unfold addResponseNetworkTracking. rewrite pm_bind_unfold, addNetworkTracking_run,
    response_path_id.
  destruct (mergeConfig_obj (defaults net) cfg) as [fs ->].
  rewrite js_get_set_eq, js_or_truthy by apply request_id_truthy.
  eexists. split; [|reflexivity]. rewrite request_id_truthy by done. simpl. rewrite <- app_assoc. by eexists.
Qed.

(** C6: a response whose sub-code the validator rejects calls the
    post-hook in error mode, with the tagged body as the error and the
    response as data, and, when the post-hook lets it through, the call
    fails with that body as the error. *)
Theorem request_rejects_bad_subcode st net cfg ps code gs :
  (forall inv, hook_passes (preHook st) inv) ->
  (forall inv, hook_passes (postHook st) inv) ->
  (forall c a, transport (ps_sent ps) c a = TResp code (JObj gs)) ->
  validateSubCode ((JObj gs) .@ "subCode") = false ->
  let body := JObj (fields_set "networkId" (request_id guid (mergeConfig (defaults net) cfg) ps) gs) in
  (request guid transport st net cfg ps).2 = Rejected body /\
  exists tr r, r .@ "data" = body /\
    ps_trace (request guid transport st net cfg ps).1 =
    ps_trace ps ++ tr ++ hook_events PostSide (postHook st) (mkInvocation body r JNull).
Proof.
  intros Hpre Hpost Ht Hsub body.
  destruct (request_response_stage st net cfg ps code (JObj gs) Hpre Ht) as (ps2 & [tr Htr] & ->).
  split.
  - rewrite (postHookInterceptor_object _ _ gs) by done. rewrite Hsub. unfold axios_response.
    by rewrite js_get_set_eq.
  - set (r0 := js_set (axios_response _ code (JObj gs)) "networkId" _).
    assert (Hd : r0 .@ "data" = JObj gs) by done.
    assert (Hn : r0 .@ "networkId" = request_id guid (mergeConfig (defaults net) cfg) ps)
      by apply js_get_set_eq.
    unfold postHookInterceptor. rewrite Hd, Hn.
    change (js_set (JObj gs) "networkId" (request_id guid (mergeConfig (defaults net) cfg) ps))
      with body.
    assert (Hb : validateSubCode (body .@ "subCode") = false)
      by (unfold body; simpl; by rewrite fields_lookup_subCode_networkId).
    rewrite Hb, promisify_state. cbn [ps_trace is_object truthy]. rewrite Htr, <- app_assoc.
    eexists _, _. split; [|reflexivity]. subst r0. apply js_get_set_eq.
Qed.

(** C7: a response with an accepted sub-code settles the call with the
    response, whose body now carries the request's id. *)
Theorem request_accepts_good_subcode st net cfg ps code gs :
  (forall inv, hook_passes (preHook st) inv) ->
  (forall inv, hook_passes (postHook st) inv) ->
  (forall c a, transport (ps_sent ps) c a = TResp code (JObj gs)) ->
  validateSubCode ((JObj gs) .@ "subCode") = true ->
  let m := mergeConfig (defaults net) cfg in
  let id := request_id guid m ps in
  (request guid transport st net cfg ps).2 =
  Fulfilled (js_set (js_set (axios_response (js_set m "networkId" id) code (JObj gs))
                            "networkId" id)
                    "data" (JObj (fields_set "networkId" id gs))).
Proof.
  intros Hpre Hpost Ht Hsub m id.
  destruct (request_response_stage st net cfg ps code (JObj gs) Hpre Ht) as (ps2 & _ & ->).
  rewrite (postHookInterceptor_object _ _ gs) by done. rewrite Hsub. unfold axios_response. by rewrite js_get_set_eq.
Qed.

(** The body the handler of an accepted response reads. *)
Lemma request_accepted_body st net cfg ps code gs :
  (forall inv, hook_passes (preHook st) inv) ->
  (forall inv, hook_passes (postHook st) inv) ->
  (forall c a, transport (ps_sent ps) c a = TResp code (JObj gs)) ->
  validateSubCode ((JObj gs) .@ "subCode") = true ->
  exists r, (request guid transport st net cfg ps).2 = Fulfilled r /\
    r .@ "data" = JObj (fields_set "networkId" (request_id guid (mergeConfig (defaults net) cfg) ps) gs).
Proof.
  intros Hpre Hpost Ht Hsub.
  destruct (request_response_stage st net cfg ps code (JObj gs) Hpre Ht) as (ps2 & _ & ->).
  rewrite (postHookInterceptor_object _ _ gs) by done. rewrite Hsub.
  eexists; split; [reflexivity|]. apply js_get_set_eq.
Qed.

Lemma request_falsy_body_fulfilled st net cfg ps code b :
  (forall inv, hook_passes (preHook st) inv) ->
  (forall inv, hook_passes (postHook st) inv) ->
  (forall c a, transport (ps_sent ps) c a = TResp code b) ->
  truthy b = false ->
  exists r, (request guid transport st net cfg ps).2 = Fulfilled r /\ r .@ "data" = b.
Proof.
  intros Hpre Hpost Ht Hb.
  destruct (request_response_stage st net cfg ps code b Hpre Ht) as (ps2 & _ & ->).
  rewrite postHookInterceptor_falsy by done. by eexists.
Qed.

(** C8: fail open.  A response with a falsy body has no sub-code, which
    the validator rejects, yet the call succeeds with the response. *)
Theorem request_falsy_body_succeeds st net cfg ps code b :
  (forall inv, hook_passes (preHook st) inv) ->
  (forall inv, hook_passes (postHook st) inv) ->
  (forall c a, transport (ps_sent ps) c a = TResp code b) ->
  truthy b = false ->
  validateSubCode (b .@ "subCode") = false /\
  exists r, (request guid transport st net cfg ps).2 = Fulfilled r /\ r .@ "data" = b.
Proof.
  intros Hpre Hpost Ht Hb. split; [by destruct b; rewrite ?validateSubCode_undef|].
  by eapply request_falsy_body_fulfilled.
Qed.

(** The body of a response that is a primitive (a string, a number,
    [true]) takes no property: [_.set] returns it unchanged and its
    [subCode] is [undefined]. *)
Lemma postHookInterceptor_primitive st r ps :
  truthy (r .@ "data") = true -> is_object (r .@ "data") = false ->
  (forall inv, hook_passes (postHook st) inv) ->
  (postHookInterceptor st r ps).2 = Rejected (r .@ "data").
Proof.
  intros Ht Ho Hpost. unfold postHookInterceptor. rewrite Ho, js_set_not_object by done.
  assert (Hs : (r .@ "data") .@ "subCode" = JUndef) by (by destruct (r .@ "data")).
  rewrite Hs, validateSubCode_undef, promisify_passes by apply Hpost. by rewrite Ht.
Qed.

(** C9: correlation is lost for a body that is not an object.  When the
    transport answers with a truthy primitive body (an HTML page or a
    plain-text message is a string), the call fails with the bare body
    as its error: the response interceptor's [_.set] of [networkId] on
    it does nothing, so the error the caller receives carries no
    correlation id. *)
Theorem request_string_body_untagged st net cfg ps code b :
  (forall inv, hook_passes (preHook st) inv) ->
  (forall inv, hook_passes (postHook st) inv) ->
  (forall c a, transport (ps_sent ps) c a = TResp code b) ->
  truthy b = true -> is_object b = false ->
  (request guid transport st net cfg ps).2 = Rejected b /\ b .@ "networkId" = JUndef.
Proof.
  intros Hpre Hpost Ht Hb Ho.
  destruct (request_response_stage st net cfg ps code b Hpre Ht) as (ps2 & _ & ->).
  split; [|by destruct b].
  by rewrite postHookInterceptor_primitive by done.
Qed.

(** The tracked hook error, as the response-error interceptor sees it:
    it has no [config], so it gets a fresh id. *)
Lemma hook_error_retracked err id ps :
  addNetworkTracking guid (hook_error err id) ["config"; "networkId"] ps =
  (tick ps, hook_error err (guid (ps_next ps))).
Proof. by rewrite addNetworkTracking_run. Qed.

(** C5: a pre-hook that reports an error stops the request before the
    transport: nothing is sent, the post-hook is called in error mode,
    and the call fails with the tagged hook error.  That error, passed
    through the response-error interceptor, carries a fresh guid in
    place of the request's id. *)
Theorem prehook_veto_not_sent st f err net cfg ps :
  preHook st = Some f -> (forall inv, f inv = Some err) -> truthy err = true ->
  (forall inv, hook_passes (postHook st) inv) ->
  truthy ((mergeConfig (defaults net) cfg) .@ "networkId") = false ->
  let c := js_set (mergeConfig (defaults net) cfg) "networkId" (guid (ps_next ps)) in
  let e := hook_error err (guid (S (ps_next ps))) in
  request guid transport st net cfg ps =
  (mkPState (S (S (ps_next ps))) (ps_sent ps)
     (ps_trace ps ++ [EvHook PreSide (mkInvocation JUndef c (js_pick c request_param_keys))]
                  ++ hook_events PostSide (postHook st) (mkInvocation e JUndef JUndef)),
   Rejected e).
Proof.
  intros Hpre Hf Ht Hpost Hno c e. subst c e.
  destruct (mergeConfig_obj (defaults net) cfg) as [fs Hm]. rewrite Hm in Hno |- *.
  rewrite request_unfold, Hm, (request_stage_vetoes st f err) by done.
  rewrite Hno. unfold addResponseNetworkTracking, postErrorHook.
  rewrite pm_bind_unfold, hook_error_retracked.
  rewrite (surjective_pairing (promisify _ _ _ _ _ _)), promisify_state, promisify_passes
    by apply Hpost.
  unfold request_id. rewrite js_or_falsy by done.
  cbn [tick ps_next ps_sent ps_trace]. by rewrite <- app_assoc.
Qed.

(** C4: a post-hook error supersedes the outcome of the request,
    success or failure, and keeps its correlation id: the call fails
    with [{ hookError: err, networkId }] carrying the request's id, for
    a transport that answers with object or falsy bodies ([body_ok]);
    on a truthy primitive body the hook error's id is [undefined], as
    the body it reads the id from carries none. *)
Theorem posthook_error_supersedes st f err net cfg ps :
  (forall inv, hook_passes (preHook st) inv) ->
  postHook st = Some f -> (forall inv, f inv = Some err) -> truthy err = true ->
  (forall c a, transport (ps_sent ps) c a <> THang) ->
  (forall c a code b, transport (ps_sent ps) c a = TResp code b -> body_ok b) ->
  (request guid transport st net cfg ps).2 =
  Rejected (hook_error err (request_id guid (mergeConfig (defaults net) cfg) ps)).
Proof.
  intros Hpre Hpost Hf Herr Hhang Hbody.
  destruct (request_posthook_vetoes st f err net cfg ps Hpre Hpost Hf Herr Hhang) as [x Hx].
  pose proof (request_carries st net cfg ps Hpre Hbody) as Hc.
  rewrite Hx in Hc |- *. by simpl in Hc; subst x.
Qed.
End Chain.

(** ** The timeout requests are sent with *)

(** The timeout [getNetwork(axiosConfig)] gives the instance: the
    caller's [axiosConfig.timeout] when it has one, [TIMEOUT]
    otherwise. *)
Definition options_timeout (axiosConfig : jsval) : jsval :=
  match axiosConfig with
  | JObj gs => default (JNum TIMEOUT) (fields_lookup "timeout" gs)
  | _ => JNum TIMEOUT
  end.

Lemma getNetwork_defaults axiosConfig :
  (forall gs, axiosConfig = JObj gs -> NoDup gs.*1) ->
  exists ds, defaults (getNetwork axiosConfig) = JObj ds /\ NoDup ds.*1 /\
             fields_lookup "timeout" ds = Some (options_timeout axiosConfig).
Proof.
  intros Hnd. destruct axiosConfig as [| | | | | |gs]; simpl;
    try (eexists; split; [done|]; split; [apply NoDup_singleton|done]).
  eexists; split; [done|]. split; [apply assign_nodup, NoDup_singleton|].
  rewrite assign_lookup, fields_lookup_reverse by auto.
  by destruct (fields_lookup "timeout" gs).
Qed.

(** A configuration without its own [timeout] takes the instance's. *)
Lemma mergeConfig_timeout ds cfg :
  NoDup ds.*1 -> (forall cs, cfg = JObj cs -> "timeout" ∉ cs.*1) ->
  (mergeConfig (JObj ds) cfg) .@ "timeout" = default JUndef (fields_lookup "timeout" ds).
Proof.
  intros Hnd Hcfg. unfold mergeConfig.
  assert (Hd : (js_assign (JObj []) (JObj ds)) .@ "timeout" = default JUndef (fields_lookup "timeout" ds)).
  { simpl. rewrite assign_lookup, fields_lookup_reverse by done. by destruct (fields_lookup _ ds). }
  destruct cfg as [| | | | | |cs]; try exact Hd.
  simpl. rewrite assign_lookup, fields_lookup_notin; [exact Hd|].
  rewrite fmap_reverse, elem_of_reverse. by apply Hcfg.
Qed.

Section Timeout.
Context `{SubCodeValidator} (guid : nat -> jsval).

(** C34: the timeout every call is sent with.  On an instance created by
    [getNetwork(axiosConfig)] (or the same instance after login, which
    keeps its defaults), every configuration the request interceptor
    hands on to axios for sending, whatever the pre-hook does, has the
    [timeout] of [axiosConfig] when it sets one, and [TIMEOUT] (30000 ms)
    otherwise, provided the call's own configuration sets no timeout (as
    none of the client's methods does). *)
Theorem request_timeout st net axiosConfig cfg ps c :
  defaults net = defaults (getNetwork axiosConfig) ->
  (forall gs, axiosConfig = JObj gs -> NoDup gs.*1) ->
  (forall cs, cfg = JObj cs -> "timeout" ∉ cs.*1) ->
  (addRequestNetworkTracking guid (preHookInterceptor st) (mergeConfig (defaults net) cfg) ps).2
  = Fulfilled c ->
  c .@ "timeout" = options_timeout axiosConfig.
Proof.
  intros Hnet Hnd Hcfg. unfold addRequestNetworkTracking, preHookInterceptor.
  rewrite pm_bind_unfold, addNetworkTracking_run. intros [-> _]%promisify_fulfilled.
  destruct (getNetwork_defaults axiosConfig Hnd) as (ds & Hds & Hnd' & Hto).
  rewrite Hnet, Hds. destruct (mergeConfig_obj (JObj ds) cfg) as [fs Hfs].
  pose proof (mergeConfig_timeout ds cfg Hnd' Hcfg) as Ht. rewrite Hto in Ht.
  rewrite Hfs in Ht |- *. by rewrite js_get_set_ne.
Qed.
End Timeout.
