(* ===== verification/Concurrent.v ===== *)
(** * Requests in flight at the same time

    The specification asks that many calls may be in flight at once,
    each with its own correlation id, and that the pipeline never
    conflates two ids whatever the order in which responses arrive.
    [request] (file [Network]) runs one call to completion; here each
    call is split at the points where the JavaScript event loop may run
    another call's continuation:
    - [PStart cfg]: [network.request(cfg)] was called;
    - the request interceptor runs ([addRequestNetworkTracking] with
      the pre-hook) and the call becomes [PSendable c], or, rejected,
      goes straight to the response-error interceptor ([PArrived None]);
    - axios dispatches [c] as the [k]-th request sent ([PWaiting c k]);
    - the transport answers the [k]-th request ([PArrived (Some c) s]);
    - the response interceptors run ([PDone]).
    [conc_step] advances any one call by one stage; the calls share the
    guid supply, the count of requests sent and the trace ([pstate]).
    A call started later is a [PStart] the schedule has not advanced yet.
    [conc_run_exact] shows that the schedules of the executable
    [conc_run] reach exactly the states of [conc_step], so the concrete
    runs of the witnesses are interleavings; the theorems hold for every
    interleaving. *)

From S2P Require Import Prelude JsValue Constants State Validate Promise SubCode Interceptors Network.

Inductive phase :=
| PStart (cfg : jsval)
| PSendable (c : jsval)
| PWaiting (c : jsval) (k : nat)
| PArrived (c : option jsval) (s : settled)
| PDone (c : option jsval) (s : settled)
| PHung.

Record conc := mkConc {
  cc_ps : pstate;
  cc_reqs : list phase
}.

Section Conc.
Context `{SubCodeValidator} (guid : nat -> jsval)
        (transport : nat -> jsval -> option string -> tresult)
        (st : state) (net : network).

(** axios sends [c]: the send is the [ps_sent]-th request. *)
Definition send (c : jsval) : PM phase :=
  fun ps => (mkPState (ps_next ps) (S (ps_sent ps)) (ps_trace ps ++ [EvSend c (authorization net)]),
             PWaiting c (ps_sent ps)).

(** The next stage of a call, when it can move. *)
Definition advance (p : phase) : option (PM phase) :=
  match p with
  | PStart cfg =>
      Some (s ← addRequestNetworkTracking guid (preHookInterceptor st)
                  (mergeConfig (defaults net) cfg);
            mret (match s with
                  | Fulfilled c => PSendable c
                  | Rejected e => PArrived None (Rejected e)
                  | Pending => PHung
                  end))
  | PSendable c => Some (send c)
  | PWaiting c k =>
      match transport k c (authorization net) with
      | TResp status body => Some (mret (PArrived (Some c) (Fulfilled (axios_response c status body))))
      | TFail message => Some (mret (PArrived (Some c) (Rejected (axios_error c message))))
      | THang => None
      end
  | PArrived oc s =>
      Some (r ← match s with
                | Fulfilled v => addResponseNetworkTracking guid (postHookInterceptor st) v
                | Rejected e => addResponseNetworkTracking guid (postErrorHook st) e
                | Pending => mret Pending
                end;
            mret (PDone oc r))
  | PDone _ _ | PHung => None
  end.

(** One stage of one of the calls in flight. *)
Inductive conc_step : conc -> conc -> Prop :=
| conc_advance C i p m :
    cc_reqs C !! i = Some p -> advance p = Some m ->
    conc_step C (mkConc (m (cc_ps C)).1 (<[i := (m (cc_ps C)).2]> (cc_reqs C))).

(** An executable scheduler: advance the calls in the order [sched]
    names them, skipping a call that cannot move. *)
Fixpoint conc_run (sched : list nat) (C : conc) : conc :=
  match sched with
  | [] => C
  | i :: sched' =>
      match cc_reqs C !! i with
      | Some p =>
          match advance p with
          | Some m => conc_run sched' (mkConc (m (cc_ps C)).1 (<[i := (m (cc_ps C)).2]> (cc_reqs C)))
          | None => conc_run sched' C
          end
      | None => conc_run sched' C
      end
  end.
End Conc.

(** ** The executable scheduler *)

Section Alone.
Context `{SubCodeValidator} (guid : nat -> jsval)
        (transport : nat -> jsval -> option string -> tresult)
        (st : state) (net : network).

(** Every schedule is a run of the step relation. *)
Lemma conc_run_reach sched C : rtc (conc_step guid transport st net) C (conc_run guid transport st net sched C).
Proof.
  revert C. induction sched as [|i sched IH]; intros C; simpl; [apply rtc_refl|].
  destruct (cc_reqs C !! i) as [p|] eqn:Hi; [|apply IH].
  destruct (advance guid transport st net p) as [m|] eqn:Hm; [|apply IH].
  eapply rtc_l; [by econstructor|apply IH].
Qed.

(** The executable scheduler is exact: the states the step
    relation reaches from [C] are exactly those [conc_run] computes from
    [C] for some schedule, so every interleaving is one schedule. *)
Theorem conc_run_exact C C' :
  rtc (conc_step guid transport st net) C C' <-> exists sched, conc_run guid transport st net sched C = C'.
Proof.
  split.
  - induction 1 as [C|C C1 C2 [C0 i p m Hi Hm] _ (sched & <-)].
    + by exists [].
    + exists (i :: sched). simpl. by rewrite Hi, Hm.
  - intros (sched & <-). apply conc_run_reach.
Qed.

End Alone.

(** ** Correlation under every interleaving *)

(** What the transport made of a sent configuration [c]. *)
Definition dispatched (c : jsval) (s : settled) : Prop :=
  (exists code b, s = Fulfilled (axios_response c code b) /\ body_ok b) \/
  (exists m, s = Rejected (axios_error c m)).

(** A call's stage is consistent with the trace [tr] of the run: a sent
    configuration carries a truthy id and its send is in the trace; an
    answered call holds the transport's answer to it; a finished call's
    outcome carries the id of the configuration it sent. *)
Definition phase_ok (auth : option string) (tr : list event) (p : phase) : Prop :=
  match p with
  | PSendable c => truthy (c .@ "networkId") = true
  | PWaiting c _ => truthy (c .@ "networkId") = true /\ EvSend c auth ∈ tr
  | PArrived (Some c) s => truthy (c .@ "networkId") = true /\ EvSend c auth ∈ tr /\ dispatched c s
  | PDone (Some c) s => settled_carries s (c .@ "networkId") /\ EvSend c auth ∈ tr
  | _ => True
  end.

Definition conc_ok (auth : option string) (C : conc) : Prop :=
  Forall (phase_ok auth (ps_trace (cc_ps C))) (cc_reqs C).

Lemma phase_ok_extend auth tr tr' p : phase_ok auth tr p -> phase_ok auth (tr ++ tr') p.
Proof.
  assert (forall e, e ∈ tr -> e ∈ tr ++ tr') by (intros; apply elem_of_app; by left).
  destruct p as [|c|c k|[c|] s|[c|] s|]; simpl; naive_solver.
Qed.

Section ConcLaws.
Context `{SubCodeValidator} (guid : nat -> jsval)
        (transport : nat -> jsval -> option string -> tresult)
        (st : state) (net : network).
Hypothesis guid_truthy : forall n, truthy (guid n) = true.
Hypothesis transport_body_ok : forall k c a code b, transport k c a = TResp code b -> body_ok b.

(** The request interceptor lets through configurations with a truthy id. *)
Lemma request_stage_fulfilled_id cfg ps c :
  (addRequestNetworkTracking guid (preHookInterceptor st) (mergeConfig (defaults net) cfg) ps).2
  = Fulfilled c -> truthy (c .@ "networkId") = true.
Proof.
  unfold addRequestNetworkTracking, preHookInterceptor. rewrite pm_bind_unfold, addNetworkTracking_run.
  intros [-> _]%promisify_fulfilled. destruct (mergeConfig_obj (defaults net) cfg) as [fs ->].
  rewrite js_get_set_eq. apply (request_id_truthy guid guid_truthy).
Qed.

(** Every stage only appends to the trace. *)
Lemma advance_trace p m ps :
  advance guid transport st net p = Some m ->
  exists tr, ps_trace (m ps).1 = ps_trace ps ++ tr.
Proof.
  destruct p as [cfg|c|c k|oc s|oc s|]; simpl; try discriminate.
  - intros [= <-]. rewrite pm_bind_unfold. unfold addRequestNetworkTracking, preHookInterceptor.
    rewrite pm_bind_unfold, addNetworkTracking_run.
    rewrite (surjective_pairing (promisify _ _ _ _ _ _)), promisify_state.
    eexists. cbn. by destruct (truthy _).
  - intros [= <-]. by eexists.
  - destruct (transport k c _); intros [= <-]; exists []; by rewrite app_nil_r.
  - intros [= <-]. rewrite pm_bind_unfold.
    destruct s as [v|e|].
    + destruct (response_stage_trace guid pre_clean postHookInterceptor st v ps) as (tr & Htr & _);
        [apply postHookInterceptor_trace|].
      destruct (addResponseNetworkTracking _ _ _ _) as [ps' r]. simpl in *. by exists tr.
    + destruct (response_stage_trace guid pre_clean postErrorHook st e ps) as (tr & Htr & _);
        [apply postErrorHook_trace|].
      destruct (addResponseNetworkTracking _ _ _ _) as [ps' r]. simpl in *. by exists tr.
    + exists []. by rewrite app_nil_r.
Qed.

Lemma advance_ok p m ps :
  advance guid transport st net p = Some m ->
  phase_ok (authorization net) (ps_trace ps) p ->
  phase_ok (authorization net) (ps_trace (m ps).1) (m ps).2.
Proof.
  intros Hm Hp. destruct (advance_trace p m ps Hm) as [tr Htr].
  revert Hm Hp Htr. destruct p as [cfg|c|c k|[c|] s|oc s|]; simpl; try discriminate.
  - intros [= <-] _ _. rewrite pm_bind_unfold.
    pose proof (request_stage_fulfilled_id cfg ps) as Hid.
    destruct (addRequestNetworkTracking _ _ _ _) as [ps1 [c|e|]]; simpl in *; try done.
    by apply Hid.
  - intros [= <-] Hc _. simpl. split; [done|]. apply elem_of_app. right. by left.
  - destruct (transport k c _) eqn:Et; intros [= <-] [Hc Hin] _; simpl;
      (split; [done|]); (split; [done|]).
    + left. do 2 eexists. split; [reflexivity|]. by eapply transport_body_ok.
    + right. by eexists.
  - intros [= <-] (Hc & Hin & Hd) Htr. rewrite Htr. rewrite pm_bind_unfold in Htr |- *.
    assert (Hin' : EvSend c (authorization net) ∈ ps_trace ps ++ tr)
      by (apply elem_of_app; by left).
    destruct Hd as [(code & b & -> & Hb)|(msg & ->)].
    + pose proof (response_stage_carries guid st c code b ps Hc Hb) as Hcar.
      by destruct (addResponseNetworkTracking _ _ _ _).
    + pose proof (error_stage_carries guid st c msg ps Hc) as Hcar.
      by destruct (addResponseNetworkTracking _ _ _ _).
  - intros [= <-] _ _. rewrite pm_bind_unfold. by destruct (match s with _ => _ end ps).
Qed.

Lemma conc_step_ok C C' :
  conc_step guid transport st net C C' -> conc_ok (authorization net) C -> conc_ok (authorization net) C'.
Proof.
  intros [C0 i p m Hi Hm] Hok. unfold conc_ok in *. simpl.
  destruct (advance_trace p m (cc_ps C0) Hm) as [tr Htr].
  apply Forall_insert.
  - rewrite Htr. eapply Forall_impl; [exact Hok|]. intros q. apply phase_ok_extend.
  - apply (advance_ok p); [done|]. by eapply Forall_lookup_1.
Qed.

Lemma conc_ok_reach C C' :
  rtc (conc_step guid transport st net) C C' -> conc_ok (authorization net) C -> conc_ok (authorization net) C'.
Proof. induction 1 as [|x y z Hxy _ IH]; [done|]. intros Hx. apply IH. by eapply conc_step_ok. Qed.

(** C15: no conflation under concurrency.  Whatever the interleaving of
    the stages of calls made at once, every call that has finished
    after reaching the transport settled with a value or error carrying
    the id of the very configuration it sent, and that send is in the
    trace, for a transport that answers with object or falsy bodies
    (the section's hypothesis [transport_body_ok]; a string body loses
    the id, [Network.request_string_body_untagged]). *)
Theorem conc_correlation ps cfgs C i c s :
  rtc (conc_step guid transport st net) (mkConc ps (map PStart cfgs)) C ->
  cc_reqs C !! i = Some (PDone (Some c) s) ->
  settled_carries s (c .@ "networkId") /\ EvSend c (authorization net) ∈ ps_trace (cc_ps C).
Proof.
  intros Hr Hi. eapply conc_ok_reach in Hr.
  - exact (Forall_lookup_1 _ _ _ _ Hr Hi).
  - unfold conc_ok. simpl. apply Forall_forall. intros p (cfg & -> & _)%list_elem_of_fmap. done.
Qed.
End ConcLaws.

(** ** Distinct ids for concurrent calls *)

(** The correlation id a call has once its configuration is tracked. *)
Definition phase_id (p : phase) : option jsval :=
  match p with
  | PSendable c | PWaiting c _ | PArrived (Some c) _ | PDone (Some c) _ => Some (c .@ "networkId")
  | _ => None
  end.

Section Ids.
Context `{SubCodeValidator} (guid : nat -> jsval)
        (transport : nat -> jsval -> option string -> tresult)
        (st : state) (net : network).

(** No configuration of the calls carries an id of the caller's. *)
Definition fresh_cfg (cfg : jsval) : Prop :=
  truthy ((mergeConfig (defaults net) cfg) .@ "networkId") = false.

(** The ids of the calls are guids already drawn, one per call. *)
Definition ids_inv (C : conc) : Prop :=
  (forall i cfg, cc_reqs C !! i = Some (PStart cfg) -> fresh_cfg cfg) /\
  (forall i p x, cc_reqs C !! i = Some p -> phase_id p = Some x ->
                 exists n, n < ps_next (cc_ps C) /\ x = guid n) /\
  (forall i j p q x, i <> j -> cc_reqs C !! i = Some p -> cc_reqs C !! j = Some q ->
                     phase_id p = Some x -> phase_id q <> Some x).

Lemma response_stage_next (h : state -> jsval -> PM settled) v ps :
  (forall d ps', ps_next (h st d ps').1 = ps_next ps') ->
  ps_next ps <= ps_next (addResponseNetworkTracking guid (h st) v ps).1.
Proof.
  intros Hh. unfold addResponseNetworkTracking. rewrite pm_bind_unfold, addNetworkTracking_run, Hh.
  destruct (truthy _); simpl; lia.
Qed.

(** A stage other than the request interceptor keeps the call's id and
    draws no guid it could hand out twice. *)
Lemma advance_keeps_id p m ps :
  advance guid transport st net p = Some m -> (forall cfg, p <> PStart cfg) ->
  phase_id (m ps).2 = phase_id p /\ ps_next ps <= ps_next (m ps).1.
Proof.
  intros Hm Hp. destruct p as [cfg|c|c k|oc s|oc s|]; simpl in Hm; try discriminate.
  - by destruct (Hp cfg).
  - injection Hm as <-. simpl. split; [done|lia].
  - destruct (transport k c _); try discriminate; injection Hm as <-; simpl; split; done || lia.
  - injection Hm as <-. rewrite pm_bind_unfold.
    destruct s as [v|e|]; simpl;
      [pose proof (response_stage_next postHookInterceptor v ps) as Hn
      |pose proof (response_stage_next postErrorHook e ps) as Hn|];
      try (destruct (addResponseNetworkTracking _ _ _ _); simpl in *; split; [by destruct oc|]);
      try (apply Hn; intros; unfold postHookInterceptor, postErrorHook; by rewrite promisify_state).
    split; [by destruct oc|done].
Qed.

(** The request interceptor of a call without an id of the caller's
    draws exactly the next guid, and the call then has it as its id. *)
Lemma advance_start_id cfg m ps :
  advance guid transport st net (PStart cfg) = Some m -> fresh_cfg cfg ->
  ps_next (m ps).1 = S (ps_next ps) /\
  (phase_id (m ps).2 = None \/ phase_id (m ps).2 = Some (guid (ps_next ps))).
Proof.
  intros Hm Hf. injection Hm as <-. rewrite pm_bind_unfold.
  unfold addRequestNetworkTracking, preHookInterceptor. rewrite pm_bind_unfold, addNetworkTracking_run.
  destruct (mergeConfig_obj (defaults net) cfg) as [fs Hfs]. unfold fresh_cfg in Hf.
  rewrite Hfs in Hf |- *. cbn [js_get_path foldl]. rewrite Hf.
  set (d := js_set (JObj fs) "networkId" _).
  assert (Hd : d .@ "networkId" = guid (ps_next ps)) by (subst d; rewrite js_get_set_eq; by apply js_or_falsy).
  pose proof (fun v => promisify_fulfilled PreSide (preHook st) JUndef d (js_pick d request_param_keys)
                         (tick ps) v) as Hful.
  rewrite (surjective_pairing (promisify PreSide _ JUndef d _ _)), promisify_state.
  destruct (promisify PreSide _ JUndef d _ _).2 as [c|e|]; simpl; (split; [done|]); [|by left..].
  right. destruct (Hful c eq_refl) as [-> _]. by rewrite Hd.
Qed.

Lemma advance_not_start p m ps cfg :
  advance guid transport st net p = Some m -> (m ps).2 <> PStart cfg.
Proof.
  destruct p as [cfg'|c|c k|oc s|oc s|]; simpl; try discriminate.
  - intros [= <-]. rewrite pm_bind_unfold. by destruct (addRequestNetworkTracking _ _ _ _) as [? []].
  - by intros [= <-].
  - destruct (transport k c _); by intros [= <-].
  - intros [= <-]. rewrite pm_bind_unfold. by destruct (match s with _ => _ end ps).
Qed.

Lemma conc_step_ids C C' :
  Inj eq eq guid -> conc_step guid transport st net C C' -> ids_inv C -> ids_inv C'.
Proof.
  intros Hinj [C0 i p m Hi Hm] (Hs & Hb & Hd). unfold ids_inv; cbn [cc_ps cc_reqs].
  set (ps := cc_ps C0) in *. set (l := cc_reqs C0) in *.
  assert (Hcase : (exists cfg, p = PStart cfg) \/ forall cfg, p <> PStart cfg)
    by (destruct p; [left; eauto|right; intros ? [=]..]).
  destruct Hcase as [[cfg ->]|Hp].
  - destruct (advance_start_id cfg m ps Hm (Hs _ _ Hi)) as [Hn Hid].
    split; [|split].
    + intros j cfg' [(<- & Heq & _)|(_ & Hj)]%list_lookup_insert_Some; [|by eapply Hs].
      by destruct (advance_not_start _ _ ps cfg' Hm).
    + intros j q x [(<- & <- & _)|(_ & Hj)]%list_lookup_insert_Some Hx.
      * destruct Hid as [Hid|Hid]; rewrite Hid in Hx; [done|]. injection Hx as <-.
        exists (ps_next ps). split; [lia|done].
      * destruct (Hb _ _ _ Hj Hx) as (n & Hlt & ->). exists n. split; [lia|done].
    + intros j k q r x Hjk [(<- & <- & _)|(Hij & Hj)]%list_lookup_insert_Some
        [(<- & <- & _)|(Hik & Hk)]%list_lookup_insert_Some Hq Hr; [done|..].
      * destruct Hid as [Hid|Hid]; rewrite Hid in Hq; [done|]. injection Hq as <-.
        destruct (Hb _ _ _ Hk Hr) as (n & Hlt & Hn'). apply Hinj in Hn'. lia.
      * destruct Hid as [Hid|Hid]; rewrite Hid in Hr; [done|]. injection Hr as <-.
        destruct (Hb _ _ _ Hj Hq) as (n & Hlt & Hn'). apply Hinj in Hn'. lia.
      * by apply (Hd j k q r x).
  - destruct (advance_keeps_id p m ps Hm Hp) as [Hid Hn].
    split; [|split].
    + intros j cfg' [(<- & Heq & _)|(_ & Hj)]%list_lookup_insert_Some; [|by eapply Hs].
      by destruct (advance_not_start _ _ ps cfg' Hm).
    + intros j q x [(<- & <- & _)|(_ & Hj)]%list_lookup_insert_Some Hx.
      * rewrite Hid in Hx. destruct (Hb _ _ _ Hi Hx) as (n & Hlt & ->). exists n. split; [lia|done].
      * destruct (Hb _ _ _ Hj Hx) as (n & Hlt & ->). exists n. split; [lia|done].
    + intros j k q r x Hjk [(<- & <- & _)|(Hij & Hj)]%list_lookup_insert_Some
        [(<- & <- & _)|(Hik & Hk)]%list_lookup_insert_Some Hq Hr; [done|..].
      * rewrite Hid in Hq. by apply (Hd i k p r x).
      * rewrite Hid in Hr. by apply (Hd j i q p x).
      * by apply (Hd j k q r x).
Qed.

Lemma ids_inv_reach C C' :
  Inj eq eq guid -> rtc (conc_step guid transport st net) C C' -> ids_inv C -> ids_inv C'.
Proof. intros Hinj. induction 1 as [|x y z Hxy _ IH]; [done|]. intros Hx. by eapply IH, conc_step_ids. Qed.

(** C16: concurrent calls never share a correlation id.  With distinct
    guids and no caller-supplied ids, whatever the interleaving of the
    stages of calls made at once, no two calls have the same id: each
    has a guid drawn for it alone. *)
Theorem conc_ids_distinct ps cfgs C i j p q x :
  Inj eq eq guid -> Forall fresh_cfg cfgs ->
  rtc (conc_step guid transport st net) (mkConc ps (map PStart cfgs)) C ->
  i <> j -> cc_reqs C !! i = Some p -> cc_reqs C !! j = Some q ->
  phase_id p = Some x -> phase_id q <> Some x.
Proof.
  intros Hinj Hf Hr. apply ids_inv_reach in Hr; [|done|].
  - destruct Hr as (_ & _ & Hd). eauto.
  - split; [|split].
    + intros k cfg (cfg' & [= ->] & Hk)%list_lookup_fmap_Some. by eapply Forall_lookup_1.
    + intros k p' y (cfg' & -> & _)%list_lookup_fmap_Some. done.
    + intros k l p' q' y _ (cfg' & -> & _)%list_lookup_fmap_Some. done.
Qed.
End Ids.
