(* ===== verification/PipelineSpec.v ===== *)
(** * The contract of the interceptor pipeline

    Section 4.3 of the specification describes what a call through the
    pipeline produces from what the hooks and the transport do: a
    pre-hook error aborts the call with that error; a transport failure
    is an error; a response whose sub-code the validator rejects is a
    provider error carrying the body; an accepted one is a success
    carrying the body; in every case the body gets the correlation id,
    a post-hook error supersedes the outcome, and a hook that never
    answers stalls the call.

    Section 7 adds that every error carries the correlation id and that
    a hook error raised on top of an original error keeps that error
    nested.  [spec_outcome] states the contract over abstract hook
    answers ([answer]) and the transport's answer, every error with the
    id it carries and a hook error with the original outcome it
    supersedes, if that was an error; [observe] is what a caller can
    read off the value or error [request] settles with.

    [pipeline_refines_spec] shows that [request] implements the contract
    on every path but three, which its hypotheses exclude and where the
    code departs from it:
    - a pre-hook veto: the code re-tags the error with a fresh id
      ([Network.prehook_veto_not_sent]);
    - a post-hook error raised on top of a transport or provider error:
      the code drops the original error
      ([Network.posthook_error_supersedes]);
    - a truthy body that is not an object: the code rejects with the
      bare body, without the id ([Network.request_string_body_untagged]). *)

From S2P Require Import Prelude JsValue Constants State Promise SubCode Interceptors Network.

(** What a hook does with every invocation: never answers, or answers
    [done(err)]; no hook at all behaves as [done(undefined)]. *)
Inductive answer := AHang | AErr (err : jsval).

Definition hook_answers (h : option hook) (a : answer) : Prop :=
  match h with
  | None => a = AErr JUndef
  | Some f => forall inv, f inv = match a with AHang => None | AErr e => Some e end
  end.

Definition vetoes (a : answer) : bool :=
  match a with AErr e => truthy e | AHang => false end.

Inductive outcome :=
| OSuccess (body : jsval)
| OProviderError (body : jsval)
| OTransportError (id : jsval)
| OHookError (err id : jsval) (original : option outcome)
| OStalled.

(** The original error a hook error keeps: none on top of a success. *)
Definition original (o : outcome) : option outcome :=
  match o with OSuccess _ => None | _ => Some o end.

(** A post-hook error supersedes the outcome, keeping the id and the
    original error; a silent post-hook stalls it. *)
Definition after_post (id : jsval) (post : answer) (o : outcome) : outcome :=
  match post with
  | AHang => OStalled
  | AErr e => if truthy e then OHookError e id (original o) else o
  end.

(** The contract, for a call whose correlation id is [id]. *)
Definition spec_outcome (accepted : jsval -> bool) (id : jsval) (pre : answer) (t : tresult)
    (post : answer) : outcome :=
  match pre with
  | AHang => OStalled
  | AErr e =>
      if truthy e then OHookError e id None
      else match t with
           | THang => OStalled
           | TFail _ => after_post id post (OTransportError id)
           | TResp _ b =>
               after_post id post
                 (if accepted (b .@ "subCode") then OSuccess (js_set b "networkId" id)
                  else OProviderError (js_set b "networkId" id))
           end
  end.

(** Whether the contract counts the transport's answer as an error. *)
Definition transport_error (accepted : jsval -> bool) (t : tresult) : bool :=
  match t with
  | TResp _ b => negb (accepted (b .@ "subCode"))
  | TFail _ => true
  | THang => false
  end.

(** What the caller of [network.request] sees: the body of a success,
    or the kind of error it was rejected with and the id that error
    carries.  An error value holds no original error: the code builds
    none. *)
Definition observe (s : settled) : outcome :=
  match s with
  | Fulfilled r => OSuccess (r .@ "data")
  | Rejected e =>
      if truthy (e .@ "hookError") then OHookError (e .@ "hookError") (e .@ "networkId") None
      else if truthy (e .@ "config") then OTransportError (e .@ "networkId")
      else OProviderError e
  | Pending => OStalled
  end.

(** A response body the caller can tell from the errors the pipeline
    builds: an object with no [hookError] or [config] of its own. *)
Definition plain_answer (t : tresult) : Prop :=
  match t with
  | TResp _ (JObj gs) =>
      truthy ((JObj gs) .@ "hookError") = false /\ truthy ((JObj gs) .@ "config") = false
  | TResp _ _ => False
  | _ => True
  end.

(** ** The pipeline implements the contract *)

Lemma promisify_answers side h a error data params ps :
  hook_answers h a ->
  (promisify side h error data params ps).2 =
  match a with
  | AHang => Pending
  | AErr e =>
      if truthy e then Rejected (hook_error e ((js_or error data) .@ "networkId"))
      else if truthy error then Rejected error else Fulfilled data
  end.
Proof.
  destruct h as [f|]; simpl; [|by intros ->].
  intros Hf. rewrite Hf. destruct a as [|e]; [done|]. by destruct (truthy e).
Qed.

(** Seen from the caller, a hook's answer acts on the outcome [promisify]
    would have without the hook as [after_post] says, for the id of
    [error || data], except that no original error is kept. *)
Lemma observe_promisify side h a error data params ps :
  hook_answers h a ->
  observe (promisify side h error data params ps).2 =
  match a with
  | AHang => OStalled
  | AErr e =>
      if truthy e then OHookError e ((js_or error data) .@ "networkId") None
      else observe (if truthy error then Rejected error else Fulfilled data)
  end.
Proof.
  intros Ha. rewrite (promisify_answers _ _ a) by done.
  destruct a as [|e]; simpl; [done|]. destruct (truthy e) eqn:He; simpl; [by rewrite He|].
  by destruct (truthy error).
Qed.

(** Where the outcome superseded is not an error, dropping the original
    error is what the contract prescribes. *)
Lemma after_post_success id a o :
  (vetoes a = true -> original o = None) ->
  after_post id a o =
  match a with AHang => OStalled | AErr e => if truthy e then OHookError e id None else o end.
Proof.
  destruct a as [|e]; simpl; [done|]. destruct (truthy e); [|done]. by intros ->.
Qed.

Section Refinement.
Context `{SubCodeValidator} (guid : nat -> jsval)
        (transport : nat -> jsval -> option string -> tresult).
Hypothesis guid_truthy : forall n, truthy (guid n) = true.

(** C2: the pipeline refines its contract where the code follows it.
    When the pre-hook answers [pre] without a veto, the post-hook
    answers [post] and the transport answers [t] the next request with
    an object body, what the caller of [network.request] sees, success
    body, provider error, transport error or hook error with the id
    each carries, or a stall, is what [spec_outcome] prescribes for the
    request's correlation id, provided the post-hook does not fail on
    top of an error (where the contract keeps the original error and
    the code drops it). *)
Theorem pipeline_refines_spec st net cfg ps pre post t :
  hook_answers (preHook st) pre -> hook_answers (postHook st) post ->
  (forall c a, transport (ps_sent ps) c a = t) -> plain_answer t ->
  vetoes pre = false -> (vetoes post = true -> transport_error validateSubCode t = false) ->
  observe (request guid transport st net cfg ps).2 =
  spec_outcome validateSubCode (request_id guid (mergeConfig (defaults net) cfg) ps) pre t post.
Proof.
  intros Hpre Hpost Ht Hplain Hveto Hnest. rewrite request_unfold.
  destruct (mergeConfig_obj (defaults net) cfg) as [fs Hm]. rewrite Hm.
  unfold addRequestNetworkTracking at 1, preHookInterceptor. rewrite pm_bind_unfold, addNetworkTracking_run.
  set (ps1 := if truthy _ then ps else tick ps).
  assert (Hs1 : ps_sent ps1 = ps_sent ps) by (subst ps1; by destruct (truthy _)).
  set (c := js_set (JObj fs) "networkId" _).
  assert (Hc : c .@ "networkId" = request_id guid (JObj fs) ps) by apply js_get_set_eq.
  assert (Hid : truthy (c .@ "networkId") = true) by (rewrite Hc; by apply request_id_truthy).
  rewrite (surjective_pairing (promisify _ _ _ _ _ _)), promisify_state, (promisify_answers _ _ pre) by done.
  destruct pre as [|e]; [done|]. simpl in Hveto. rewrite Hveto.
  cbn [truthy]. unfold dispatchRequest. cbn [ps_sent]. rewrite Hs1, Ht. cbn [spec_outcome]. rewrite Hveto.
  rewrite <- Hc.
  destruct t as [code b|msg|]; [| |done];
    unfold addResponseNetworkTracking; rewrite pm_bind_unfold, addNetworkTracking_run;
    [rewrite response_path_id|rewrite error_path_id]; rewrite js_or_truthy by done;
    [unfold postHookInterceptor|unfold postErrorHook];
    rewrite observe_promisify with (a := post) by done.
  - destruct b as [| | | | | |gs]; try done. destruct Hplain as [Hh Hhc].
    cbn [axios_response js_set fields_set js_get fields_lookup String.eqb default Ascii.eqb Bool.eqb].
    unfold id. simpl. rewrite fields_lookup_subCode_networkId.
    simpl in Hnest. destruct (validateSubCode _); simpl in Hnest |- *;
      destruct post as [|e2]; try done; simpl in Hnest |- *;
      destruct (truthy e2) eqn:He2; try by specialize (Hnest eq_refl).
    cbn in Hh, Hhc. rewrite !(fields_lookup_set_ne "networkId" "hookError"), !(fields_lookup_set_ne "networkId" "config") by discriminate. by rewrite Hh, Hhc.
  - simpl in Hnest. destruct post as [|e2]; [done|]. simpl in Hnest |- *.
    destruct (truthy e2); [by specialize (Hnest eq_refl)|]. done.
Qed.
End Refinement.
