(* ===== verification/Rejections.v ===== *)
(** * The type of the errors a call rejects with

    What the caller's [.catch(callback)] receives when [network.request]
    rejects: [rejection_ty] is a judgment on values with one rule per
    shape the pipeline builds, read off [promisify]:
    - [RHook]: a hook reported an error: [{ hookError, networkId }];
    - [RTransport]: axios failed: its error object, tagged with
      [networkId] by the response-error interceptor;
    - [RProvider]: the provider answered with a body whose [subCode]
      the validator rejects: the body, tagged with [networkId].
    [request_rejection_typed] shows that every rejection of [request]
    has one of these shapes, whatever the hooks and the transport do;
    in particular a rejection is never a body the validator accepts.
    [PipelineSpec] shows how a caller tells the three apart. *)

From S2P Require Import Prelude JsValue Constants State Promise SubCode Interceptors Network.

Section Types.
Context `{SubCodeValidator}.

Inductive rejection_ty : jsval -> Prop :=
| RHook err id :
    truthy err = true -> rejection_ty (hook_error err id)
| RTransport c msg id :
    rejection_ty (js_set (axios_error c msg) "networkId" id)
| RProvider b id :
    truthy b = true -> validateSubCode ((js_set b "networkId" id) .@ "subCode") = false ->
    rejection_ty (js_set b "networkId" id).
End Types.

(** ** Shapes of a rejection of [promisify] *)

Lemma promisify_rejected_cases side h error data params ps e :
  (promisify side h error data params ps).2 = Rejected e ->
  (exists err, truthy err = true /\ e = hook_error err ((js_or error data) .@ "networkId")) \/
  (truthy error = true /\ e = error).
Proof.
  destruct h as [f|]; simpl.
  - destruct (f _) as [err|]; [|done].
    destruct (truthy err) eqn:He; simpl.
    + intros [= <-]. left. by exists err.
    + destruct (truthy error) eqn:Hr; intros [= <-]. by right.
  - destruct (truthy error) eqn:Hr; intros [= <-]. by right.
Qed.

Lemma hook_error_rejection_ty `{SubCodeValidator} side h err id ps e :
  truthy err = true ->
  (promisify side h (hook_error err id) JUndef JUndef ps).2 = Rejected e -> rejection_ty e.
Proof.
  intros Herr [(err' & He' & ->)|(_ & ->)]%promisify_rejected_cases; by constructor.
Qed.

Section Typing.
Context `{SubCodeValidator} (guid : nat -> jsval)
        (transport : nat -> jsval -> option string -> tresult).

(** The response interceptor rejects with a hook error or the tagged,
    rejected body. *)
Lemma postHook_rejection_ty st r e ps :
  (postHookInterceptor st r ps).2 = Rejected e -> rejection_ty e.
Proof.
  unfold postHookInterceptor.
  set (p' := js_set (r .@ "data") "networkId" (r .@ "networkId")).
  intros [(err & Herr & ->)|(Ht & ->)]%promisify_rejected_cases; [by constructor|].
  destruct (validateSubCode (p' .@ "subCode")) eqn:Hv; [done|].
  subst p'. constructor; [|done]. by destruct (r .@ "data").
Qed.

(** The response-error interceptor, on an axios error, rejects with a
    hook error or that error, tagged. *)
Lemma postError_rejection_ty st c msg id e ps :
  (postErrorHook st (js_set (axios_error c msg) "networkId" id) ps).2 = Rejected e -> rejection_ty e.
Proof.
  unfold postErrorHook. intros [(err & Herr & ->)|(_ & ->)]%promisify_rejected_cases; by constructor.
Qed.

(** C10: the type of the error channel.  Whatever the hooks answer and
    whatever the transport does, when [network.request] rejects, the
    value it rejects with is a hook error [{ hookError, networkId }]
    with a truthy [hookError], axios's error tagged with [networkId],
    or a truthy response body, tagged with [networkId], whose
    [subCode] the validator rejects. *)
Theorem request_rejection_typed st net cfg ps e :
  (request guid transport st net cfg ps).2 = Rejected e -> rejection_ty e.
Proof.
  rewrite request_unfold.
  destruct (addRequestNetworkTracking guid (preHookInterceptor st) (mergeConfig (defaults net) cfg) ps)
    as [ps1 [c|e1|]] eqn:E1; simpl; [|..|done].
  - unfold dispatchRequest. destruct (transport (ps_sent ps1) c (authorization net)) as [code b|msg|];
      simpl; [| |done]; unfold addResponseNetworkTracking; rewrite pm_bind_unfold, addNetworkTracking_run.
    + apply postHook_rejection_ty.
    + rewrite error_path_id. apply postError_rejection_ty.
  - unfold addRequestNetworkTracking, preHookInterceptor in E1.
    rewrite pm_bind_unfold, addNetworkTracking_run in E1.
    apply (f_equal snd) in E1. simpl in E1.
    destruct (promisify_rejected_cases _ _ _ _ _ _ _ E1) as [(err & Herr & ->)|([=] & _)].
    unfold addResponseNetworkTracking, postErrorHook. rewrite pm_bind_unfold, hook_error_retracked.
    by apply hook_error_rejection_ty.
Qed.
End Typing.
