(* ===== verification/Client.v ===== *)
(** * [lib/index.js]: the client's methods

    The constructor's closure holds [state] and the axios instance;
    [client] bundles them with the pipeline state [PM] threads.  Each
    method of the source's [methods] object is one definition here: it
    builds the request configuration of the source, runs [request]
    (file [Network]) and continues as
    [.then(wrapResponse(callback, handler)).catch(callback)]:
    - a fulfilled request goes to [wrapResponse], whose handler may
      update the client (the two login steps) and calls [callback];
    - a value thrown inside the [.then] handler (a [TypeError] of the
      runtime) and a rejected request both reach [callback] as its error;
    - a pending request never calls [callback].
    [callback(err, value)] is [Reply err value] with [undefined] for a
    missing argument; [validate] returns synchronously ([Returned]).
    The credentials sent by [authenticate] are the constructor's
    arguments, which are also [state.clientId] and [state.clientSecret]:
    no code changes those two fields. *)

From S2P Require Import Prelude JsValue Constants State Validate Promise SubCode Interceptors Network.

Inductive reply :=
| Reply (err : jsval) (value : jsval)
| Returned (value : jsval)
| NoReply.

Record client := mkClient {
  c_state : state;
  c_net : network;
  c_ps : pstate
}.

Definition with_ps (cl : client) (ps : pstate) : client :=
  mkClient (c_state cl) (c_net cl) ps.

(** The error object the runtime throws for a property read on
    [undefined] or [null]. *)
Definition js_type_error : jsval :=
  JObj [("name", JStr "TypeError");
        ("message", JStr "Cannot read properties of undefined")].

(** Reading [x[0]] or [x.p] throws exactly on [undefined] and [null]. *)
Definition throws_on_read (x : jsval) : bool :=
  match x with JUndef | JNull => true | _ => false end.

(** The outcome of a [.then] handler: it throws ([inl]) or returns
    after updating the client and calling back ([inr]). *)
Abbreviation handler_result := (jsval + client * reply)%type.

Section Client.
Context `{SubCodeValidator} (guid : nat -> jsval)
        (transport : nat -> jsval -> option string -> tresult).

(** [wrapResponse(callback, handler)(response)]: a rejected sub-code
    logs [subCode] and [subCode[0]] (which throws when [subCode] is
    [undefined] or [null]) and calls back with the body. *)
Definition wrapResponse (handler : jsval -> client -> handler_result)
    (response : jsval) (cl : client) : handler_result :=
  let data := response .@ "data" in
  let subCode := data .@ "subCode" in
  if negb (validateSubCode subCode) then
    if throws_on_read subCode then inl js_type_error else inr (cl, Reply data JUndef)
  else handler data cl.

(** [network.request(cfg).then(wrapResponse(callback, handler)).catch(callback)] *)
Definition call_method (cfg : jsval) (handler : jsval -> client -> handler_result)
    (cl : client) : client * reply :=
  let '(ps', s) := request guid transport (c_state cl) (c_net cl) cfg (c_ps cl) in
  let cl1 := with_ps cl ps' in
  match s with
  | Fulfilled r =>
      match wrapResponse handler r cl1 with
      | inl exn => (cl1, Reply exn JUndef)
      | inr res => res
      end
  | Rejected e => (cl1, Reply e JUndef)
  | Pending => (cl1, NoReply)
  end.

(** The handler of a method that calls back with [f data]. *)
Definition reply_with (f : jsval -> jsval) (data : jsval) (cl : client) : handler_result :=
  inr (cl, Reply JNull (f data)).

Definition authenticate_config (st : state) : jsval :=
  JObj [("url", URLS .@ "AUTHENTICATE"); ("method", JStr "post");
        ("headers", JObj [("X-Client-Id", clientId st); ("X-Client-Secret", clientSecret st)])].

Definition authenticate_handler (data : jsval) (cl : client) : handler_result :=
  let tok := js_get_path data ["data"; "token"] in
  if negb (truthy tok) then inr (cl, Reply (JStr "No token returned") JUndef)
  else inr (mkClient (set_token (c_state cl) tok) (set_authorization (c_net cl) tok) (c_ps cl),
            Reply JUndef JUndef).

Definition authenticate (cl : client) : client * reply :=
  call_method (authenticate_config (c_state cl)) authenticate_handler cl.

Definition verifyToken_config : jsval :=
  JObj [("url", URLS .@ "VERIFY_TOKEN"); ("method", JStr "post")].

Definition verifyToken_handler (data : jsval) (cl : client) : handler_result :=
  inr (mkClient (set_token_verified (c_state cl)) (c_net cl) (c_ps cl), Reply JUndef JUndef).

Definition verifyToken (cl : client) : client * reply :=
  call_method verifyToken_config verifyToken_handler cl.

(** [info.accountExists !== 'YES'] reads a property of [info], which
    throws when [_.get(data, 'data', {})] is [null]. *)
Definition validateBeneficiary_handler (data : jsval) (cl : client) : handler_result :=
  let info := js_get_or data ["data"] (JObj []) in
  if throws_on_read info then inl js_type_error
  else if negb (js_is_string (info .@ "accountExists") "YES") then inr (cl, Reply data JUndef)
  else inr (cl, Reply JNull info).

Definition validateBeneficiary_config (params : jsval) : jsval :=
  JObj [("url", URLS .@ "VERIFY_BENEFICIARY"); ("method", JStr "get");
        ("params", js_pick params ["bankAccount"; "ifsc"; "name"; "phone"])].

Definition validateBeneficiary (params : jsval) (cl : client) : client * reply :=
  call_method (validateBeneficiary_config params) validateBeneficiary_handler cl.

(** The key list of the source, with its trailing spaces. *)
Definition addBeneficiary_keys : list string :=
  ["beneId"; "name"; "email"; "phone"; "bankAccount"; "ifsc"; "address1"; "address2 ";
   "city"; "state"; "pincode "].

Definition addBeneficiary_config (params : jsval) : jsval :=
  JObj [("url", URLS .@ "ADD_BENEFICIARY"); ("method", JStr "post");
        ("data", js_pick params addBeneficiary_keys)].

Definition addBeneficiary (params : jsval) (cl : client) : client * reply :=
  call_method (addBeneficiary_config params) (reply_with id) cl.

Definition getBeneficiary_config (params : jsval) : jsval :=
  JObj [("url", JStr (js_to_string (URLS .@ "GET_BENEFICIARY") +:+ "/" +:+
                      js_to_string (params .@ "beneId")))].

Definition getBeneficiary (params : jsval) (cl : client) : client * reply :=
  call_method (getBeneficiary_config params) (reply_with (fun d => d .@ "data")) cl.

Definition getBeneficiaryId_config (params : jsval) : jsval :=
  JObj [("url", URLS .@ "GET_BENEFICIARY_ID");
        ("params", js_pick params ["bankAccount"; "ifsc"])].

Definition getBeneficiaryId (params : jsval) (cl : client) : client * reply :=
  call_method (getBeneficiaryId_config params)
    (reply_with (fun d => js_get_path d ["data"; "beneId"])) cl.

Definition getBeneficiaries_config (params : jsval) : jsval :=
  JObj [("url", URLS .@ "GET_BENEFICIARIES");
        ("params", js_pick params ["maxReturn"; "lastReturnId"])].

Definition getBeneficiaries (params : jsval) (cl : client) : client * reply :=
  call_method (getBeneficiaries_config params)
    (reply_with (fun d => js_get_or d ["data"; "beneficiaries"] (JArr []))) cl.

Definition removeBeneficiary_config (params : jsval) : jsval :=
  JObj [("url", URLS .@ "REMOVE_BENEFICIARIES"); ("method", JStr "post");
        ("data", js_pick params ["beneId"; "ifsc"])].

Definition removeBeneficiary (params : jsval) (cl : client) : client * reply :=
  call_method (removeBeneficiary_config params) (reply_with id) cl.

Definition requestTransfer_keys : list string :=
  ["beneId"; "amount"; "transferId"; "transferMode"; "remarks "].

Definition requestTransfer_config (params : jsval) : jsval :=
  JObj [("url", URLS .@ "REQUEST_TRANSFER"); ("method", JStr "post");
        ("data", js_pick params requestTransfer_keys)].

Definition requestTransfer (params : jsval) (cl : client) : client * reply :=
  call_method (requestTransfer_config params) (reply_with id) cl.

Definition getBalance_config : jsval := JObj [("url", URLS .@ "GET_BALANCE")].

Definition getBalance (cl : client) : client * reply :=
  call_method getBalance_config (reply_with (fun d => d .@ "data")) cl.

(** The page parameters go in the request body ([data]), not in the
    query string ([params]) as for [getBeneficiaries]. *)
Definition listTransfers_config (params : jsval) : jsval :=
  JObj [("url", URLS .@ "LIST_TRANSFERS");
        ("data", js_pick params ["maxReturn"; "lastReturnId"])].

Definition listTransfers (params : jsval) (cl : client) : client * reply :=
  call_method (listTransfers_config params)
    (reply_with (fun d => js_get_or d ["data"; "transfers"] (JArr []))) cl.

Definition getTransfer_config (params : jsval) : jsval :=
  JObj [("url", URLS .@ "GET_TRANSFER");
        ("params", js_pick params ["referenceId"; "transferId"])].

Definition getTransfer (params : jsval) (cl : client) : client * reply :=
  call_method (getTransfer_config params) (reply_with (fun d => d .@ "data")) cl.

(** [validate: () => validateState(state)] *)
Definition validate_method (cl : client) : client * reply :=
  (cl, Returned (validate (Some (c_state cl)))).
End Client.

(** The value a method's handler receives: the response body carrying
    the request's id. *)
Definition tagged_body (id : jsval) (gs : js_fields) : jsval :=
  JObj (fields_set "networkId" id gs).

(** What [.catch(callback)] makes of a handler outcome. *)
Definition finish (cl : client) (res : handler_result) : client * reply :=
  match res with inl exn => (cl, Reply exn JUndef) | inr r => r end.

Section ClientLaws.
Context `{SubCodeValidator} (guid : nat -> jsval)
        (transport : nat -> jsval -> option string -> tresult).
Hypothesis guid_truthy : forall n, truthy (guid n) = true.

(** The hooks pass and the transport answers the next request with the
    object body [gs]. *)
Definition answers (cl : client) (code : Z) (gs : js_fields) : Prop :=
  (forall inv, hook_passes (preHook (c_state cl)) inv) /\
  (forall inv, hook_passes (postHook (c_state cl)) inv) /\
  (forall c a, transport (ps_sent (c_ps cl)) c a = TResp code (JObj gs)).

Lemma fields_lookup_data_networkId x gs :
  fields_lookup "data" (fields_set "networkId" x gs) = fields_lookup "data" gs.
Proof. by apply fields_lookup_set_ne. Qed.

(** A method whose request is answered with an accepted sub-code runs
    its handler on the tagged body. *)
Lemma call_method_accepted cfg handler cl code gs :
  answers cl code gs ->
  validateSubCode ((JObj gs) .@ "subCode") = true ->
  let id := request_id guid (mergeConfig (defaults (c_net cl)) cfg) (c_ps cl) in
  exists ps', call_method guid transport cfg handler cl =
              finish (with_ps cl ps') (handler (tagged_body id gs) (with_ps cl ps')).
Proof.
  intros (Hpre & Hpost & Ht) Hsub id. unfold call_method.
  destruct (request_accepted_body guid transport guid_truthy
                (c_state cl) (c_net cl) cfg (c_ps cl) code gs Hpre Hpost Ht Hsub) as (r & Hr & Hd).
  destruct (request _ _ _ _ _ _) as [ps' s]. simpl in Hr. subst s.
  exists ps'. unfold wrapResponse. rewrite Hd. simpl.
  rewrite fields_lookup_subCode_networkId. simpl in Hsub. by rewrite Hsub.
Qed.

(** The token a body holds survives the id tagging. *)
Lemma tagged_body_token id gs :
  js_get_path (tagged_body id gs) ["data"; "token"] = js_get_path (JObj gs) ["data"; "token"].
Proof. unfold tagged_body, js_get_path. simpl. by rewrite fields_lookup_data_networkId. Qed.

(** C27: validateBeneficiary: an accepted answer whose [data] says
    [accountExists: 'YES'] calls back [(null, data)]; any other value of
    [accountExists] calls back with the whole body as the error; and a
    [data] of [null] (which [_.get]'s default does not replace) makes
    [info.accountExists] throw, so the callback gets a [TypeError]. *)
Theorem validateBeneficiary_reply params cl code gs :
  answers cl code gs -> validateSubCode ((JObj gs) .@ "subCode") = true ->
  let id := request_id guid (mergeConfig (defaults (c_net cl)) (validateBeneficiary_config params))
                       (c_ps cl) in
  let info := js_get_or (JObj gs) ["data"] (JObj []) in
  (validateBeneficiary guid transport params cl).2 =
  if throws_on_read info then Reply js_type_error JUndef
  else if js_is_string (info .@ "accountExists") "YES" then Reply JNull info
  else Reply (tagged_body id gs) JUndef.
Proof.
  intros Hans Hsub id info. unfold validateBeneficiary.
  destruct (call_method_accepted (validateBeneficiary_config params) validateBeneficiary_handler _ _ _ Hans Hsub) as [ps' ->].
  unfold validateBeneficiary_handler.
  replace (js_get_or (tagged_body _ gs) ["data"] (JObj [])) with info
    by (unfold info, js_get_or, js_get_path, tagged_body; simpl; by rewrite fields_lookup_data_networkId).
  by destruct (throws_on_read info), (js_is_string (info .@ "accountExists") "YES").
Qed.

(** C25: the branch of [wrapResponse] that calls back with the body of
    a rejected sub-code is dead: a fulfilled request either has an
    accepted sub-code, and its handler runs, or has a falsy body, whose
    missing [subCode] makes [subCode[0]] throw. *)
Theorem wrapResponse_never_returns_body cfg handler cl r cl1 :
  (request guid transport (c_state cl) (c_net cl) cfg (c_ps cl)).2 = Fulfilled r ->
  wrapResponse handler r cl1 = handler (r .@ "data") cl1 \/
  wrapResponse handler r cl1 = inl js_type_error.
Proof.
  intros [Hok|Hf]%request_fulfilled_checked; unfold wrapResponse.
  - rewrite Hok. by left.
  - right. by rewrite (js_get_falsy _ _ Hf), validateSubCode_undef.
Qed.

(** C26: a response with a falsy body (no [data]) passes the
    interceptors, and the method calls back with the [TypeError] of
    [subCode[0]] instead of an API error. *)
Theorem call_method_falsy_body_throws cfg handler cl code b :
  (forall inv, hook_passes (preHook (c_state cl)) inv) ->
  (forall inv, hook_passes (postHook (c_state cl)) inv) ->
  (forall c a, transport (ps_sent (c_ps cl)) c a = TResp code b) ->
  truthy b = false ->
  (call_method guid transport cfg handler cl).2 = Reply js_type_error JUndef.
Proof.
  intros Hpre Hpost Ht Hb. unfold call_method.
  destruct (request_falsy_body_fulfilled guid transport guid_truthy (c_state cl) (c_net cl) cfg (c_ps cl)
              code b Hpre Hpost Ht Hb) as (r & Hr & Hd).
  destruct (request _ _ _ _ _ _) as [ps' s]. simpl in Hr. subst s.
  unfold wrapResponse. by rewrite Hd, (js_get_falsy _ _ Hb), validateSubCode_undef.
Qed.
End ClientLaws.

(** A call that failed: it left [state] and the instance unchanged and
    either never called back or called back with a truthy error. *)
Definition failed (cl cl' : client) (r : reply) : Prop :=
  c_state cl' = c_state cl /\ c_net cl' = c_net cl /\
  (r = NoReply \/ exists e v, r = Reply e v /\ truthy e = true).

Lemma failed_with_ps cl ps' e v : truthy e = true -> failed cl (with_ps cl ps') (Reply e v).
Proof. intros He. repeat split. right. by do 2 eexists. Qed.

Lemma js_get_defined_truthy v k : throws_on_read (v .@ k) = false -> truthy v = true.
Proof. by destruct v. Qed.

Section LoginSteps.
Context `{SubCodeValidator} (guid : nat -> jsval)
        (transport : nat -> jsval -> option string -> tresult).
Hypothesis guid_truthy : forall n, truthy (guid n) = true.

(** Every call either fails or is a success of its handler. *)
Lemma call_method_outcome cfg handler cl (success : client -> client * reply -> Prop) :
  (forall data cl1, c_state cl1 = c_state cl -> c_net cl1 = c_net cl ->
     (exists exn, handler data cl1 = inl exn /\ truthy exn = true) \/
     (exists res, handler data cl1 = inr res /\ (failed cl res.1 res.2 \/ success cl res))) ->
  let res := call_method guid transport cfg handler cl in
  failed cl res.1 res.2 \/ success cl res.
Proof.
  intros Hh res. subst res. unfold call_method.
  pose proof (request_rejected_truthy guid transport (c_state cl) (c_net cl) cfg (c_ps cl)) as Hrej.
  destruct (request _ _ _ _ _ _) as [ps' [r|e|]]; simpl in Hrej.
  - unfold wrapResponse.
    destruct (negb (validateSubCode _)).
    + left. destruct (throws_on_read _) eqn:E; simpl; apply failed_with_ps.
      { done. }
      eapply js_get_defined_truthy. exact E.
    + destruct (Hh (r .@ "data") (with_ps cl ps') eq_refl eq_refl)
        as [[exn [-> Hexn]]|[res [-> Hres]]]; [|done].
      left. simpl. by apply failed_with_ps.
  - left. simpl. apply failed_with_ps. by apply Hrej.
  - left. repeat split. by left.
Qed.

(** C11: a successful [authenticate] stores the token in [state] and
    makes [Bearer <token>] the default [Authorization] header. *)
Theorem authenticate_stores_token cl code gs :
  answers transport cl code gs -> validateSubCode ((JObj gs) .@ "subCode") = true ->
  truthy (js_get_path (JObj gs) ["data"; "token"]) = true ->
  let tok := js_get_path (JObj gs) ["data"; "token"] in
  (authenticate guid transport cl).2 = Reply JUndef JUndef /\
  c_state (authenticate guid transport cl).1 = set_token (c_state cl) tok /\
  authorization (c_net (authenticate guid transport cl).1) = Some ("Bearer " +:+ js_to_string tok).
Proof.
  intros Hans Hsub Htok tok. unfold authenticate.
  destruct (call_method_accepted guid transport guid_truthy (authenticate_config (c_state cl)) authenticate_handler _ _ _ Hans Hsub)
    as [ps' ->].
  unfold authenticate_handler. rewrite tagged_body_token. by rewrite Htok.
Qed.

(** C12: an accepted [authenticate] response without a token is a
    failure of the step: the callback gets ["No token returned"] and
    neither [state] nor the default header changes. *)
Theorem authenticate_without_token cl code gs :
  answers transport cl code gs -> validateSubCode ((JObj gs) .@ "subCode") = true ->
  truthy (js_get_path (JObj gs) ["data"; "token"]) = false ->
  (authenticate guid transport cl).2 = Reply (JStr "No token returned") JUndef /\
  c_state (authenticate guid transport cl).1 = c_state cl /\
  c_net (authenticate guid transport cl).1 = c_net cl.
Proof.
  intros Hans Hsub Htok. unfold authenticate.
  destruct (call_method_accepted guid transport guid_truthy (authenticate_config (c_state cl)) authenticate_handler _ _ _ Hans Hsub)
    as [ps' ->].
  unfold authenticate_handler. rewrite tagged_body_token. by rewrite Htok.
Qed.

(** C14: a successful [verifyToken] sets [state.tokenVerified] to
    [true] and calls back with no error. *)
Theorem verifyToken_marks_verified cl code gs :
  answers transport cl code gs -> validateSubCode ((JObj gs) .@ "subCode") = true ->
  (verifyToken guid transport cl).2 = Reply JUndef JUndef /\
  c_state (verifyToken guid transport cl).1 = set_token_verified (c_state cl) /\
  c_net (verifyToken guid transport cl).1 = c_net cl.
Proof.
  intros Hans Hsub. unfold verifyToken.
  by destruct (call_method_accepted guid transport guid_truthy verifyToken_config verifyToken_handler _ _ _ Hans Hsub)
    as [ps' ->].
Qed.
(** A method whose request settles calls back, when its handler always
    does. *)
Definition handler_replies (handler : jsval -> client -> handler_result) : Prop :=
  forall d cl1, match handler d cl1 with inr (_, Reply _ _) | inl _ => True | _ => False end.

Lemma call_method_replies cfg handler cl :
  (forall inv, hook_passes (preHook (c_state cl)) inv) ->
  (forall inv, hook_passes (postHook (c_state cl)) inv) ->
  (forall c a, transport (ps_sent (c_ps cl)) c a <> THang) ->
  handler_replies handler ->
  exists e v, (call_method guid transport cfg handler cl).2 = Reply e v.
Proof.
  intros Hpre Hpost Ht Hh. unfold call_method.
  pose proof (request_settles guid transport (c_state cl) (c_net cl) cfg (c_ps cl) Hpre Hpost Ht)
    as Hs.
  destruct (request _ _ _ _ _ _) as [ps' [r|e|]]; simpl in Hs |- *; [|eauto|done].
  unfold wrapResponse. destruct (negb _); [destruct (throws_on_read _); eauto|].
  specialize (Hh (r .@ "data") (with_ps cl ps')).
  destruct (handler _ _) as [exn|[cl2 []]]; eauto; done.
Qed.

(** A method whose request fails calls back with a truthy error and
    leaves the client's state alone. *)
Lemma call_method_fails cfg handler cl msg :
  (forall inv, hook_passes (preHook (c_state cl)) inv) ->
  (forall inv, hook_passes (postHook (c_state cl)) inv) ->
  (forall c a, transport (ps_sent (c_ps cl)) c a = TFail msg) ->
  exists e, truthy e = true /\ (call_method guid transport cfg handler cl).2 = Reply e JUndef /\
            c_state (call_method guid transport cfg handler cl).1 = c_state cl.
Proof.
  intros Hpre Hpost Ht. unfold call_method.
  destruct (request_fails guid transport (c_state cl) (c_net cl) cfg (c_ps cl) msg Hpre Hpost Ht)
    as [e He].
  pose proof (request_rejected_truthy guid transport (c_state cl) (c_net cl) cfg (c_ps cl) e He).
  destruct (request _ _ _ _ _ _) as [ps' s]. simpl in He. subst s. by exists e.
Qed.

(** A handler that returns the client it was given (or throws a truthy
    value) leaves [state] and the instance unchanged. *)
Definition handler_pure (handler : jsval -> client -> handler_result) : Prop :=
  forall d cl1, match handler d cl1 with inr (cl2, _) => cl2 = cl1 | inl e => truthy e = true end.

Lemma call_method_frame cfg handler cl :
  handler_pure handler ->
  c_state (call_method guid transport cfg handler cl).1 = c_state cl /\
  c_net (call_method guid transport cfg handler cl).1 = c_net cl.
Proof.
  intros Hp.
  destruct (call_method_outcome cfg handler cl
              (fun cl res => c_state res.1 = c_state cl /\ c_net res.1 = c_net cl))
    as [(Hs & Hn & _)|Hs]; [|done..].
  intros d cl1 Hs Hn. specialize (Hp d cl1).
  destruct (handler d cl1) as [e|[cl2 r]]; [left; by exists e|].
  right. eexists; split; [done|]. right. subst cl2. done.
Qed.

Lemma reply_with_pure f : handler_pure (reply_with f).
Proof. done. Qed.

Lemma validateBeneficiary_handler_pure : handler_pure validateBeneficiary_handler.
Proof.
  intros d cl1. unfold validateBeneficiary_handler.
  destruct (throws_on_read _); [done|]. by destruct (negb _).
Qed.

(** A handler that keeps the pipeline state. *)
Definition keeps_ps (handler : jsval -> client -> handler_result) : Prop :=
  forall d cl1, match handler d cl1 with inr (cl2, _) => c_ps cl2 = c_ps cl1 | inl _ => True end.

(** A handler that keeps the promise state leaves the call's effect on
    it to [network.request]. *)
Lemma call_method_ps cfg handler cl :
  keeps_ps handler ->
  c_ps (call_method guid transport cfg handler cl).1 =
  (request guid transport (c_state cl) (c_net cl) cfg (c_ps cl)).1.
Proof.
  intros Hk. unfold call_method.
  destruct (request _ _ _ _ _ _) as [ps' [r|e|]]; simpl; [|done..].
  unfold wrapResponse. destruct (negb _); [by destruct (throws_on_read _)|].
  specialize (Hk (r .@ "data") (with_ps cl ps')).
  destruct (handler _ _) as [exn|[cl2 rep]]; simpl in *; [done|]. by rewrite Hk.
Qed.

Lemma call_method_sent cfg handler cl :
  keeps_ps handler ->
  (forall inv, hook_passes (preHook (c_state cl)) inv) ->
  ps_sent (c_ps (call_method guid transport cfg handler cl).1) = S (ps_sent (c_ps cl)).
Proof. intros Hk Hpass. rewrite call_method_ps by done. by apply request_sends_one. Qed.

(** A method call hands the transport exactly its configuration, merged
    with the defaults and tagged with its id, with the client's header. *)
Lemma call_method_sends cfg handler cl :
  keeps_ps handler ->
  (forall inv, hook_passes (preHook (c_state cl)) inv) ->
  let m := mergeConfig (defaults (c_net cl)) cfg in
  exists tr, ps_trace (c_ps (call_method guid transport cfg handler cl).1) = ps_trace (c_ps cl) ++ tr /\
    sends tr = [(js_set m "networkId" (request_id guid m (c_ps cl)), authorization (c_net cl))].
Proof. intros Hk Hpass m. rewrite call_method_ps by done. by apply request_trace_sends. Qed.

Lemma authenticate_sent cl :
  (forall inv, hook_passes (preHook (c_state cl)) inv) ->
  ps_sent (c_ps (authenticate guid transport cl).1) = S (ps_sent (c_ps cl)).
Proof.
  apply call_method_sent. intros d cl1. unfold authenticate_handler. by destruct (negb _).
Qed.

Lemma verifyToken_sent cl :
  (forall inv, hook_passes (preHook (c_state cl)) inv) ->
  ps_sent (c_ps (verifyToken guid transport cl).1) = S (ps_sent (c_ps cl)).
Proof. by apply call_method_sent. Qed.

(** [authenticate] fails, or it stores a truthy token and sets the
    header and calls back with no error. *)
Lemma authenticate_outcome cl :
  let res := authenticate guid transport cl in
  failed cl res.1 res.2 \/
  exists tok, truthy tok = true /\ c_state res.1 = set_token (c_state cl) tok /\
              c_net res.1 = set_authorization (c_net cl) tok /\ res.2 = Reply JUndef JUndef.
Proof.
  unfold authenticate.
  apply (call_method_outcome _ _ cl (fun cl res =>
    exists tok, truthy tok = true /\ c_state res.1 = set_token (c_state cl) tok /\
                c_net res.1 = set_authorization (c_net cl) tok /\ res.2 = Reply JUndef JUndef)).
  intros d cl1 Hs Hn. right. unfold authenticate_handler.
  destruct (truthy (js_get_path d ["data"; "token"])) eqn:E; simpl.
  - eexists; split; [done|]. right. eexists. by rewrite Hs, Hn.
  - eexists; split; [done|]. left. repeat split; [done..|]. right. by do 2 eexists.
Qed.

(** [verifyToken] fails, or it marks the token verified and calls back
    with no error. *)
Lemma verifyToken_outcome cl :
  let res := verifyToken guid transport cl in
  failed cl res.1 res.2 \/
  (c_state res.1 = set_token_verified (c_state cl) /\ c_net res.1 = c_net cl /\
   res.2 = Reply JUndef JUndef).
Proof.
  unfold verifyToken.
  apply (call_method_outcome _ _ cl (fun cl res =>
    c_state res.1 = set_token_verified (c_state cl) /\ c_net res.1 = c_net cl /\
    res.2 = Reply JUndef JUndef)).
  intros d cl1 Hs Hn. right. unfold verifyToken_handler.
  eexists; split; [done|]. right. simpl. by rewrite Hs, Hn.
Qed.
End LoginSteps.

(** C29: [_.pick] with the source's key lists, whose entries
    ['address2 '], ['pincode '] and ['remarks '] end in a space, never
    forwards the caller's [address2], [pincode] or [remarks]: whatever
    the parameters, the request body has no such field. *)
Theorem pick_drops_spaced_keys params :
  ((addBeneficiary_config params) .@ "data") .@ "address2" = JUndef /\
  ((addBeneficiary_config params) .@ "data") .@ "pincode" = JUndef /\
  ((requestTransfer_config params) .@ "data") .@ "remarks" = JUndef.
Proof. repeat split; apply js_pick_absent; apply (bool_decide_unpack _); vm_compute; exact I. Qed.
