(* ===== verification/TestScript.v ===== *)
(** * The bookkeeping of the integration script [src/test.js]

    [test.js] runs the client against the live API; the calls and the
    [async.auto] orchestration are I/O and are not modelled.  What it
    checks about the client is modelled: both hooks are [hook(key)],
    which records [error || params] under [networkCache[data.networkId][key]]
    and calls back without error, and [verifyRequestsComplete(no)]
    passes when [networkCache] has [no] keys.  The hooks' writes happen
    during the hook calls, which the pipeline records in its trace, so
    [networkCache] is a function of the trace ([cache_of_trace]).

    [requests_complete_count] shows that after [k] calls made one after
    the other, each answered by the transport with an object body or a
    failure, the script's check [verifyRequestsComplete(k)] passes: the
    pre-hook and the post-hook of a call write under the same id, and
    two calls never share one.  [conc_requests_complete] shows the same
    for calls in flight at once ([Concurrent]), as the removals the
    script runs through [async.map] are: under every interleaving the
    cache has one key per call that has passed its request interceptor.
    [script_lifecycle_checks] shows that the status checks the script
    has commented out ([checkCashFreeStatus] around [authenticate] and
    [verifyToken]) pass. *)

From S2P Require Import Prelude JsValue Constants State Validate Promise SubCode Interceptors Network Concurrent Client.

(** [hook(key)]: [callback()] with no error, for every invocation. *)
Definition test_hook : hook := fun _ => Some JUndef.

(** The [key] each hook of the script is built with. *)
Definition hook_key (side : hook_side) : string :=
  match side with PreSide => "request" | PostSide => "response" end.

(** The state of the client the script builds (credentials from the
    environment, both hooks recording). *)
Definition test_state (id secret : jsval) : state :=
  init_state id secret (Some test_hook) (Some test_hook).

(** [_.set(networkCache, [data.networkId, key], data)] with
    [data = error || params]. *)
Definition cache_write (cache : js_fields) (side : hook_side) (inv : invocation) : js_fields :=
  let data := js_or (inv_error inv) (inv_params inv) in
  let k := js_to_string (data .@ "networkId") in
  let entry := match fields_lookup k cache with Some (JObj fs) => fs | _ => [] end in
  fields_set k (JObj (fields_set (hook_key side) data entry)) cache.

(** [networkCache] after the hook calls of a trace. *)
Definition cache_of_trace (tr : list event) : js_fields :=
  foldl (fun cache e => match e with
                        | EvHook side inv => cache_write cache side inv
                        | EvSend _ _ => cache
                        end) [] tr.

(** [verifyRequestsComplete(no)]: [_.keys(networkCache).length === no]. *)
Definition requests_complete (cache : js_fields) (no : nat) : bool :=
  Nat.eqb (length cache) no.

(** The id under which a hook call writes. *)
Definition written_key (inv : invocation) : string :=
  js_to_string ((js_or (inv_error inv) (inv_params inv)) .@ "networkId").

(** ** Keys of the cache *)

Lemma fields_set_keys k v fs :
  map fst (fields_set k v fs) =
  if decide (k ∈ map fst fs) then map fst fs else map fst fs ++ [k].
Proof.
  induction fs as [|[k' v'] fs IH]; simpl; [done|].
  destruct (String.eqb_spec k k') as [->|Hne]; simpl.
  - rewrite decide_True by apply list_elem_of_here. done.
  - rewrite IH. destruct (decide (k ∈ map fst fs)) as [Hin|Hin];
      [rewrite decide_True by (by apply list_elem_of_further)|rewrite decide_False]; try done.
    rewrite elem_of_cons. intros [?|?]; congruence.
Qed.

Lemma cache_write_keys cache side inv :
  map fst (cache_write cache side inv) =
  if decide (written_key inv ∈ map fst cache) then map fst cache
  else map fst cache ++ [written_key inv].
Proof. unfold cache_write. by rewrite fields_set_keys. Qed.

Lemma cache_of_trace_app tr tr' :
  cache_of_trace (tr ++ tr') =
  foldl (fun cache e => match e with
                        | EvHook side inv => cache_write cache side inv
                        | EvSend _ _ => cache
                        end) (cache_of_trace tr) tr'.
Proof. unfold cache_of_trace. by rewrite foldl_app. Qed.

(** [_.get(networkCache, [id, key])] after [_.set(networkCache, [id, key], data)]
    is [data]; the other hook's entry under the same id is untouched. *)
Lemma cache_write_read cache side inv :
  js_get_path (JObj (cache_write cache side inv)) [written_key inv; hook_key side] =
  js_or (inv_error inv) (inv_params inv).
Proof.
  unfold cache_write, written_key, js_get_path. simpl. rewrite fields_lookup_set_eq. simpl.
  by rewrite fields_lookup_set_eq.
Qed.

Lemma cache_write_read_other cache side side' inv :
  side <> side' ->
  js_get_path (JObj (cache_write cache side inv)) [written_key inv; hook_key side'] =
  js_get_path (JObj cache) [written_key inv; hook_key side'].
Proof.
  intros Hs. unfold cache_write, written_key, js_get_path. simpl. rewrite fields_lookup_set_eq. simpl.
  destruct side, side'; try done; simpl; rewrite fields_lookup_set_ne by done;
    by destruct (fields_lookup _ cache) as [[| | | | | |fs]|].
Qed.

(** The hooks of the script's client, whatever its token. *)
Definition script_hooks (st : state) : Prop :=
  preHook st = Some test_hook /\ postHook st = Some test_hook.

Lemma test_state_hooks id secret : script_hooks (test_state id secret).
Proof. by split. Qed.

(** ** One call of the script's client *)

Section OneCall.
Context `{SubCodeValidator} (guid : nat -> jsval)
        (transport : nat -> jsval -> option string -> tresult).
Hypothesis guid_truthy : forall n, truthy (guid n) = true.

Lemma test_hook_passes inv : hook_passes (Some test_hook) inv.
Proof. by exists JUndef. Qed.

(** The response interceptor of the script's client records the
    response body under the response's id. *)
Lemma posthook_written st r gs ps :
  postHook st = Some test_hook -> r .@ "data" = JObj gs ->
  exists inv, (postHookInterceptor st r ps).1 =
    mkPState (ps_next ps) (ps_sent ps) (ps_trace ps ++ [EvHook PostSide inv]) /\
    written_key inv = js_to_string (r .@ "networkId") /\
    js_or (inv_error inv) (inv_params inv) = JObj (fields_set "networkId" (r .@ "networkId") gs).
Proof.
  intros Hh Hd. unfold postHookInterceptor. rewrite promisify_state, Hh, Hd.
  eexists. split; [reflexivity|]. unfold written_key. simpl.
  destruct (validateSubCode _); simpl; (split; [by rewrite fields_lookup_set_eq|done]).
Qed.

(** The response-error interceptor records the error under its id. *)
Lemma posterror_written st e ps :
  postHook st = Some test_hook -> truthy e = true ->
  exists inv, (postErrorHook st e ps).1 =
    mkPState (ps_next ps) (ps_sent ps) (ps_trace ps ++ [EvHook PostSide inv]) /\
    written_key inv = js_to_string (e .@ "networkId") /\ js_or (inv_error inv) (inv_params inv) = e.
Proof.
  intros Hh He. unfold postErrorHook. rewrite promisify_state, Hh.
  eexists. split; [reflexivity|]. unfold written_key. simpl. by rewrite js_or_truthy.
Qed.

(** The request interceptor's hook call writes under the config's id. *)
Lemma pre_written fs :
  written_key (mkInvocation JUndef (JObj fs) (js_pick (JObj fs) request_param_keys)) =
  js_to_string ((JObj fs) .@ "networkId").
Proof.
  unfold written_key. cbn [inv_error inv_params]. rewrite js_or_undef, js_pick_get, decide_True; [done|].
  unfold request_param_keys. by do 5 apply list_elem_of_further; apply list_elem_of_here.
Qed.

(** The request interceptor of a call without an id of the caller's:
    it draws the next guid, the pre-hook writes under it, and the call
    goes on with it as its id. *)
Lemma test_request_stage st net cfg ps :
  script_hooks st ->
  truthy ((mergeConfig (defaults net) cfg) .@ "networkId") = false ->
  exists c inv,
    addRequestNetworkTracking guid (preHookInterceptor st)
      (mergeConfig (defaults net) cfg) ps =
    (mkPState (S (ps_next ps)) (ps_sent ps) (ps_trace ps ++ [EvHook PreSide inv]), Fulfilled c) /\
    c .@ "networkId" = guid (ps_next ps) /\ written_key inv = js_to_string (guid (ps_next ps)) /\
    js_or (inv_error inv) (inv_params inv) = js_pick c request_param_keys.
Proof.
  intros [Hpre _] Hfresh. rewrite request_stage_passes by (rewrite Hpre; apply test_hook_passes).
  rewrite Hpre.
  destruct (mergeConfig_obj (defaults net) cfg) as [fs Hm]. rewrite Hm in Hfresh |- *.
  set (c := js_set (JObj fs) "networkId" _).
  assert (Hc : c .@ "networkId" = guid (ps_next ps)).
  { subst c. rewrite js_get_set_eq. unfold request_id. by rewrite js_or_falsy. }
  rewrite Hfresh. eexists c, _. split; [reflexivity|]. split; [done|].
  split; [|done]. rewrite <- Hc. exact (pre_written _).
Qed.

(** The response interceptor of a call answered with an object body,
    and the response-error interceptor of a failed one: one write, under
    the call's id, and no guid drawn. *)
Lemma test_post_stage st c code gs ps :
  script_hooks st -> truthy (c .@ "networkId") = true ->
  exists inv,
    (addResponseNetworkTracking guid (postHookInterceptor st)
       (axios_response c code (JObj gs)) ps).1 =
    mkPState (ps_next ps) (ps_sent ps) (ps_trace ps ++ [EvHook PostSide inv]) /\
    written_key inv = js_to_string (c .@ "networkId") /\
    js_or (inv_error inv) (inv_params inv) = JObj (fields_set "networkId" (c .@ "networkId") gs).
Proof.
  intros [_ Hpost] Hct. unfold addResponseNetworkTracking. rewrite pm_bind_unfold, addNetworkTracking_run.
  rewrite response_path_id, Hct.
  match goal with |- context [postHookInterceptor ?st ?r ?ps'] =>
    destruct (posthook_written st r gs ps' Hpost) as (inv & -> & Hk & Hd); [done|] end.
  exists inv. split; [reflexivity|].
  rewrite Hk, Hd. unfold axios_response. by rewrite js_get_set_eq, js_or_truthy.
Qed.

Lemma test_error_stage st c msg ps :
  script_hooks st -> truthy (c .@ "networkId") = true ->
  exists inv,
    (addResponseNetworkTracking guid (postErrorHook st) (axios_error c msg) ps).1 =
    mkPState (ps_next ps) (ps_sent ps) (ps_trace ps ++ [EvHook PostSide inv]) /\
    written_key inv = js_to_string (c .@ "networkId") /\
    js_or (inv_error inv) (inv_params inv) = js_set (axios_error c msg) "networkId" (c .@ "networkId").
Proof.
  intros [_ Hpost] Hct. unfold addResponseNetworkTracking. rewrite pm_bind_unfold, addNetworkTracking_run.
  rewrite error_path_id, Hct.
  match goal with |- context [postErrorHook ?st ?e ?ps'] =>
    destruct (posterror_written st e ps' Hpost) as (inv & -> & Hk & Hd); [done|] end.
  exists inv. split; [reflexivity|].
  rewrite Hk, Hd. unfold axios_error. by rewrite js_get_set_eq, js_or_truthy.
Qed.

(** A call without an id of the caller's that the transport answers
    with an object body or a failure: the pre-hook and the post-hook
    each write once, both under the one fresh guid the call draws. *)
Lemma test_request_events st net cfg ps :
  script_hooks st ->
  truthy ((mergeConfig (defaults net) cfg) .@ "networkId") = false ->
  (exists code gs, forall c a, transport (ps_sent ps) c a = TResp code (JObj gs)) \/
  (exists msg, forall c a, transport (ps_sent ps) c a = TFail msg) ->
  exists inv1 c inv2,
    ps_trace (request guid transport st net cfg ps).1 =
    ps_trace ps ++ [EvHook PreSide inv1; EvSend c (authorization net); EvHook PostSide inv2] /\
    written_key inv1 = js_to_string (guid (ps_next ps)) /\
    written_key inv2 = js_to_string (guid (ps_next ps)) /\
    ps_next (request guid transport st net cfg ps).1 = S (ps_next ps).
Proof.
  intros Hh Hfresh Hans. rewrite request_unfold.
  destruct (test_request_stage st net cfg ps Hh Hfresh) as (c & inv1 & -> & Hc & Hk1 & _).
  assert (Hct : truthy (c .@ "networkId") = true) by (rewrite Hc; apply guid_truthy).
  unfold dispatchRequest. cbn [ps_sent ps_next ps_trace].
  destruct Hans as [(code & gs & Ht)|(msg & Ht)]; rewrite Ht;
    [destruct (test_post_stage st c code gs
                 (mkPState (S (ps_next ps)) (S (ps_sent ps))
                    ((ps_trace ps ++ [EvHook PreSide inv1]) ++ [EvSend c (authorization net)])) Hh Hct)
       as (inv2 & Hr & Hk2 & _)
    |destruct (test_error_stage st c msg
                 (mkPState (S (ps_next ps)) (S (ps_sent ps))
                    ((ps_trace ps ++ [EvHook PreSide inv1]) ++ [EvSend c (authorization net)])) Hh Hct)
       as (inv2 & Hr & Hk2 & _)];
    rewrite Hr; exists inv1, c, inv2; rewrite Hk2, Hc; cbn;
    (split; [by rewrite <- !app_assoc|done]).
Qed.

(** C33: what the script's hooks record can be read back.  After a call
    of the script's client without an id of the caller's, answered with
    an object body or a failure, [networkCache[id].request] is the
    [params] the pre-hook was given (the picked fields of the
    configuration sent) and [networkCache[id].response] is what the
    post-hook was given: the body or axios's error, tagged with the
    same [id], the guid the call drew. *)
Theorem cache_roundtrip id secret net cfg ps :
  truthy ((mergeConfig (defaults net) cfg) .@ "networkId") = false ->
  (exists code gs, forall c a, transport (ps_sent ps) c a = TResp code (JObj gs)) \/
  (exists msg, forall c a, transport (ps_sent ps) c a = TFail msg) ->
  let ps' := (request guid transport (test_state id secret) net cfg ps).1 in
  let k := js_to_string (guid (ps_next ps)) in
  exists c, EvSend c (authorization net) ∈ ps_trace ps' /\ c .@ "networkId" = guid (ps_next ps) /\
    js_get_path (JObj (cache_of_trace (ps_trace ps'))) [k; "request"] = js_pick c request_param_keys /\
    js_get_path (JObj (cache_of_trace (ps_trace ps'))) [k; "response"] =
      match transport (ps_sent ps) c (authorization net) with
      | TResp _ b => js_set b "networkId" (guid (ps_next ps))
      | TFail msg => js_set (axios_error c msg) "networkId" (guid (ps_next ps))
      | THang => JUndef
      end.
Proof.
  intros Hfresh Hans ps' k. subst ps'. rewrite request_unfold.
  destruct (test_request_stage (test_state id secret) net cfg ps (test_state_hooks id secret) Hfresh)
    as (c & inv1 & -> & Hc & Hk1 & Hd1).
  assert (Hct : truthy (c .@ "networkId") = true) by (rewrite Hc; apply guid_truthy).
  unfold dispatchRequest. cbn [ps_sent ps_next ps_trace]. exists c.
  set (ps2 := mkPState (S (ps_next ps)) (S (ps_sent ps))
                ((ps_trace ps ++ [EvHook PreSide inv1]) ++ [EvSend c (authorization net)])).
  destruct Hans as [(code & gs & Ht)|(msg & Ht)]; rewrite !Ht;
    [destruct (test_post_stage (test_state id secret) c code gs ps2 (test_state_hooks id secret) Hct)
       as (inv2 & Hr & Hk2 & Hd2)
    |destruct (test_error_stage (test_state id secret) c msg ps2 (test_state_hooks id secret) Hct)
       as (inv2 & Hr & Hk2 & Hd2)];
    rewrite Hr; subst ps2; cbn [ps_trace]; rewrite Hc in Hk2, Hd2;
    (split; [apply elem_of_app; left; apply elem_of_app; right; by left|]);
    (split; [done|]);
    rewrite !cache_of_trace_app; cbn [foldl]; subst k; rewrite <- Hk2;
    (split; [change "request" with (hook_key PreSide);
             rewrite cache_write_read_other by done; rewrite Hk2, <- Hk1; by rewrite cache_write_read
            |change "response" with (hook_key PostSide); by rewrite cache_write_read]).
Qed.
End OneCall.

(** ** Calls made one after the other *)

(** The calls of the script, each started when the previous one has
    settled (the [async.auto] dependencies). *)
Definition run_requests `{SubCodeValidator} (guid : nat -> jsval)
    (transport : nat -> jsval -> option string -> tresult) (st : state) (net : network)
    (cfgs : list jsval) (ps : pstate) : pstate :=
  foldl (fun ps cfg => (request guid transport st net cfg ps).1) ps cfgs.

Section Script.
Context `{SubCodeValidator} (guid : nat -> jsval)
        (transport : nat -> jsval -> option string -> tresult).
Hypothesis guid_truthy : forall n, truthy (guid n) = true.
Hypothesis guid_key_inj : Inj eq eq (fun n => js_to_string (guid n)).
Hypothesis transport_answers : forall n,
  (exists code gs, forall c a, transport n c a = TResp code (JObj gs)) \/
  (exists msg, forall c a, transport n c a = TFail msg).

Definition guid_key (n : nat) : string := js_to_string (guid n).

Lemma guid_key_fresh a n : guid_key n ∉ map guid_key (seq a (n - a)).
Proof.
  rewrite list_elem_of_In, in_map_iff. intros (i & Hi & Hin%in_seq).
  apply guid_key_inj in Hi. lia.
Qed.

(** One call of a client with the script's hooks adds the guid it
    draws to the keys of the cache, after the guids drawn before. *)
Lemma request_keys st net cfg ps a :
  script_hooks st ->
  truthy ((mergeConfig (defaults net) cfg) .@ "networkId") = false ->
  a <= ps_next ps ->
  map fst (cache_of_trace (ps_trace ps)) = map guid_key (seq a (ps_next ps - a)) ->
  ps_next (request guid transport st net cfg ps).1 = S (ps_next ps) /\
  map fst (cache_of_trace (ps_trace (request guid transport st net cfg ps).1)) =
  map guid_key (seq a (S (ps_next ps) - a)).
Proof.
  intros Hh Hfresh Ha Hk.
  destruct (test_request_events guid transport guid_truthy st net cfg ps Hh Hfresh (transport_answers _))
    as (inv1 & c & inv2 & Htr & Hk1 & Hk2 & Hn).
  split; [done|]. rewrite Htr, cache_of_trace_app. simpl.
  rewrite !cache_write_keys, Hk, Hk1, Hk2.
  change (js_to_string (guid (ps_next ps))) with (guid_key (ps_next ps)).
  rewrite (decide_False _ _ (guid_key_fresh a (ps_next ps))).
  rewrite decide_True by (apply elem_of_app; right; by left).
  replace (S (ps_next ps) - a) with (S (ps_next ps - a)) by lia.
  rewrite seq_S, map_app. f_equal. simpl. f_equal. unfold guid_key. f_equal. f_equal. lia.
Qed.

(** After the [k]-th call the cache has one key per call, the guids
    drawn so far, in order. *)
Lemma run_requests_keys id secret net cfgs ps a :
  Forall (fun cfg => truthy ((mergeConfig (defaults net) cfg) .@ "networkId") = false) cfgs ->
  a <= ps_next ps ->
  map fst (cache_of_trace (ps_trace ps)) = map guid_key (seq a (ps_next ps - a)) ->
  map fst (cache_of_trace (ps_trace (run_requests guid transport (test_state id secret) net cfgs ps))) =
  map guid_key (seq a (ps_next ps - a + length cfgs)).
Proof.
  revert ps. induction cfgs as [|cfg cfgs IH]; intros ps Hf Ha Hk; simpl.
  - by rewrite Nat.add_0_r.
  - inversion Hf as [|? ? Hfresh Hrest]; subst.
    destruct (request_keys (test_state id secret) net cfg ps a (test_state_hooks id secret) Hfresh Ha Hk)
      as [Hn Hk'].
    replace (ps_next ps - a + S (length cfgs)) with
      (ps_next (request guid transport (test_state id secret) net cfg ps).1 - a + length cfgs) by lia.
    apply IH; [done|lia|]. by rewrite Hn.
Qed.

(** C30: the script's own check holds.  Started with an empty
    [networkCache], after [k] calls made one after the other with the
    script's recording hooks, none carrying an id of the caller's and
    each answered with an object body or a failure, the cache has
    exactly [k] keys: [verifyRequestsComplete(k)] passes, because the
    two hooks of a call write under the same id and no two calls share
    one. *)
Theorem requests_complete_count id secret net cfgs n0 s0 :
  Forall (fun cfg => truthy ((mergeConfig (defaults net) cfg) .@ "networkId") = false) cfgs ->
  requests_complete
    (cache_of_trace (ps_trace (run_requests guid transport (test_state id secret) net cfgs
                                 (mkPState n0 s0 []))))
    (length cfgs) = true.
Proof.
  intros Hf. unfold requests_complete. apply Nat.eqb_eq.
  rewrite <- (length_map fst), (run_requests_keys id secret net cfgs _ n0 Hf); simpl; [|lia|].
  - by rewrite length_map, length_seq, Nat.sub_diag.
  - by rewrite Nat.sub_diag.
Qed.
End Script.

(** ** Calls in flight at the same time

    The removals of [removeBeneficiaries] run through [async.map], all
    at once.  [started_count] counts the calls that have passed their
    request interceptor: each of them has drawn its guid and written it
    in [networkCache]. *)

Definition started (p : phase) : bool :=
  match p with PStart _ => false | _ => true end.

Definition started_count (l : list phase) : nat := length (List.filter started l).

Lemma started_count_insert l i p q :
  l !! i = Some p ->
  started_count (<[i := q]> l) + Nat.b2n (started p) = started_count l + Nat.b2n (started q).
Proof.
  unfold started_count. revert i. induction l as [|x l IH]; intros [|i] Hi; simplify_eq/=.
  - destruct (started p), (started q); simpl; lia.
  - specialize (IH i Hi). destruct (started x); simpl; lia.
Qed.

Lemma started_count_all l : Forall (fun p => started p = true) l -> started_count l = length l.
Proof. unfold started_count. induction 1 as [|p l Hp _ IH]; simpl; [done|]. by rewrite Hp; simpl; rewrite IH. Qed.

Lemma started_count_start l : started_count (map PStart l) = 0.
Proof. unfold started_count. by induction l. Qed.

Section ScriptConc.
Context `{SubCodeValidator} (guid : nat -> jsval)
        (transport : nat -> jsval -> option string -> tresult)
        (id secret : jsval) (net : network).
Hypothesis guid_truthy : forall n, truthy (guid n) = true.
Hypothesis guid_key_inj : Inj eq eq (fun n => js_to_string (guid n)).
Hypothesis transport_answers : forall n,
  (exists code gs, forall c a, transport n c a = TResp code (JObj gs)) \/
  (exists msg, forall c a, transport n c a = TFail msg).

(** A call's id is a guid drawn since the run began. *)
Definition drawn (n0 n : nat) (c : jsval) : Prop :=
  exists k, n0 <= k < n /\ c .@ "networkId" = guid k.

(** What each stage of a call of the script's client looks like. *)
Definition script_phase (n0 n : nat) (p : phase) : Prop :=
  match p with
  | PStart cfg => fresh_cfg net cfg
  | PSendable c | PWaiting c _ | PDone (Some c) _ => drawn n0 n c
  | PArrived (Some c) s =>
      drawn n0 n c /\
      ((exists code gs, s = Fulfilled (axios_response c code (JObj gs))) \/
       (exists msg, s = Rejected (axios_error c msg)))
  | _ => False
  end.

(** The keys of the cache are the guids drawn since [n0], one per call
    started. *)
Definition script_inv (n0 : nat) (C : conc) : Prop :=
  n0 <= ps_next (cc_ps C) /\
  map fst (cache_of_trace (ps_trace (cc_ps C))) =
    map (guid_key guid) (seq n0 (ps_next (cc_ps C) - n0)) /\
  ps_next (cc_ps C) - n0 = started_count (cc_reqs C) /\
  Forall (script_phase n0 (ps_next (cc_ps C))) (cc_reqs C).

Lemma script_phase_mono n0 n n' p : n <= n' -> script_phase n0 n p -> script_phase n0 n' p.
Proof.
  intros Hn. assert (Hd : forall c, drawn n0 n c -> drawn n0 n' c)
    by (intros c (k & ? & ?); exists k; split; [lia|done]).
  destruct p as [cfg|c|c k|[c|] s|[c|] s|]; simpl; naive_solver.
Qed.

Lemma drawn_key n0 n c : drawn n0 n c ->
  js_to_string (c .@ "networkId") ∈ map (guid_key guid) (seq n0 (n - n0)).
Proof.
  intros (k & Hk & ->). apply list_elem_of_In, in_map_iff. exists k.
  split; [done|]. apply in_seq. lia.
Qed.

Lemma drawn_truthy n0 n c : drawn n0 n c -> truthy (c .@ "networkId") = true.
Proof. intros (k & _ & ->). apply guid_truthy. Qed.

(** A write under a key the cache has leaves its keys as they are. *)
Lemma cache_write_drawn cache side inv n0 n c :
  map fst cache = map (guid_key guid) (seq n0 (n - n0)) ->
  drawn n0 n c -> written_key inv = js_to_string (c .@ "networkId") ->
  map fst (cache_write cache side inv) = map (guid_key guid) (seq n0 (n - n0)).
Proof.
  intros Hk Hd Hw. rewrite cache_write_keys, Hk, Hw, decide_True; [done|]. by eapply drawn_key.
Qed.

(** One stage of one call of the script's client: only the request
    interceptor draws a guid, and it adds it to the cache; the other
    stages leave the keys as they are. *)
Lemma script_advance n0 p m ps :
  advance guid transport (test_state id secret) net p = Some m ->
  n0 <= ps_next ps ->
  map fst (cache_of_trace (ps_trace ps)) = map (guid_key guid) (seq n0 (ps_next ps - n0)) ->
  script_phase n0 (ps_next ps) p ->
  ps_next (m ps).1 = ps_next ps + (1 - Nat.b2n (started p)) /\
  map fst (cache_of_trace (ps_trace (m ps).1)) = map (guid_key guid) (seq n0 (ps_next (m ps).1 - n0)) /\
  script_phase n0 (ps_next (m ps).1) (m ps).2 /\ started (m ps).2 = true.
Proof.
  intros Hm Hn0 Hk Hp. destruct p as [cfg|c|c k|[c|] s|[c|] s|]; simpl in Hm, Hp; try done.
  - injection Hm as <-. rewrite pm_bind_unfold.
    destruct (test_request_stage guid (test_state id secret) net cfg ps (test_state_hooks id secret) Hp)
      as (c & inv & -> & Hc & Hw & _).
    cbn [fst snd ps_next ps_trace started script_phase]. rewrite pm_ret_unfold. cbn [fst snd ps_next ps_trace].
    split; [simpl; lia|]. split; [|split; [exists (ps_next ps); split; [lia|done]|done]].
    rewrite cache_of_trace_app. cbn [foldl]. rewrite cache_write_keys, Hk, Hw.
    change (js_to_string (guid (ps_next ps))) with (guid_key guid (ps_next ps)).
    rewrite (decide_False _ _ (guid_key_fresh guid guid_key_inj n0 (ps_next ps))).
    replace (S (ps_next ps) - n0) with (S (ps_next ps - n0)) by lia.
    rewrite seq_S, map_app. f_equal. simpl. f_equal. unfold guid_key. do 2 f_equal. lia.
  - injection Hm as <-. cbn. split; [lia|]. split; [|done].
    rewrite cache_of_trace_app. by cbn [foldl].
  - destruct (transport_answers k) as [(code & gs & Ht)|(msg & Ht)]; rewrite Ht in Hm;
      injection Hm as <-; cbn; (split; [lia|]); (split; [done|]); (split; [|done]);
      (split; [done|]); [left|right]; eauto.
  - destruct Hp as [Hd [(code & gs & ->)|(msg & ->)]]; injection Hm as <-; rewrite pm_bind_unfold;
      [destruct (test_post_stage guid (test_state id secret) c code gs ps (test_state_hooks id secret)
                   (drawn_truthy _ _ _ Hd)) as (inv & Hr & Hw & _)
      |destruct (test_error_stage guid (test_state id secret) c msg ps (test_state_hooks id secret)
                   (drawn_truthy _ _ _ Hd)) as (inv & Hr & Hw & _)];
      destruct (addResponseNetworkTracking _ _ _ ps) as [ps' r]; cbn in Hr; subst ps'; cbn;
      (split; [lia|]); (split; [|done]);
      rewrite cache_of_trace_app; cbn [foldl]; by eapply cache_write_drawn.
Qed.

Lemma script_step n0 C C' :
  conc_step guid transport (test_state id secret) net C C' -> script_inv n0 C -> script_inv n0 C'.
Proof.
  intros [C0 i p m Hi Hm] (Hn0 & Hk & Hc & Hf). unfold script_inv. cbn [cc_ps cc_reqs].
  pose proof (Forall_lookup_1 _ _ _ _ Hf Hi) as Hp.
  destruct (script_advance n0 p m (cc_ps C0) Hm Hn0 Hk Hp) as (Hn & Hk' & Hq & Hs).
  pose proof (started_count_insert (cc_reqs C0) i p (m (cc_ps C0)).2 Hi) as Hcount.
  rewrite Hs in Hcount. split; [lia|]. split; [done|]. split.
  - destruct (started p); simpl in *; lia.
  - apply Forall_insert; [|done]. eapply Forall_impl; [exact Hf|].
    intros q. apply script_phase_mono. lia.
Qed.

Lemma script_reach n0 C C' :
  rtc (conc_step guid transport (test_state id secret) net) C C' -> script_inv n0 C -> script_inv n0 C'.
Proof. induction 1 as [|x y z Hxy _ IH]; [done|]. intros Hx. by eapply IH, script_step. Qed.

Lemma conc_reach_length C C' :
  rtc (conc_step guid transport (test_state id secret) net) C C' ->
  length (cc_reqs C') = length (cc_reqs C).
Proof. induction 1 as [|x y z [C0 i p m] _ IH]; [done|]. rewrite IH. apply length_insert. Qed.

(** C31: the script's count under concurrency.  Whatever the
    interleaving of the stages of calls made at once from an empty
    [networkCache] (the removals [async.map] runs in parallel), the
    cache has one key per call that has passed its request interceptor,
    and once every call has, [verifyRequestsComplete] passes with the
    number of calls: two calls in flight never write under the same id,
    and the post-hook of a call writes under the id its pre-hook used.
    The transport answers with object bodies or failures (the section's
    hypothesis): the post-hook of a call answered with a string body
    would write under the key ["undefined"]. *)
Theorem conc_requests_complete cfgs n0 s0 C :
  Forall (fresh_cfg net) cfgs ->
  rtc (conc_step guid transport (test_state id secret) net) (mkConc (mkPState n0 s0 []) (map PStart cfgs)) C ->
  length (cache_of_trace (ps_trace (cc_ps C))) = started_count (cc_reqs C) /\
  (Forall (fun p => started p = true) (cc_reqs C) ->
   requests_complete (cache_of_trace (ps_trace (cc_ps C))) (length cfgs) = true).
Proof.
  intros Hf Hr. pose proof (conc_reach_length _ _ Hr) as Hlen. cbn [cc_reqs] in Hlen. rewrite length_map in Hlen.
  apply (script_reach n0) in Hr as (_ & Hk & Hc & _).
  - assert (Hn : length (cache_of_trace (ps_trace (cc_ps C))) = started_count (cc_reqs C))
      by (rewrite <- (length_map fst), Hk, length_map, length_seq; done).
    split; [done|]. intros Hall. unfold requests_complete. apply Nat.eqb_eq.
    rewrite Hn, <- Hlen. by apply started_count_all.
  - split; [simpl; lia|]. split; [by rewrite Nat.sub_diag|]. split.
    + cbn [cc_ps cc_reqs ps_next]. by rewrite Nat.sub_diag, started_count_start.
    + by apply Forall_fmap.
Qed.
End ScriptConc.

(** ** The lifecycle checks *)

(** [!==] on the values compared here: primitives compare by value;
    objects compare by reference, and two object values are taken as
    distinct ([validate] only returns strings). *)
Definition js_strict_eq (a b : jsval) : bool :=
  match a, b with
  | JUndef, JUndef | JNull, JNull => true
  | JBool x, JBool y => Bool.eqb x y
  | JNum x, JNum y => Z.eqb x y
  | JStr x, JStr y => String.eqb x y
  | _, _ => false
  end.

(** [getStatusMessage({status1, status2}, callback)]: the value it calls
    back with. *)
Definition getStatusMessage (status1 status2 : jsval) : jsval :=
  if negb (js_strict_eq status1 status2)
  then JStr ("Status should've been " +:+ js_to_string status2 +:+
             " but found " +:+ js_to_string status1 +:+ ".")
  else JNull.

(** [checkCashFreeStatus(cashFree, status)]: [cashFree.validate()]
    against [status]. *)
Definition checkCashFreeStatus (cl : client) (status : jsval) : jsval :=
  match (validate_method cl).2 with
  | Returned v => getStatusMessage v status
  | _ => JUndef
  end.

Lemma checkCashFreeStatus_status cl t :
  validate (Some (c_state cl)) = JStr (status_name t) ->
  checkCashFreeStatus cl (STATUS .@ (status_name t)) = JNull.
Proof.
  intros Hv. unfold checkCashFreeStatus, validate_method. cbn [snd]. rewrite Hv.
  unfold getStatusMessage. destruct t; reflexivity.
Qed.

Section Lifecycle.
Context `{SubCodeValidator} (guid : nat -> jsval)
        (transport : nat -> jsval -> option string -> tresult).
Hypothesis guid_truthy : forall n, truthy (guid n) = true.

Lemma test_client_answers id secret tok net ps code gs :
  (forall n c a, transport n c a = TResp code (JObj gs)) ->
  answers transport (mkClient (set_token (test_state id secret) tok) net ps) code gs /\
  answers transport (mkClient (test_state id secret) net ps) code gs.
Proof. intros Ht. split; (split; [apply test_hook_passes|split; [apply test_hook_passes|apply Ht]]). Qed.

(** C32: the lifecycle checks the script has commented out would pass.
    For the script's client with truthy credentials, and a provider
    that accepts every request and returns a token, [checkCashFreeStatus]
    calls back [null] with [UNAUTHENTICATED] before [authenticate], with
    [AUTHENTICATED] after it and with [TOKEN_VERIFIED] after
    [verifyToken]. *)
Theorem script_lifecycle_checks id secret net ps code gs :
  truthy id = true -> truthy secret = true ->
  (forall n c a, transport n c a = TResp code (JObj gs)) ->
  validateSubCode ((JObj gs) .@ "subCode") = true ->
  truthy (js_get_path (JObj gs) ["data"; "token"]) = true ->
  let cl := mkClient (test_state id secret) net ps in
  let cl1 := (authenticate guid transport cl).1 in
  checkCashFreeStatus cl (STATUS .@ "UNAUTHENTICATED") = JNull /\
  checkCashFreeStatus cl1 (STATUS .@ "AUTHENTICATED") = JNull /\
  checkCashFreeStatus (verifyToken guid transport cl1).1 (STATUS .@ "TOKEN_VERIFIED") = JNull.
Proof.
  intros Hid Hsec Ht Hsub Htok cl cl1.
  set (tok := js_get_path (JObj gs) ["data"; "token"]) in Htok.
  destruct (call_method_accepted guid transport guid_truthy (authenticate_config (c_state cl))
              authenticate_handler cl code gs (proj2 (test_client_answers id secret tok net ps _ _ Ht)) Hsub)
    as [ps1 Ha].
  assert (Hcl1 : cl1 = mkClient (set_token (test_state id secret) tok) (set_authorization net tok) ps1).
  { subst cl1. unfold authenticate. rewrite Ha. unfold authenticate_handler.
    rewrite tagged_body_token. fold tok. by rewrite Htok. }
  destruct (call_method_accepted guid transport guid_truthy verifyToken_config verifyToken_handler
              cl1 code gs ltac:(rewrite Hcl1; apply (test_client_answers id secret tok (set_authorization net tok) ps1 _ _ Ht)) Hsub)
    as [ps2 Hv].
  split; [|split].
  - apply (checkCashFreeStatus_status _ UNAUTHENTICATED). unfold validate. simpl. by rewrite Hid, Hsec.
  - rewrite Hcl1. apply (checkCashFreeStatus_status _ AUTHENTICATED).
    unfold validate. simpl. by rewrite Hid, Hsec, Htok.
  - unfold verifyToken. rewrite Hv. apply (checkCashFreeStatus_status _ TOKEN_VERIFIED).
    rewrite Hcl1. unfold validate. simpl. by rewrite Hid, Hsec, Htok.
Qed.
End Lifecycle.
