(* ===== verification/Backoff.v ===== *)
(** * The retry delay of the login loop

    On a failed login cycle [lib/index.js] (line 153) schedules the next
    one with
    [setTimeout(..., parseInt(Math.pow(2, timeout) * 500))].
    The delay goes through three JavaScript conversions, each modelled:
    - [Math.pow(2, t) * 500] is an IEEE double.  [500 * 2^t] is
      [125 * 2^(t+2)] with [125 < 2^53], so the product is exact while it
      is finite, that is for [t <= 1015]; from [t = 1016] it is
      [Infinity] ([js_pow2_500]).
    - [parseInt] converts its argument to a string first: an integer
      below [10^21] prints in plain digits and parses back unchanged; a
      larger one prints in exponent form ["d.ddd...e+N"] and parses as
      its leading digit; [Infinity] parses as [NaN] ([js_parseInt]).
      The leading digit is taken of the exact value; the printed
      shortest form can round up to the next digit, which keeps it
      between 1 and 9, all the theorems below need.
    - Node's [setTimeout] replaces a delay outside [1 .. 2^31 - 1]
      (or [NaN]) by 1 ms ([node_delay]). *)

From S2P Require Import Prelude.
From Equations Require Import Equations.

Local Open Scope Z_scope.

Inductive jsnum := NumInt (z : Z) | NumInf | NumNaN.

(** [TIMEOUT_MAX] of Node's timers. *)
Definition TIMEOUT_MAX : Z := 2 ^ 31 - 1.

(** [Math.pow(2, t) * 500] for an integer [t >= 0]. *)
Definition js_pow2_500 (t : Z) : jsnum :=
  if t <=? 1015 then NumInt (2 ^ t * 500) else NumInf.

(** The first decimal digit of a positive integer. *)
Equations? leading_digit (x : Z) : Z by wf (Z.to_nat x) lt :=
  leading_digit x with Z_lt_ge_dec x 10 => {
    | left _ := x;
    | right _ := leading_digit (x / 10) }.
Proof.
  assert (0 <= x / 10 < x) by (split; [apply Z.div_pos | apply Z.div_lt]; lia).
  apply Z2Nat.inj_lt; lia.
Qed.

(** [parseInt(String(n))] *)
Definition js_parseInt (n : jsnum) : jsnum :=
  match n with
  | NumInt z => if z <? 10 ^ 21 then NumInt z else NumInt (leading_digit z)
  | NumInf | NumNaN => NumNaN
  end.

(** The delay Node applies for a requested delay. *)
Definition node_delay (n : jsnum) : Z :=
  match n with
  | NumInt z => if (1 <=? z) && (z <=? TIMEOUT_MAX) then z else 1
  | NumInf | NumNaN => 1
  end.

(** The delay requested after the cycle run with [timeout = t]. *)
Definition backoff_request (t : Z) : jsnum := js_parseInt (js_pow2_500 t).

(** The delay actually waited. *)
Definition backoff_delay (t : Z) : Z := node_delay (backoff_request t).

(** ** Laws *)

Lemma leading_digit_range x : 1 <= x -> 1 <= leading_digit x <= 9.
Proof.
  funelim (leading_digit x); intros Hx; [lia|].
  match goal with IH : 1 <= x / 10 -> _ |- _ => apply IH end.
  apply Z.div_le_lower_bound; lia.
Qed.

Lemma pow2_bounds t : 0 <= t -> 1 <= 2 ^ t.
Proof. intros Ht. pose proof (Z.pow_pos_nonneg 2 t ltac:(lia) Ht). lia. Qed.

Lemma pow2_mono t u : 0 <= t <= u -> 2 ^ t <= 2 ^ u.
Proof. intros Ht. apply Z.pow_le_mono_r; lia. Qed.

Lemma backoff_constants :
  2 ^ 22 = 4194304 /\ 2 ^ 23 = 8388608 /\ TIMEOUT_MAX = 2147483647 /\
  10 ^ 21 = 1000000000000000000000.
Proof. repeat split; reflexivity. Qed.

Ltac backoff_arith :=
  pose proof backoff_constants as (? & ? & ? & ?); lia.

(** Node's clamp leaves a delay in range alone and maps the rest to 1. *)
Lemma node_delay_int z : 1 <= z <= TIMEOUT_MAX -> node_delay (NumInt z) = z.
Proof.
  intros Hz. simpl. destruct (Z.leb_spec 1 z); [|lia].
  destruct (Z.leb_spec z TIMEOUT_MAX); simpl; lia.
Qed.

Lemma node_delay_over z : TIMEOUT_MAX < z -> node_delay (NumInt z) = 1.
Proof.
  intros Hz. simpl. rewrite (proj2 (Z.leb_gt z TIMEOUT_MAX)) by lia.
  by rewrite andb_false_r.
Qed.

Lemma node_delay_range n : 1 <= node_delay n <= TIMEOUT_MAX.
Proof.
  destruct n as [z| |]; simpl; try backoff_arith.
  destruct (Z.leb_spec 1 z), (Z.leb_spec z TIMEOUT_MAX); simpl; backoff_arith.
Qed.

Lemma js_pow2_500_small t : t <= 1015 -> js_pow2_500 t = NumInt (2 ^ t * 500).
Proof. intros Ht. unfold js_pow2_500. by rewrite (proj2 (Z.leb_le t 1015)). Qed.

(** For the first 22 cycles the delay is [500 * 2^t] ms. *)
Lemma backoff_delay_exact t : 0 <= t <= 22 -> backoff_delay t = 500 * 2 ^ t.
Proof.
  intros Ht. pose proof (pow2_mono t 22 ltac:(lia)). pose proof (pow2_bounds t ltac:(lia)).
  unfold backoff_delay, backoff_request. rewrite js_pow2_500_small by lia.
  simpl js_parseInt. rewrite (proj2 (Z.ltb_lt _ _)) by backoff_arith.
  rewrite node_delay_int by backoff_arith. lia.
Qed.

(** C23: the retry delay starts at 1000 ms after the first failed
    cycle ([timeout = 1]) and doubles after each of the following ones,
    up to the cycle run with [timeout = 22]. *)
Theorem backoff_delay_doubles t :
  1 <= t <= 21 -> backoff_delay 1 = 1000 /\ backoff_delay (t + 1) = 2 * backoff_delay t.
Proof.
  intros Ht. rewrite !backoff_delay_exact by lia. split; [done|].
  rewrite Z.pow_add_r by lia. lia.
Qed.

(** C24: from the cycle run with [timeout = 23] on, the requested delay
    exceeds Node's timer range or degenerates to a digit or [NaN], and
    the loop retries after at most 9 ms. *)
Theorem backoff_delay_collapses t : 23 <= t -> 1 <= backoff_delay t <= 9.
Proof.
  intros Ht. unfold backoff_delay, backoff_request, js_pow2_500.
  destruct (t <=? 1015) eqn:E; simpl; [|lia].
  pose proof (pow2_mono 23 t ltac:(lia)).
  destruct (2 ^ t * 500 <? 10 ^ 21) eqn:E2.
  - rewrite node_delay_over by backoff_arith. lia.
  - pose proof (leading_digit_range (2 ^ t * 500) ltac:(backoff_arith)).
    rewrite node_delay_int by backoff_arith. lia.
Qed.
