(* ===== verification/Auth.v ===== *)
(** * The login loop of [lib/index.js] (lines 147-159)

    [resolution(counter)] runs [async.series([authenticate, verifyToken])];
    the final callback computes [timeout = counter || 1] and, on an error,
    schedules [resolution(timeout + 1)] after [parseInt(Math.pow(2,
    timeout) * 500)] ms, otherwise calls [resolve()], which releases the
    buffered methods.  The constructor starts it with [resolution()].
    - [login_series] is the [async.series] call: the second step runs
      only when the first called back without an error; a step that never
      calls back stalls the series;
    - [resolution] is one cycle with the final callback's decision;
    - [loop_step] is the loop as a transition relation over
      [loop_state]: running with a counter and the elapsed time, ready,
      or stalled forever; [run_loop] computes it with fuel. *)

From S2P Require Import Prelude JsValue Constants State Validate Promise SubCode Interceptors Network Client Backoff.

Inductive series_result := SeriesOk | SeriesFailed (err : jsval) | SeriesStalled.

Inductive loop_decision := Resolve | Retry (next : Z) (delay : Z) | Stall.

Inductive loop_state :=
| LRunning (counter : option Z) (cl : client) (clock : Z)
| LReady (cl : client) (clock : Z)
| LStalled (cl : client).

(** [counter || 1] for a counter that is [undefined] or a number. *)
Definition timeout_of (counter : option Z) : Z :=
  match counter with
  | Some z => if Z.eqb z 0 then 1 else z
  | None => 1
  end.

Section Loop.
Context `{SubCodeValidator} (guid : nat -> jsval)
        (transport : nat -> jsval -> option string -> tresult).

(** [async.series([methods.authenticate, methods.verifyToken], final)] *)
Definition login_series (cl : client) : client * series_result :=
  let '(cl1, r1) := authenticate guid transport cl in
  match r1 with
  | Reply e1 _ =>
      if truthy e1 then (cl1, SeriesFailed e1)
      else
        let '(cl2, r2) := verifyToken guid transport cl1 in
        match r2 with
        | Reply e2 _ => if truthy e2 then (cl2, SeriesFailed e2) else (cl2, SeriesOk)
        | _ => (cl2, SeriesStalled)
        end
  | _ => (cl1, SeriesStalled)
  end.

(** [resolution(counter)]: one cycle and the final callback's decision. *)
Definition resolution (counter : option Z) (cl : client) : client * loop_decision :=
  let '(cl', res) := login_series cl in
  let timeout := timeout_of counter in
  match res with
  | SeriesFailed _ => (cl', Retry (timeout + 1) (backoff_delay timeout))
  | SeriesOk => (cl', Resolve)
  | SeriesStalled => (cl', Stall)
  end.

Inductive loop_step : loop_state -> loop_state -> Prop :=
| step_retry counter cl clock cl' next delay :
    resolution counter cl = (cl', Retry next delay) ->
    loop_step (LRunning counter cl clock) (LRunning (Some next) cl' (clock + delay))
| step_resolve counter cl clock cl' :
    resolution counter cl = (cl', Resolve) ->
    loop_step (LRunning counter cl clock) (LReady cl' clock)
| step_stall counter cl clock cl' :
    resolution counter cl = (cl', Stall) ->
    loop_step (LRunning counter cl clock) (LStalled cl').

Definition loop_next (s : loop_state) : loop_state :=
  match s with
  | LRunning counter cl clock =>
      match resolution counter cl with
      | (cl', Retry next delay) => LRunning (Some next) cl' (clock + delay)
      | (cl', Resolve) => LReady cl' clock
      | (cl', Stall) => LStalled cl'
      end
  | s => s
  end.

(** [fuel] cycles of the loop. *)
Fixpoint run_loop (fuel : nat) (s : loop_state) : loop_state :=
  match fuel with
  | O => s
  | S f => run_loop f (loop_next s)
  end.
End Loop.

(** The loop started by the constructor: [resolution()] at time 0. *)
Definition loop_init (cl : client) : loop_state := LRunning None cl 0.

Section Runner.
Context `{SubCodeValidator} (guid : nat -> jsval)
        (transport : nat -> jsval -> option string -> tresult).

Lemma loop_step_next s s' : loop_step guid transport s s' -> s' = loop_next guid transport s.
Proof. intros Hs. inversion Hs; subst; simpl; by match goal with E : _ = _ |- _ => rewrite E end. Qed.

Lemma loop_next_step s :
  loop_step guid transport s (loop_next guid transport s) \/ loop_next guid transport s = s.
Proof.
  destruct s as [counter cl clock| |]; simpl; [|by right..]. left.
  destruct (resolution guid transport counter cl) as [cl' [| |]] eqn:E; by constructor.
Qed.

(** The fuelled runner computes the loop: the states reachable by
    [loop_step] are exactly those [run_loop] returns for some fuel. *)
Theorem run_loop_exact s s' :
  rtc (loop_step guid transport) s s' <-> exists n, run_loop guid transport n s = s'.
Proof.
  split.
  - induction 1 as [x|x y z Hxy _ [n IH]]; [by exists 0|].
    exists (S n). simpl. by rewrite <- (loop_step_next _ _ Hxy).
  - intros [n <-]. revert s. induction n as [|n IH]; intros s; [apply rtc_refl|]. simpl.
    destruct (loop_next_step s) as [Hs|Hs]; [eapply rtc_l; [exact Hs|apply IH]|].
    rewrite Hs. apply IH.
Qed.
End Runner.

(** The lifecycle invariant of the specification: a verified token is
    present. *)
Definition state_wf (s : state) : Prop :=
  truthy (tokenVerified s) = true -> truthy (token s) = true.

(** What a login cycle may do to [state]. *)
Definition cycle_effect (s s' : state) (ok : bool) : Prop :=
  (s' = s /\ ok = false) \/
  (exists tok, truthy tok = true /\ s' = set_token s tok /\ ok = false) \/
  (exists tok, truthy tok = true /\ s' = set_token_verified (set_token s tok) /\ ok = true).

Definition series_ok (r : series_result) : bool :=
  match r with SeriesOk => true | _ => false end.

Section LoopLaws.
Context `{SubCodeValidator} (guid : nat -> jsval)
        (transport : nat -> jsval -> option string -> tresult).

Lemma login_series_cases cl :
  cycle_effect (c_state cl) (c_state (login_series guid transport cl).1)
               (series_ok (login_series guid transport cl).2).
Proof.
  unfold login_series.
  destruct (authenticate_outcome guid transport cl) as [(Hs & _ & Hr)|(tok & Ht & Hs & _ & Hr)];
    destruct (authenticate guid transport cl) as [cl1 r1]; simpl in *.
  - destruct Hr as [->|(e & v & -> & He)]; simpl; [by left|]. rewrite He. by left.
  - subst r1. simpl.
    destruct (verifyToken_outcome guid transport cl1) as [(Hs2 & _ & Hr2)|(Hs2 & _ & Hr2)];
      destruct (verifyToken guid transport cl1) as [cl2 r2]; simpl in *; right.
    + left. exists tok.
      destruct Hr2 as [->|(e & v & -> & He)]; simpl; [|rewrite He]; simpl; by rewrite Hs2, Hs.
    + right. exists tok. subst r2. simpl. by rewrite Hs2, Hs.
Qed.

(** A cycle keeps the credentials and the hooks. *)
Lemma cycle_effect_frame s s' ok :
  cycle_effect s s' ok ->
  clientId s' = clientId s /\ clientSecret s' = clientSecret s /\
  preHook s' = preHook s /\ postHook s' = postHook s.
Proof. by intros [[-> _]|[(tok & _ & -> & _)|(tok & _ & -> & _)]]. Qed.

Lemma cycle_effect_wf s s' ok : state_wf s -> cycle_effect s s' ok -> state_wf s'.
Proof.
  unfold state_wf. intros Hwf [[-> _]|[(tok & Ht & -> & _)|(tok & Ht & -> & _)]]; simpl; auto.
Qed.

(** A successful cycle leaves [Bearer <token>] as the default header. *)
Lemma login_series_ok_header cl :
  series_ok (login_series guid transport cl).2 = true ->
  authorization (c_net (login_series guid transport cl).1) =
  Some ("Bearer " +:+ js_to_string (token (c_state (login_series guid transport cl).1))).
Proof.
  unfold login_series.
  destruct (authenticate_outcome guid transport cl) as [(Hs & _ & Hr)|(tok & Ht & Hs & Hn & Hr)];
    destruct (authenticate guid transport cl) as [cl1 r1]; simpl in *.
  - destruct Hr as [->|(e & v & -> & He)]; simpl; [done|]. by rewrite He.
  - subst r1. simpl.
    destruct (verifyToken_outcome guid transport cl1) as [(Hs2 & Hn2 & Hr2)|(Hs2 & Hn2 & Hr2)];
      destruct (verifyToken guid transport cl1) as [cl2 r2]; simpl in *.
    + destruct Hr2 as [->|(e & v & -> & He)]; simpl; [done|]. by rewrite He.
    + subst r2. simpl. intros _. by rewrite Hn2, Hs2, Hn, Hs.
Qed.

Lemma resolution_state counter cl :
  (resolution guid transport counter cl).1 = (login_series guid transport cl).1.
Proof. unfold resolution. by destruct (login_series _ _ _) as [? []]. Qed.

Lemma resolution_resolve counter cl cl' :
  resolution guid transport counter cl = (cl', Resolve) ->
  login_series guid transport cl = (cl', SeriesOk).
Proof. unfold resolution. by destruct (login_series _ _ _) as [? []]; intros [= ->]. Qed.
End LoopLaws.

Definition loop_client (s : loop_state) : client :=
  match s with LRunning _ cl _ | LReady cl _ | LStalled cl => cl end.

(** The invariant of the loop started on a client whose state is [s0]:
    credentials and hooks are those of [s0], a verified token is
    present, and a ready loop holds a verified token. *)
Definition loop_inv (s0 : state) (s : loop_state) : Prop :=
  let st := c_state (loop_client s) in
  clientId st = clientId s0 /\ clientSecret st = clientSecret s0 /\
  preHook st = preHook s0 /\ postHook st = postHook s0 /\ state_wf st /\
  match s with
  | LReady cl _ => truthy (token (c_state cl)) = true /\ tokenVerified (c_state cl) = JBool true
  | _ => True
  end.

(** The order of the lifecycle statuses. *)
Definition status_rank (t : status) : nat :=
  match t with
  | UNINITIALIZED => 0 | UNAUTHENTICATED => 1 | AUTHENTICATED => 2 | TOKEN_VERIFIED => 3
  end.

(** A cycle never moves the state back in the lifecycle. *)
Lemma cycle_effect_status s s' ok :
  cycle_effect s s' ok -> status_rank (status_of s) <= status_rank (status_of s').
Proof.
  intros [[-> _]|[(tok & Ht & -> & _)|(tok & Ht & -> & _)]]; [done|..];
    unfold status_of, classify; simpl; rewrite Ht;
    destruct (truthy (clientId s) && truthy (clientSecret s)), (truthy (token s)),
             (truthy (tokenVerified s)); simpl; lia.
Qed.

Section LoopInvariant.
Context `{SubCodeValidator} (guid : nat -> jsval)
        (transport : nat -> jsval -> option string -> tresult).

Lemma loop_step_client s s' :
  loop_step guid transport s s' ->
  exists counter cl clock, s = LRunning counter cl clock /\
    loop_client s' = (login_series guid transport cl).1 /\
    (series_ok (login_series guid transport cl).2 = true <-> exists t, s' = LReady (loop_client s') t).
Proof.
  intros Hs. inversion Hs; subst; do 3 eexists; (split; [done|]);
    match goal with E : resolution _ _ _ _ = _ |- _ => unfold resolution in E end;
    destruct (login_series _ _ _) as [cl1 [| |]]; simpl in *;
    match goal with E : (_, _) = (_, _) |- _ => invc E end;
    simpl; (split; [done|]); split; try done; try (by intros [? ?]); by eexists.
Qed.

Lemma loop_step_inv s0 s s' :
  loop_step guid transport s s' -> loop_inv s0 s -> loop_inv s0 s'.
Proof.
  intros Hs (Hid & Hsec & Hpre & Hpost & Hwf & _).
  destruct (loop_step_client s s' Hs) as (counter & cl & clock & -> & Hcl & Hok).
  pose proof (login_series_cases guid transport cl) as Heff.
  rewrite <- Hcl in Heff. simpl in *.
  destruct (cycle_effect_frame _ _ _ Heff) as (E1 & E2 & E3 & E4).
  repeat split; try congruence; [by eapply cycle_effect_wf|].
  destruct s' as [| cl' t |]; [done| |done]. simpl in *.
  assert (Hok' : series_ok (login_series guid transport cl).2 = true) by (apply Hok; eauto).
  rewrite Hok' in Heff.
  destruct Heff as [[_ [=]]|[(tok & _ & _ & [=])|(tok & Ht & -> & _)]]. simpl. by split.
Qed.

Lemma loop_inv_rtc s0 s s' :
  rtc (loop_step guid transport) s s' -> loop_inv s0 s -> loop_inv s0 s'.
Proof.
  induction 1 as [|x y z Hxy _ IH]; [done|]. intros Hx. apply IH. by eapply loop_step_inv.
Qed.

(** C17: every state the login loop reaches keeps the constructor's
    credentials and hooks, satisfies the lifecycle invariant (a verified
    token is present), and a ready loop holds a verified token. *)
Theorem loop_invariant cl s :
  state_wf (c_state cl) ->
  rtc (loop_step guid transport) (loop_init cl) s -> loop_inv (c_state cl) s.
Proof.
  intros Hwf Hrtc. eapply loop_inv_rtc; [exact Hrtc|]. by repeat split.
Qed.
(** C22: the lifecycle status [validate] reports never goes back along
    a run of the login loop: a token once obtained, or once verified,
    is never lost. *)
Theorem loop_status_monotone s s' :
  rtc (loop_step guid transport) s s' ->
  status_rank (status_of (c_state (loop_client s))) <=
  status_rank (status_of (c_state (loop_client s'))).
Proof.
  induction 1 as [|x y z Hxy _ IH]; [done|]. etransitivity; [|exact IH].
  destruct (loop_step_client x y Hxy) as (counter & cl & clock & -> & Hcl & _).
  rewrite Hcl. eapply cycle_effect_status, login_series_cases.
Qed.
End LoopInvariant.

(** Hooks that always call [done] without an error. *)
Definition hooks_answer (st : state) : Prop :=
  (forall inv, hook_passes (preHook st) inv) /\ (forall inv, hook_passes (postHook st) inv).

Section Liveness.
Context `{SubCodeValidator} (guid : nat -> jsval)
        (transport : nat -> jsval -> option string -> tresult).
Hypothesis guid_truthy : forall n, truthy (guid n) = true.

Lemma hooks_answer_cycle s s' ok : cycle_effect s s' ok -> hooks_answer s -> hooks_answer s'.
Proof.
  intros Heff. destruct (cycle_effect_frame _ _ _ Heff) as (_ & _ & E3 & E4).
  unfold hooks_answer. by rewrite E3, E4.
Qed.

(** A cycle whose two requests are answered with a good login body
    succeeds, sends exactly those two requests and verifies the token. *)
Lemma cycle_good code gs cl :
  hooks_answer (c_state cl) ->
  validateSubCode ((JObj gs) .@ "subCode") = true ->
  truthy (js_get_path (JObj gs) ["data"; "token"]) = true ->
  (forall c a, transport (ps_sent (c_ps cl)) c a = TResp code (JObj gs)) ->
  (forall c a, transport (S (ps_sent (c_ps cl))) c a = TResp code (JObj gs)) ->
  (login_series guid transport cl).2 = SeriesOk /\
  ps_sent (c_ps (login_series guid transport cl).1) = S (S (ps_sent (c_ps cl))) /\
  c_state (login_series guid transport cl).1 =
  set_token_verified (set_token (c_state cl) (js_get_path (JObj gs) ["data"; "token"])).
Proof.
  intros [Hpre Hpost] Hsub Htok Hg1 Hg2. unfold login_series.
  assert (Hans : answers transport cl code gs) by (repeat split; auto).
  assert (Hr : (authenticate guid transport cl).2 = Reply JUndef JUndef /\
               c_state (authenticate guid transport cl).1 =
               set_token (c_state cl) (js_get_path (JObj gs) ["data"; "token"])).
  { unfold authenticate.
    destruct (call_method_accepted guid transport guid_truthy (authenticate_config (c_state cl))
                authenticate_handler _ _ _ Hans Hsub) as [ps' ->].
    unfold authenticate_handler. rewrite tagged_body_token. by rewrite Htok. }
  destruct Hr as [Hr Hs].
  pose proof (authenticate_sent guid transport cl Hpre) as Hsent.
  destruct (authenticate guid transport cl) as [cl1 r1]. simpl in *. subst r1. simpl.
  assert (Hans1 : answers transport cl1 code gs).
  { unfold answers. rewrite Hs, Hsent. repeat split; auto. }
  assert (Hr2 : (verifyToken guid transport cl1).2 = Reply JUndef JUndef /\
                c_state (verifyToken guid transport cl1).1 = set_token_verified (c_state cl1)).
  { unfold verifyToken.
    by destruct (call_method_accepted guid transport guid_truthy verifyToken_config
                   verifyToken_handler _ _ _ Hans1 Hsub) as [ps' ->]. }
  destruct Hr2 as [Hr2 Hs2].
  pose proof (verifyToken_sent guid transport cl1 (proj1 Hans1)) as Hsent2.
  destruct (verifyToken guid transport cl1) as [cl2 r2]. simpl in *. subst r2. simpl.
  rewrite Hsent2, Hsent, Hs2, Hs. done.
Qed.

(** The two requests of a good cycle, in the order they reach the
    transport: authenticate's, with the header the client had, then
    verifyToken's, with the Bearer header of the token authenticate
    stored. *)
Lemma cycle_good_sends code gs cl :
  hooks_answer (c_state cl) ->
  validateSubCode ((JObj gs) .@ "subCode") = true ->
  truthy (js_get_path (JObj gs) ["data"; "token"]) = true ->
  (forall c a, transport (ps_sent (c_ps cl)) c a = TResp code (JObj gs)) ->
  (forall c a, transport (S (ps_sent (c_ps cl))) c a = TResp code (JObj gs)) ->
  exists tr c1 c2,
    ps_trace (c_ps (login_series guid transport cl).1) = ps_trace (c_ps cl) ++ tr /\
    sends tr = [(c1, authorization (c_net cl));
                (c2, Some ("Bearer " +:+ js_to_string (js_get_path (JObj gs) ["data"; "token"])))] /\
    c1 .@ "url" = URLS .@ "AUTHENTICATE" /\ c2 .@ "url" = URLS .@ "VERIFY_TOKEN".
Proof.
  intros [Hpre Hpost] Hsub Htok Hg1 Hg2. unfold login_series.
  assert (Hans : answers transport cl code gs) by (repeat split; auto).
  assert (Hk : keeps_ps authenticate_handler)
    by (intros d cl1; unfold authenticate_handler; by destruct (negb _)).
  assert (Hr : (authenticate guid transport cl).2 = Reply JUndef JUndef /\
               c_state (authenticate guid transport cl).1 =
               set_token (c_state cl) (js_get_path (JObj gs) ["data"; "token"]) /\
               c_net (authenticate guid transport cl).1 =
               set_authorization (c_net cl) (js_get_path (JObj gs) ["data"; "token"])).
  { unfold authenticate.
    destruct (call_method_accepted guid transport guid_truthy (authenticate_config (c_state cl))
                authenticate_handler _ _ _ Hans Hsub) as [ps' ->].
    unfold authenticate_handler. rewrite tagged_body_token. by rewrite Htok. }
  destruct (call_method_sends guid transport (authenticate_config (c_state cl)) authenticate_handler cl Hk Hpre) as (tr1 & Htr1 & Hs1).
  change (call_method guid transport (authenticate_config (c_state cl)) authenticate_handler cl)
    with (authenticate guid transport cl) in Htr1.
  pose proof (authenticate_sent guid transport cl Hpre) as Hsent.
  destruct (authenticate guid transport cl) as [cl1 r1]. simpl in *. destruct Hr as (-> & Hs & Hn). simpl.
  assert (Hans1 : answers transport cl1 code gs) by (unfold answers; rewrite Hs, Hsent; repeat split; auto).
  assert (Hr2 : (verifyToken guid transport cl1).2 = Reply JUndef JUndef).
  { unfold verifyToken.
    by destruct (call_method_accepted guid transport guid_truthy verifyToken_config
                   verifyToken_handler _ _ _ Hans1 Hsub) as [ps' ->]. }
  destruct (call_method_sends guid transport verifyToken_config verifyToken_handler cl1
              ltac:(done) (proj1 Hans1)) as (tr2 & Htr2 & Hs2).
  change (call_method guid transport verifyToken_config verifyToken_handler cl1)
    with (verifyToken guid transport cl1) in Htr2.
  destruct (verifyToken guid transport cl1) as [cl2 r2]. simpl in *. subst r2. simpl.
  exists (tr1 ++ tr2); eexists _, _. rewrite Htr2, Htr1, <- app_assoc, sends_app, Hs1, Hs2, Hn.
  split; [done|]. split; [done|].
  split; apply mergeConfig_own; (reflexivity || discriminate).
Qed.

(** C20: a login cycle whose two requests are answered with an accepted
    body holding a token resolves the loop after exactly two requests,
    sent in the order of [async.series]: first authenticate's
    configuration, then verifyToken's, which carries the Bearer header
    of the token the first answer held; [validate()] then reports
    [TOKEN_VERIFIED]. *)
Theorem login_cycle_two_requests counter cl code gs :
  hooks_answer (c_state cl) ->
  truthy (clientId (c_state cl)) = true -> truthy (clientSecret (c_state cl)) = true ->
  validateSubCode ((JObj gs) .@ "subCode") = true ->
  truthy (js_get_path (JObj gs) ["data"; "token"]) = true ->
  (forall c a, transport (ps_sent (c_ps cl)) c a = TResp code (JObj gs)) ->
  (forall c a, transport (S (ps_sent (c_ps cl))) c a = TResp code (JObj gs)) ->
  (resolution guid transport counter cl).2 = Resolve /\
  ps_sent (c_ps (resolution guid transport counter cl).1) = S (S (ps_sent (c_ps cl))) /\
  (exists tr c1 c2,
     ps_trace (c_ps (resolution guid transport counter cl).1) = ps_trace (c_ps cl) ++ tr /\
     sends tr = [(c1, authorization (c_net cl));
                 (c2, Some ("Bearer " +:+ js_to_string (js_get_path (JObj gs) ["data"; "token"])))] /\
     c1 .@ "url" = URLS .@ "AUTHENTICATE" /\ c2 .@ "url" = URLS .@ "VERIFY_TOKEN") /\
  validate (Some (c_state (resolution guid transport counter cl).1)) =
  JStr (status_name TOKEN_VERIFIED).
Proof.
  intros Hh Hid Hsec Hsub Htok Hg1 Hg2.
  destruct (cycle_good code gs cl Hh Hsub Htok Hg1 Hg2) as (Hok & Hsent & Hs).
  pose proof (cycle_good_sends code gs cl Hh Hsub Htok Hg1 Hg2) as Htr.
  rewrite resolution_state. unfold resolution.
  destruct (login_series guid transport cl) as [cl' r]. cbn [fst snd] in *. subst r.
  split; [done|]. split; [done|]. split; [done|].
  rewrite Hs. by apply validate_token_verified.
Qed.

(** A cycle with answering hooks and a transport that never hangs does
    not stall, and sends at least one request. *)
Lemma cycle_progress cl :
  hooks_answer (c_state cl) -> (forall n c a, transport n c a <> THang) ->
  (login_series guid transport cl).2 <> SeriesStalled /\
  S (ps_sent (c_ps cl)) <= ps_sent (c_ps (login_series guid transport cl).1).
Proof.
  intros [Hpre Hpost] Hhang. unfold login_series.
  destruct (call_method_replies guid transport (authenticate_config (c_state cl))
              authenticate_handler cl Hpre Hpost (Hhang _))
    as (e1 & v1 & Hr1).
  { intros d cl1. unfold authenticate_handler. by destruct (negb _). }
  pose proof (authenticate_sent guid transport cl Hpre) as Hs1.
  pose proof (authenticate_outcome guid transport cl) as Hout.
  fold (authenticate guid transport cl) in Hr1.
  destruct (authenticate guid transport cl) as [cl1 r1]. simpl in *. subst r1.
  destruct (truthy e1) eqn:E1; simpl; [split; [done | lia]|].
  assert (Hh1 : preHook (c_state cl1) = preHook (c_state cl) /\
                postHook (c_state cl1) = postHook (c_state cl)).
  { destruct Hout as [(-> & _)|(tok & _ & -> & _)]; done. }
  destruct Hh1 as [Hp1 Hq1]. rewrite <- Hp1 in Hpre. rewrite <- Hq1 in Hpost.
  destruct (call_method_replies guid transport verifyToken_config
              verifyToken_handler cl1 Hpre Hpost (Hhang _)) as (e2 & v2 & Hr2); [done|].
  pose proof (verifyToken_sent guid transport cl1 Hpre) as Hs2.
  fold (verifyToken guid transport cl1) in Hr2.
  destruct (verifyToken guid transport cl1) as [cl2 r2]. simpl in *. subst r2.
  destruct (truthy e2); simpl; (split; [done | lia]).
Qed.

(** Liveness of the loop.  If the hooks always answer, the transport never
    hangs, and from the [N]-th request on the server answers every
    request with an accepted body holding a token, then the loop, from
    any running state, becomes ready. *)
Theorem loop_eventually_ready N code gs counter cl clock :
  hooks_answer (c_state cl) -> (forall n c a, transport n c a <> THang) ->
  validateSubCode ((JObj gs) .@ "subCode") = true ->
  truthy (js_get_path (JObj gs) ["data"; "token"]) = true ->
  (forall n c a, N <= n -> transport n c a = TResp code (JObj gs)) ->
  exists cl' t, rtc (loop_step guid transport) (LRunning counter cl clock) (LReady cl' t).
Proof.
  intros Hh Hhang Hsub Htok Hgood.
  remember (N - ps_sent (c_ps cl)) as k eqn:Hk.
  revert counter cl clock Hh Hk. induction k as [k IH] using lt_wf_ind.
  intros counter cl clock Hh Hk.
  destruct (resolution guid transport counter cl) as [cl' d] eqn:E.
  pose proof (resolution_state guid transport counter cl) as Hst. rewrite E in Hst. simpl in Hst.
  pose proof (cycle_progress cl Hh Hhang) as [Hns Hsent].
  pose proof (login_series_cases guid transport cl) as Heff.
  unfold resolution in E. destruct (login_series guid transport cl) as [cl1 r] eqn:Hls.
  cbn [fst snd] in Hst, Hns, Hsent, Heff. subst cl1.
  destruct r as [|e|]; [|..|done]; injection E as <-; subst.
  - exists cl', clock. apply rtc_once. constructor.
    unfold resolution. by rewrite Hls.
  - destruct (decide (N <= ps_sent (c_ps cl))) as [HN|HN].
    + destruct (cycle_good code gs cl Hh Hsub Htok (fun c a => Hgood _ c a HN)
                  (fun c a => Hgood (S (ps_sent (c_ps cl))) c a ltac:(lia))) as [Hok _].
      by rewrite Hls in Hok.
    + destruct (IH (N - ps_sent (c_ps cl')) ltac:(lia) (Some (timeout_of counter + 1)%Z) cl'
                  (clock + backoff_delay (timeout_of counter))%Z
                  (hooks_answer_cycle _ _ _ Heff Hh) eq_refl) as (cl2 & t & Hr).
      exists cl2, t. eapply rtc_l; [|exact Hr]. constructor.
      unfold resolution. by rewrite Hls.
Qed.
End Liveness.

(** The counter [resolution] is called with after [m] failed cycles. *)
Definition counter_after (m : nat) : option Z :=
  match m with O => None | S _ => Some (Z.of_nat m + 1)%Z end.

(** The time spent waiting over the first [m] failed cycles. *)
Fixpoint sum_delays (m : nat) : Z :=
  match m with
  | O => 0%Z
  | S m' => (sum_delays m' + backoff_delay (Z.of_nat m))%Z
  end.

Lemma timeout_of_counter_after m : timeout_of (counter_after m) = (Z.of_nat m + 1)%Z.
Proof.
  destruct m; [done|]. unfold counter_after, timeout_of.
  by rewrite (proj2 (Z.eqb_neq _ 0)) by lia.
Qed.

Section Schedule.
Context `{SubCodeValidator} (guid : nat -> jsval)
        (transport : nat -> jsval -> option string -> tresult).

(** A cycle whose login request fails at the transport fails. *)
Lemma cycle_fails cl msg :
  hooks_answer (c_state cl) -> (forall n c a, transport n c a = TFail msg) ->
  exists e, login_series guid transport cl = ((authenticate guid transport cl).1, SeriesFailed e) /\
            c_state (authenticate guid transport cl).1 = c_state cl.
Proof.
  intros [Hpre Hpost] Ht. unfold login_series, authenticate.
  destruct (call_method_fails guid transport (authenticate_config (c_state cl)) authenticate_handler
              cl msg Hpre Hpost (Ht _)) as (e & He & Hr & Hs).
  destruct (call_method _ _ _ _ _) as [cl1 r1]. simpl in *. subst r1. rewrite He. by exists e.
Qed.

(** C21: if every request fails at the transport, the loop retries
    forever: after [m] failed cycles it runs again with counter [m + 1]
    after waiting [backoff_delay 1 + ... + backoff_delay m] ms in all,
    and the state is untouched. *)
Theorem loop_failing_schedule cl msg m :
  hooks_answer (c_state cl) -> (forall n c a, transport n c a = TFail msg) ->
  exists cl', c_state cl' = c_state cl /\
    rtc (loop_step guid transport) (loop_init cl) (LRunning (counter_after m) cl' (sum_delays m)).
Proof.
  intros Hh Ht. induction m as [|m IH].
  - exists cl. split; [done|]. apply rtc_refl.
  - destruct IH as (cl' & Hs & Hr).
    rewrite <- Hs in Hh. destruct (cycle_fails cl' msg Hh Ht) as (e & Hls & Hs').
    exists (authenticate guid transport cl').1. split; [congruence|].
    eapply rtc_r; [exact Hr|].
    replace (counter_after (S m)) with (Some (timeout_of (counter_after m) + 1)%Z)
      by (rewrite timeout_of_counter_after; simpl; f_equal; lia).
    replace (sum_delays (S m)) with (sum_delays m + backoff_delay (timeout_of (counter_after m)))%Z
      by (rewrite timeout_of_counter_after; simpl; f_equal; f_equal; lia).
    constructor. unfold resolution. by rewrite Hls.
Qed.
End Schedule.

(** The retry that follows a failed login cycle. *)
Definition retry_after (counter : option Z) : loop_decision :=
  Retry (timeout_of counter + 1) (backoff_delay (timeout_of counter)).

Section NoToken.
Context `{SubCodeValidator} (guid : nat -> jsval)
        (t_ok t_fail : nat -> jsval -> option string -> tresult).
Hypothesis guid_truthy : forall n, truthy (guid n) = true.

Lemma resolution_failed transport counter cl e :
  (login_series guid transport cl).2 = SeriesFailed e ->
  (resolution guid transport counter cl).2 = retry_after counter.
Proof. unfold resolution. by destruct (login_series _ _ _) as [? []]; intros [= ->]. Qed.

(** C13: Spec property 6: an accepted [authenticate] answer without a token
    is treated as a transport failure of that step: the cycle makes the
    same decision (retry with the same counter and delay) and leaves
    [state] as it was. *)
Theorem no_token_retries_like_failure counter cl code gs msg :
  hooks_answer (c_state cl) ->
  validateSubCode ((JObj gs) .@ "subCode") = true ->
  truthy (js_get_path (JObj gs) ["data"; "token"]) = false ->
  (forall c a, t_ok (ps_sent (c_ps cl)) c a = TResp code (JObj gs)) ->
  (forall n c a, t_fail n c a = TFail msg) ->
  (resolution guid t_ok counter cl).2 = retry_after counter /\
  (resolution guid t_fail counter cl).2 = retry_after counter /\
  c_state (resolution guid t_ok counter cl).1 = c_state cl /\
  c_state (resolution guid t_fail counter cl).1 = c_state cl.
Proof.
  intros [Hpre Hpost] Hsub Htok Hok Hfail.
  destruct (cycle_fails guid t_fail cl msg (conj Hpre Hpost) Hfail) as (e & Hls & Hs).
  assert (Hans : answers t_ok cl code gs) by (repeat split; auto).
  assert (Ha : (authenticate guid t_ok cl).2 = Reply (JStr "No token returned") JUndef /\
               c_state (authenticate guid t_ok cl).1 = c_state cl).
  { unfold authenticate.
    destruct (call_method_accepted guid t_ok guid_truthy (authenticate_config (c_state cl))
                authenticate_handler _ _ _ Hans Hsub) as [ps' ->].
    unfold authenticate_handler. rewrite tagged_body_token. by rewrite Htok. }
  rewrite !resolution_state, Hls. split; [|split; [|split]].
  - apply (resolution_failed _ _ _ (JStr "No token returned")). unfold login_series.
    destruct Ha as [Hr _]. destruct (authenticate guid t_ok cl) as [cl1 r1]. simpl in Hr. by subst r1.
  - eapply resolution_failed. by rewrite Hls.
  - destruct Ha as [Hr Hs1]. unfold login_series.
    destruct (authenticate guid t_ok cl) as [cl1 r1]. simpl in *. by subst r1.
  - exact Hs.
Qed.
End NoToken.

(** Before the delays collapse, the waits add up to [1000 * (2^m - 1)]
    ms. *)
Lemma sum_delays_closed m : (m <= 22)%nat -> sum_delays m = (1000 * (2 ^ Z.of_nat m - 1))%Z.
Proof.
  induction m as [|m IH]; intros Hm; [done|].
  simpl sum_delays. rewrite IH by lia. rewrite backoff_delay_exact by lia.
  rewrite Nat2Z.inj_succ, Z.pow_succ_r by lia. lia.
Qed.
