(* ===== verification/ScriptRun.v ===== *)
(** * The run of the integration script [src/test.js]

    [test.js] builds the client with recording hooks and runs its calls
    through [async.auto] (lines 69-145).  The tasks form a chain: each
    task starts when the one it names has called back without an
    error, and the first error goes to the final callback, after which
    no task starts.  The task functions take [(callback, results)],
    the argument order of [async] 1.x, which this model follows.
    - [auto_chain] is [async.auto] on such a chain: the results object
      collects what each task called back with;
    - [map_calls] and [map_replies] are [async.map] in
      [removeBeneficiaries]: every removal is started (their requests
      are all made) and the first error, in index order, is the
      outcome;
    - [script_tasks] are the tasks of the script, with the data that
      flows between them (the beneficiaries listed, the name found by
      [validateBeneficiary] written into [beneficiaryDetails] by
      [_.extend], the id found, the last transfer listed);
    - [script_run] runs [completedRequestsStart] when the script starts,
      then the login loop of the client ([run_loop]), which the one
      buffered call, [getBeneficiaries], waits for, then the chain.

    [script_run_counts] shows that a run whose final callback receives
    no error had the login succeed at its first cycle and found exactly
    one beneficiary: the checks [verifyRequestsComplete(3)] and
    [verifyRequestsComplete(12)] count one key per request. *)

From S2P Require Import Prelude JsValue Constants State Validate Promise SubCode Interceptors Network Client Backoff Auth TestScript.

(** What the final callback of [async.auto] receives. *)
Inductive script_outcome :=
| ScriptDone (cl : client) (results : js_fields)
| ScriptFailed (task : string) (err : jsval) (cl : client)
| ScriptWaiting (task : string) (cl : client).

(** A task: from the client, [beneficiaryDetails] and the results so
    far, the client, [beneficiaryDetails] and what the task called back
    with. *)
Abbreviation task := (client -> jsval -> js_fields -> client * jsval * reply)%type.

(** [async.auto] on a chain of tasks: a task that calls back
    [(err, value)] with a truthy [err] ends the run; otherwise
    [results[name] = value] and the next task starts. *)
Fixpoint auto_chain (ts : list (string * task)) (cl : client) (details : jsval)
    (results : js_fields) : script_outcome :=
  match ts with
  | [] => ScriptDone cl results
  | (k, t) :: ts' =>
      match t cl details results with
      | (cl', details', Reply err v) =>
          if truthy err then ScriptFailed k err cl'
          else auto_chain ts' cl' details' (fields_set k v results)
      | (cl', _, _) => ScriptWaiting k cl'
      end
  end.

(** [results[name]] *)
Definition result_of (results : js_fields) (k : string) : jsval :=
  default JUndef (fields_lookup k results).

(** The elements [async.map] iterates over: an array's items, an
    object's values, nothing otherwise. *)
Definition js_items (v : jsval) : list jsval :=
  match v with JArr xs => xs | JObj fs => map snd fs | _ => [] end.

(** [_.last(array)] *)
Definition js_last (v : jsval) : jsval :=
  match v with JArr xs => default JUndef (last xs) | _ => JUndef end.

(** [verifyRequestsComplete(no)]: what it calls back with. *)
Definition verifyRequestsComplete (no : nat) (cache : js_fields) : jsval :=
  if requests_complete cache no then JNull
  else JStr ("Expected " +:+ pretty no +:+ " to be completed but found " +:+
             pretty (length cache) +:+ " completed requests").

(** Every call of [async.map], started in index order. *)
Fixpoint map_calls (f : jsval -> client -> client * reply) (xs : list jsval) (cl : client)
  : client * list reply :=
  match xs with
  | [] => (cl, [])
  | x :: xs' =>
      let '(cl1, r) := f x cl in
      let '(cl2, rs) := map_calls f xs' cl1 in
      (cl2, r :: rs)
  end.

(** The first error of the calls, in index order. *)
Fixpoint first_error (rs : list reply) : option jsval :=
  match rs with
  | [] => None
  | Reply e _ :: rs' => if truthy e then Some e else first_error rs'
  | _ :: rs' => first_error rs'
  end.

(** The values the calls called back with, when all did. *)
Fixpoint map_values (rs : list reply) : option (list jsval) :=
  match rs with
  | [] => Some []
  | Reply _ v :: rs' => match map_values rs' with Some vs => Some (v :: vs) | None => None end
  | _ :: _ => None
  end.

(** What [async.map] calls back with: the first error, the values, or
    nothing while a call has not called back. *)
Definition map_replies (rs : list reply) : reply :=
  match first_error rs with
  | Some e => Reply e JUndef
  | None => match map_values rs with Some vs => Reply JNull (JArr vs) | None => NoReply end
  end.

Section Script.
Context `{SubCodeValidator} (guid : nat -> jsval)
        (transport : nat -> jsval -> option string -> tresult)
        (beneId transferId : jsval).

(** A method of the client called with its callback. *)
Definition method_task (m : jsval -> js_fields -> client -> client * reply) : task :=
  fun cl d res => let '(cl', r) := m d res cl in (cl', d, r).

Definition verify_task (no : nat) : task :=
  fun cl d _ => (cl, d, Reply (verifyRequestsComplete no (cache_of_trace (ps_trace (c_ps cl)))) JUndef).

(** [removeBeneficiaries]: [async.map(getBeneficiaries, (data, next) =>
    cashFree.removeBeneficiary(_.pick(data, ['beneId', 'ifsc']), next))] *)
Definition removeBeneficiaries_task : task :=
  fun cl d res =>
    let '(cl', rs) := map_calls (fun x => removeBeneficiary guid transport (js_pick x ["beneId"; "ifsc"]))
                        (js_items (result_of res "getBeneficiaries")) cl in
    (cl', d, map_replies rs).

(** [addBeneficiary]: [_.extend(beneficiaryDetails, { name:
    findValidBeneficiary.nameAtBank })] changes [beneficiaryDetails]
    itself, which the later tasks see. *)
Definition addBeneficiary_task : task :=
  fun cl d res =>
    let d' := js_assign d (JObj [("name", (result_of res "findValidBeneficiary") .@ "nameAtBank")]) in
    let '(cl', r) := addBeneficiary guid transport d' cl in (cl', d', r).

(** The tasks after [completedRequestsStart], in dependency order. *)
Definition script_tasks : list (string * task) :=
  [("getBeneficiaries", method_task (fun _ _ => getBeneficiaries guid transport (JObj [])));
   ("completedRequestsMid", verify_task 3);
   ("removeBeneficiaries", removeBeneficiaries_task);
   ("findValidBeneficiary", method_task (fun d _ => validateBeneficiary guid transport d));
   ("addBeneficiary", addBeneficiary_task);
   ("getBeneficiaryId", method_task (fun d _ => getBeneficiaryId guid transport d));
   ("getBeneficiary", method_task (fun _ res =>
      getBeneficiary guid transport (JObj [("beneId", result_of res "getBeneficiaryId")])));
   ("requestTransfer", method_task (fun _ _ =>
      requestTransfer guid transport
        (JObj [("beneId", beneId); ("amount", JNum 10); ("transferId", transferId)])));
   ("getBalance", method_task (fun _ _ => getBalance guid transport));
   ("listTransfers", method_task (fun _ _ => listTransfers guid transport (JObj [])));
   ("getTransfer", method_task (fun _ res =>
      getTransfer guid transport (js_last (result_of res "listTransfers"))));
   ("completedRequestsEnd", verify_task 12)].

(** The script: the first check when it starts, the login loop (for
    [fuel] cycles) the buffered [getBeneficiaries] waits for, then the
    chain. *)
Definition script_run (fuel : nat) (details : jsval) (cl0 : client) : script_outcome :=
  let start := verifyRequestsComplete 0 (cache_of_trace (ps_trace (c_ps cl0))) in
  if truthy start then ScriptFailed "completedRequestsStart" start cl0
  else match run_loop guid transport fuel (loop_init cl0) with
       | LReady cl _ => auto_chain script_tasks cl details [("completedRequestsStart", JUndef)]
       | LRunning _ cl _ | LStalled cl => ScriptWaiting "getBeneficiaries" cl
       end.
End Script.

(** ** Every call of the script makes one request, and adds one key *)

(** A configuration or a defaults object without a [networkId] of its own. *)
Definition no_id (v : jsval) : Prop :=
  match v with JObj fs => fields_lookup "networkId" fs = None | _ => True end.

Lemma assign_lookup_none k fs gs :
  fields_lookup k gs = None ->
  fields_lookup k (foldl (fun acc kv => fields_set kv.1 kv.2 acc) fs gs) = fields_lookup k fs.
Proof.
  revert fs. induction gs as [|[k' v'] gs IH]; intros fs Hg; simpl in *; [done|].
  destruct (String.eqb_spec k k') as [->|Hne]; [done|].
  rewrite IH by done. by apply fields_lookup_set_ne.
Qed.

Lemma mergeConfig_fresh d c :
  no_id d -> no_id c -> truthy ((mergeConfig d c) .@ "networkId") = false.
Proof.
  intros Hd Hc. unfold mergeConfig.
  assert (Hd' : exists fs, js_assign (JObj []) d = JObj fs /\ fields_lookup "networkId" fs = None).
  { destruct d as [| | | | | |ds]; simpl; eauto. eexists. split; [done|].
    by rewrite assign_lookup_none. }
  destruct Hd' as (fs & -> & Hfs).
  destruct c as [| | | | | |cs]; simpl; try by rewrite Hfs.
  by rewrite assign_lookup_none, Hfs.
Qed.

(** ** Laws of the runner *)

Lemma auto_chain_done k t ts cl d res cl' res' :
  auto_chain ((k, t) :: ts) cl d res = ScriptDone cl' res' ->
  exists cl1 d1 e v, t cl d res = (cl1, d1, Reply e v) /\ truthy e = false /\
    auto_chain ts cl1 d1 (fields_set k v res) = ScriptDone cl' res'.
Proof.
  simpl. destruct (t cl d res) as [[cl1 d1] [e v| |]]; try discriminate.
  destruct (truthy e) eqn:He; [discriminate|]. intros H. by exists cl1, d1, e, v.
Qed.

Lemma verify_task_done k no ts cl d res cl' res' :
  auto_chain ((k, verify_task no) :: ts) cl d res = ScriptDone cl' res' ->
  length (cache_of_trace (ps_trace (c_ps cl))) = no /\
  auto_chain ts cl d (fields_set k JUndef res) = ScriptDone cl' res'.
Proof.
  intros (cl1 & d1 & e & v & E & He & H)%auto_chain_done.
  unfold verify_task, verifyRequestsComplete, requests_complete in E.
  destruct (Nat.eqb_spec (length (cache_of_trace (ps_trace (c_ps cl)))) no) as [Hn|Hn];
    injection E as <- <- <- <-; [done|discriminate].
Qed.

Lemma verify_fails no cache :
  length cache <> no -> truthy (verifyRequestsComplete no cache) = true.
Proof. intros Hn. unfold verifyRequestsComplete, requests_complete. by destruct (Nat.eqb_spec (length cache) no). Qed.

Section Counts.
Context `{SubCodeValidator} (guid : nat -> jsval)
        (transport : nat -> jsval -> option string -> tresult) (n0 : nat).
Hypothesis guid_truthy : forall n, truthy (guid n) = true.
Hypothesis guid_key_inj : Inj eq eq (fun n => js_to_string (guid n)).
Hypothesis transport_answers : forall n,
  (exists code gs, forall c a, transport n c a = TResp code (JObj gs)) \/
  (exists msg, forall c a, transport n c a = TFail msg).

(** The script's client along its run: its hooks record, its defaults
    carry no [networkId], the keys of the cache are the guids drawn
    since [n0], one per request sent. *)
Definition sinv (cl : client) : Prop :=
  script_hooks (c_state cl) /\ no_id (defaults (c_net cl)) /\ n0 <= ps_next (c_ps cl) /\
  map fst (cache_of_trace (ps_trace (c_ps cl))) = map (guid_key guid) (seq n0 (ps_next (c_ps cl) - n0)) /\
  ps_next (c_ps cl) - n0 = ps_sent (c_ps cl).

Lemma sinv_count cl : sinv cl -> length (cache_of_trace (ps_trace (c_ps cl))) = ps_sent (c_ps cl).
Proof. intros (_ & _ & _ & Hk & Hs). by rewrite <- (length_map fst), Hk, length_map, length_seq. Qed.

(** A [.then] handler that keeps the trace, the hooks and the defaults. *)
Definition handler_frame (h : jsval -> client -> handler_result) : Prop :=
  forall d cl1, match h d cl1 with
                | inr (cl2, _) =>
                    c_ps cl2 = c_ps cl1 /\ (script_hooks (c_state cl1) -> script_hooks (c_state cl2)) /\
                    defaults (c_net cl2) = defaults (c_net cl1)
                | inl _ => True
                end.

Lemma reply_with_frame f : handler_frame (reply_with f).
Proof. by intros d cl1. Qed.

Lemma validateBeneficiary_frame : handler_frame validateBeneficiary_handler.
Proof.
  intros d cl1. unfold validateBeneficiary_handler.
  destruct (throws_on_read _); [done|]. by destruct (negb _).
Qed.

Lemma authenticate_frame : handler_frame authenticate_handler.
Proof. intros d cl1. unfold authenticate_handler. by destruct (negb _). Qed.

Lemma verifyToken_frame : handler_frame verifyToken_handler.
Proof. by intros d cl1. Qed.

(** A method call makes one request and keeps the invariant. *)
Lemma call_method_step cfg h cl :
  no_id cfg -> handler_frame h -> sinv cl ->
  sinv (call_method guid transport cfg h cl).1 /\
  ps_sent (c_ps (call_method guid transport cfg h cl).1) = S (ps_sent (c_ps cl)).
Proof.
  intros Hc Hh (Hhk & Hd & Ha & Hk & Hs).
  destruct (request_keys guid transport guid_truthy guid_key_inj transport_answers (c_state cl) (c_net cl)
              cfg (c_ps cl) n0 Hhk (mergeConfig_fresh _ _ Hd Hc) Ha Hk) as [Hn Hk'].
  pose proof (request_sends_one guid transport (c_state cl) (c_net cl) cfg (c_ps cl)
                ltac:(rewrite (proj1 Hhk); apply test_hook_passes)) as Hsent.
  assert (Hw : forall ps', ps' = (request guid transport (c_state cl) (c_net cl) cfg (c_ps cl)).1 ->
             sinv (with_ps cl ps') /\ ps_sent (c_ps (with_ps cl ps')) = S (ps_sent (c_ps cl))).
  { intros ps' ->. unfold sinv. cbn [with_ps c_state c_net c_ps]. rewrite Hn, Hk', Hsent.
    split; [|done]. split; [done|]. split; [done|]. split; [lia|]. split; [done|lia]. }
  unfold call_method. destruct (request _ _ _ _ _ _) as [ps' s] eqn:E. simpl in Hw.
  specialize (Hw ps' eq_refl). destruct s as [r|e|]; [|done..].
  unfold wrapResponse. destruct (negb _); [by destruct (throws_on_read _)|].
  specialize (Hh (r .@ "data") (with_ps cl ps')).
  destruct (h _ _) as [exn|[cl2 rep]]; [done|]. destruct Hh as (Hps & Hhooks & Hdef), Hw as (Hw & Hws).
  destruct Hw as (Hw1 & Hw2 & Hw3 & Hw4 & Hw5). simpl.
  unfold sinv. rewrite Hps, Hdef. split; [|done]. split; [auto|]. done.
Qed.

(** The two login steps and the loop keep the invariant. *)
Lemma login_series_sinv cl : sinv cl -> sinv (login_series guid transport cl).1.
Proof.
  intros Hs. unfold login_series, authenticate, verifyToken.
  destruct (call_method_step (authenticate_config (c_state cl)) _ cl eq_refl authenticate_frame Hs)
    as [Hs1 _].
  destruct (call_method _ _ _ _ cl) as [cl1 [e1 v1| |]]; simpl in Hs1 |- *; [|done..].
  destruct (truthy e1); [done|].
  destruct (call_method_step verifyToken_config _ cl1 eq_refl verifyToken_frame Hs1) as [Hs2 _].
  destruct (call_method _ _ _ _ cl1) as [cl2 [e2 v2| |]]; simpl in Hs2 |- *; [|done..].
  by destruct (truthy e2).
Qed.

Lemma run_loop_sinv fuel s :
  sinv (loop_client s) -> sinv (loop_client (run_loop guid transport fuel s)).
Proof.
  revert s. induction fuel as [|fuel IH]; intros s Hs; simpl; [done|]. apply IH.
  destruct s as [counter cl clock| |]; simpl in *; [|done..].
  unfold resolution. pose proof (login_series_sinv cl Hs) as Hl.
  destruct (login_series guid transport cl) as [cl' [| |]]; simpl in *; done.
Qed.

(** [async.map] over calls that each make one request. *)
Lemma map_calls_sinv (f : jsval -> client -> client * reply) xs cl :
  (forall x cl, sinv cl -> sinv (f x cl).1 /\ ps_sent (c_ps (f x cl).1) = S (ps_sent (c_ps cl))) ->
  sinv cl ->
  sinv (map_calls f xs cl).1 /\ ps_sent (c_ps (map_calls f xs cl).1) = ps_sent (c_ps cl) + length xs.
Proof.
  intros Hf. revert cl. induction xs as [|x xs IH]; intros cl Hs; simpl; [split; [done|lia]|].
  destruct (Hf x cl Hs) as [Hs1 Hn1]. destruct (f x cl) as [cl1 r] eqn:E. simpl in *.
  destruct (IH cl1 Hs1) as [Hs2 Hn2]. destruct (map_calls f xs cl1) as [cl2 rs]. simpl in *.
  split; [done|lia].
Qed.

(** The client calls of the script each make one request. *)
Definition sends_one (m : client -> client * reply) : Prop :=
  forall cl, sinv cl -> sinv (m cl).1 /\ ps_sent (c_ps (m cl).1) = S (ps_sent (c_ps cl)).

Ltac one_call :=
  intros ?cl; cbv beta;
  unfold getBeneficiaries, validateBeneficiary, addBeneficiary, getBeneficiaryId, getBeneficiary,
    requestTransfer, getBalance, listTransfers, getTransfer, removeBeneficiary;
  apply call_method_step; [reflexivity|first [apply reply_with_frame|apply validateBeneficiary_frame]].

Lemma method_task_done k m ts cl d res cl' res' :
  sinv cl -> auto_chain ((k, method_task m) :: ts) cl d res = ScriptDone cl' res' ->
  sends_one (m d res) ->
  exists cl1 v, sinv cl1 /\ ps_sent (c_ps cl1) = S (ps_sent (c_ps cl)) /\
    auto_chain ts cl1 d (fields_set k v res) = ScriptDone cl' res'.
Proof.
  intros Hs (cl1 & d1 & e & v & E & He & Hr)%auto_chain_done Hm.
  unfold method_task in E. destruct (Hm cl Hs) as [Hs1 Hn1].
  destruct (m d res cl) as [cl2 r]. injection E as <- <- Er. by exists cl2, v.
Qed.

Lemma removeBeneficiaries_done ts cl d res cl' res' :
  sinv cl ->
  auto_chain (("removeBeneficiaries", removeBeneficiaries_task guid transport) :: ts) cl d res =
    ScriptDone cl' res' ->
  exists cl1 v, sinv cl1 /\
    ps_sent (c_ps cl1) = ps_sent (c_ps cl) + length (js_items (result_of res "getBeneficiaries")) /\
    auto_chain ts cl1 d (fields_set "removeBeneficiaries" v res) = ScriptDone cl' res'.
Proof.
  intros Hs (cl1 & d1 & e & v & E & He & Hr)%auto_chain_done.
  unfold removeBeneficiaries_task in E.
  destruct (map_calls_sinv (fun x => removeBeneficiary guid transport (js_pick x ["beneId"; "ifsc"]))
              (js_items (result_of res "getBeneficiaries")) cl ltac:(intros x; one_call) Hs)
    as [Hs1 Hn1].
  destruct (map_calls _ _ cl) as [cl2 rs]. injection E as <- <- Er. by exists cl2, v.
Qed.

Lemma addBeneficiary_done ts cl d res cl' res' :
  sinv cl ->
  auto_chain (("addBeneficiary", addBeneficiary_task guid transport) :: ts) cl d res = ScriptDone cl' res' ->
  exists cl1 d1 v, sinv cl1 /\ ps_sent (c_ps cl1) = S (ps_sent (c_ps cl)) /\
    auto_chain ts cl1 d1 (fields_set "addBeneficiary" v res) = ScriptDone cl' res'.
Proof.
  intros Hs (cl1 & d1 & e & v & E & He & Hr)%auto_chain_done.
  unfold addBeneficiary_task in E.
  match type of E with context [addBeneficiary guid transport ?p cl] =>
    destruct ((ltac:(one_call) : sends_one (addBeneficiary guid transport p)) cl Hs) as [Hs1 Hn1];
    destruct (addBeneficiary guid transport p cl) as [cl2 r] end.
  injection E as <- <- Er. by eexists cl2, _, v.
Qed.

(** C35: the script passes only with one beneficiary and a first-time
    login.  Run against any provider that answers every request with an
    object body or a failure, from a client with the script's recording
    hooks and an empty [networkCache], a run of [test.js] whose final
    callback receives no error had its login loop resolve after exactly
    two requests (its first cycle) and found exactly one beneficiary,
    and ends with twelve keys in the cache: [completedRequestsMid]
    counts the two login requests and [getBeneficiaries], and
    [completedRequestsEnd] counts one removal per beneficiary and the
    eight calls after them. *)
Theorem script_run_counts beneId transferId fuel details cl0 cl res :
  script_hooks (c_state cl0) -> no_id (defaults (c_net cl0)) -> c_ps cl0 = mkPState n0 0 [] ->
  script_run guid transport beneId transferId fuel details cl0 = ScriptDone cl res ->
  (exists clr k, run_loop guid transport fuel (loop_init cl0) = LReady clr k /\ ps_sent (c_ps clr) = 2) /\
  length (js_items (result_of res "getBeneficiaries")) = 1 /\
  length (cache_of_trace (ps_trace (c_ps cl))) = 12.
Proof.
  intros Hh Hd Hps Hrun.
  assert (Hs0 : sinv cl0).
  { unfold sinv. rewrite Hps. cbn [ps_next ps_trace ps_sent]. rewrite Nat.sub_diag.
    split; [done|]. split; [done|]. split; [lia|]. by split. }
  assert (Hst : verifyRequestsComplete 0 (cache_of_trace (ps_trace (c_ps cl0))) = JNull)
    by (rewrite Hps; reflexivity).
  unfold script_run in Hrun. rewrite Hst in Hrun. cbn [truthy] in Hrun.
  pose proof (run_loop_sinv fuel (loop_init cl0) Hs0) as Hs1.
  destruct (run_loop guid transport fuel (loop_init cl0)) as [? cl1 ?|cl1 k|cl1] eqn:L; try discriminate.
  simpl in Hs1. unfold script_tasks in Hrun.
  destruct (method_task_done _ _ _ _ _ _ _ _ Hs1 Hrun ltac:(one_call)) as (clA & vA & HsA & HnA & Hr).
  apply verify_task_done in Hr as [Hmid Hr].
  destruct (removeBeneficiaries_done _ _ _ _ _ _ HsA Hr) as (clC & vC & HsC & HnC & Hr').
  destruct (method_task_done _ _ _ _ _ _ _ _ HsC Hr' ltac:(one_call)) as (clD & vD & HsD & HnD & Hr1).
  destruct (addBeneficiary_done _ _ _ _ _ _ HsD Hr1) as (clE & dE & vE & HsE & HnE & Hr2).
  destruct (method_task_done _ _ _ _ _ _ _ _ HsE Hr2 ltac:(one_call)) as (clF & vF & HsF & HnF & Hr3).
  destruct (method_task_done _ _ _ _ _ _ _ _ HsF Hr3 ltac:(one_call)) as (clG & vG & HsG & HnG & Hr4).
  destruct (method_task_done _ _ _ _ _ _ _ _ HsG Hr4 ltac:(one_call)) as (clH & vH & HsH & HnH & Hr5).
  destruct (method_task_done _ _ _ _ _ _ _ _ HsH Hr5 ltac:(one_call)) as (clI & vI & HsI & HnI & Hr6).
  destruct (method_task_done _ _ _ _ _ _ _ _ HsI Hr6 ltac:(one_call)) as (clJ & vJ & HsJ & HnJ & Hr7).
  destruct (method_task_done _ _ _ _ _ _ _ _ HsJ Hr7 ltac:(one_call)) as (clK & vK & HsK & HnK & Hr8).
  apply verify_task_done in Hr8 as [Hend Hr8]. simpl in Hr8. injection Hr8 as <- <-.
  rewrite (sinv_count _ HsA) in Hmid. rewrite (sinv_count _ HsK) in Hend |- *.
  cbn in HnC |- *. split; [exists cl1, k; split; [done|lia]|]. split; lia.
Qed.

(** C36: the first error ends the run.  When the login loop of the
    script's client became ready after other than two requests (a
    cycle failed and was retried) and [getBeneficiaries] then succeeds,
    the final callback receives the error of [completedRequestsMid]
    ("Expected 3 to be completed but found ...") and no task after it
    runs: the client has sent nothing after [getBeneficiaries]. *)
Theorem script_mid_check_fails beneId transferId fuel details cl0 clr k clA e v :
  script_hooks (c_state cl0) -> no_id (defaults (c_net cl0)) -> c_ps cl0 = mkPState n0 0 [] ->
  run_loop guid transport fuel (loop_init cl0) = LReady clr k -> ps_sent (c_ps clr) <> 2 ->
  getBeneficiaries guid transport (JObj []) clr = (clA, Reply e v) -> truthy e = false ->
  script_run guid transport beneId transferId fuel details cl0 =
    ScriptFailed "completedRequestsMid" (verifyRequestsComplete 3 (cache_of_trace (ps_trace (c_ps clA)))) clA /\
  ps_sent (c_ps clA) = S (ps_sent (c_ps clr)).
Proof.
  intros Hh Hd Hps L Hn Hget He.
  assert (Hs0 : sinv cl0).
  { unfold sinv. rewrite Hps. cbn [ps_next ps_trace ps_sent]. rewrite Nat.sub_diag.
    split; [done|]. split; [done|]. split; [lia|]. by split. }
  pose proof (run_loop_sinv fuel (loop_init cl0) Hs0) as Hs1. rewrite L in Hs1. simpl in Hs1.
  destruct ((ltac:(one_call) : sends_one (getBeneficiaries guid transport (JObj []))) clr Hs1) as [HsA HnA].
  rewrite Hget in HsA, HnA. simpl in HsA, HnA.
  assert (Hst : verifyRequestsComplete 0 (cache_of_trace (ps_trace (c_ps cl0))) = JNull)
    by (rewrite Hps; reflexivity).
  unfold script_run. rewrite Hst. cbn [truthy]. rewrite L. unfold script_tasks.
  cbn [auto_chain]. unfold method_task at 1. cbv beta. rewrite Hget. cbv beta iota. rewrite He.
  unfold verify_task at 1. cbv beta iota. rewrite verify_fails; [done|].
  rewrite (sinv_count _ HsA). lia.
Qed.
End Counts.
