(* ===== verification/Ready.v ===== *)
(** * Deferred readiness: the constructor and the buffered methods

    [lib/index.js] (lines 134-161): unless [initialized] is given and
    falsy, the constructor wraps every method but [authenticate] and
    [verifyToken] with [bufferMethods], starts [resolution()] and returns
    the wrapped [model]; [resolve()] is called by the login loop when it
    succeeds.  [buffer-methods] is a library outside the repository: its
    behaviour is the one the specification gives (section 9), a FIFO
    queue of calls flushed once, in order, on [resolve()], after which
    calls run directly.

    [system] is the whole client after construction: the client shared
    by the loop and the methods, the loop's phase, the readiness flag,
    the queue, the calls made so far ([invoked], an instrumentation) and
    the calls executed with their replies ([executed]).  [sys_step]
    interleaves user calls with login cycles in any order.  A queued
    call runs to completion when flushed: the model serialises the
    requests the flush starts. *)

From S2P Require Import Prelude JsValue Constants State Validate Promise SubCode Interceptors Network Client Backoff Auth.

(** The methods of [_.omit(methods, ['authenticate', 'verifyToken'])]. *)
Inductive call :=
| CValidate
| CValidateBeneficiary (params : jsval)
| CAddBeneficiary (params : jsval)
| CGetBeneficiary (params : jsval)
| CGetBeneficiaryId (params : jsval)
| CGetBeneficiaries (params : jsval)
| CRemoveBeneficiary (params : jsval)
| CRequestTransfer (params : jsval)
| CGetBalance
| CListTransfers (params : jsval)
| CGetTransfer (params : jsval).

Inductive loop_phase := LoopAt (counter : option Z) (clock : Z) | LoopDone | LoopStuck.

Record system := mkSystem {
  sys_client : client;
  sys_loop : loop_phase;
  sys_ready : bool;
  sys_queue : list call;
  sys_invoked : list call;
  sys_executed : list (call * reply)
}.

(** [_.isUndefined(initialized) ? true : initialized], tested with [!]. *)
Definition is_initialized (initialized : jsval) : bool :=
  match initialized with JUndef => true | v => truthy v end.

(** What the constructor returns: the bare methods, or the buffered model
    with the login loop started. *)
Inductive constructed := Direct (cl : client) | Buffered (s : system).

Definition construct (clientId clientSecret : jsval) (pre post : option hook)
    (initialized axiosConfig : jsval) : constructed :=
  let cl := mkClient (init_state clientId clientSecret pre post) (getNetwork axiosConfig)
                     (mkPState 0 0 []) in
  if is_initialized initialized then Buffered (mkSystem cl (LoopAt None 0) false [] [] [])
  else Direct cl.

Section Ready.
Context `{SubCodeValidator} (guid : nat -> jsval)
        (transport : nat -> jsval -> option string -> tresult).

Definition run_call (c : call) (cl : client) : client * reply :=
  match c with
  | CValidate => validate_method cl
  | CValidateBeneficiary p => validateBeneficiary guid transport p cl
  | CAddBeneficiary p => addBeneficiary guid transport p cl
  | CGetBeneficiary p => getBeneficiary guid transport p cl
  | CGetBeneficiaryId p => getBeneficiaryId guid transport p cl
  | CGetBeneficiaries p => getBeneficiaries guid transport p cl
  | CRemoveBeneficiary p => removeBeneficiary guid transport p cl
  | CRequestTransfer p => requestTransfer guid transport p cl
  | CGetBalance => getBalance guid transport cl
  | CListTransfers p => listTransfers guid transport p cl
  | CGetTransfer p => getTransfer guid transport p cl
  end.

(** Run the calls in order, recording each reply. *)
Fixpoint run_calls (cs : list call) (cl : client) (log : list (call * reply))
  : client * list (call * reply) :=
  match cs with
  | [] => (cl, log)
  | c :: cs' => let '(cl', r) := run_call c cl in run_calls cs' cl' (log ++ [(c, r)])
  end.

(** A call on the model: queued before readiness, run after. *)
Definition invoke (c : call) (s : system) : system :=
  if sys_ready s then
    let '(cl', r) := run_call c (sys_client s) in
    mkSystem cl' (sys_loop s) true (sys_queue s) (sys_invoked s ++ [c]) (sys_executed s ++ [(c, r)])
  else
    mkSystem (sys_client s) (sys_loop s) false (sys_queue s ++ [c]) (sys_invoked s ++ [c])
             (sys_executed s).

(** [resolve()]: readiness, and the queue flushed in order. *)
Definition resolve (s : system) : system :=
  let '(cl', log) := run_calls (sys_queue s) (sys_client s) (sys_executed s) in
  mkSystem cl' LoopDone true [] (sys_invoked s) log.

(** The login cycle scheduled for the loop's current phase. *)
Definition cycle (counter : option Z) (clock : Z) (s : system) : system :=
  let '(cl', d) := resolution guid transport counter (sys_client s) in
  let s' := mkSystem cl' (sys_loop s) (sys_ready s) (sys_queue s) (sys_invoked s) (sys_executed s) in
  match d with
  | Retry next delay =>
      mkSystem cl' (LoopAt (Some next) (clock + delay)) (sys_ready s) (sys_queue s)
               (sys_invoked s) (sys_executed s)
  | Resolve => resolve s'
  | Stall =>
      mkSystem cl' LoopStuck (sys_ready s) (sys_queue s) (sys_invoked s) (sys_executed s)
  end.

Inductive sys_step : system -> system -> Prop :=
| sys_invoke s c : sys_step s (invoke c s)
| sys_cycle s counter clock :
    sys_loop s = LoopAt counter clock -> sys_step s (cycle counter clock s).
End Ready.

(** ** Laws *)

Section ReadyLaws.
Context `{SubCodeValidator} (guid : nat -> jsval)
        (transport : nat -> jsval -> option string -> tresult).

(** The buffered methods never touch [state] or the default header. *)
Lemma run_call_frame c cl :
  c_state (run_call guid transport c cl).1 = c_state cl /\
  c_net (run_call guid transport c cl).1 = c_net cl.
Proof.
  destruct c; simpl; [done| |..];
    unfold validateBeneficiary, addBeneficiary, getBeneficiary, getBeneficiaryId,
      getBeneficiaries, removeBeneficiary, requestTransfer, getBalance, listTransfers,
      getTransfer;
    apply call_method_frame; auto using reply_with_pure, validateBeneficiary_handler_pure.
Qed.

Lemma run_calls_frame cs cl log :
  c_state (run_calls guid transport cs cl log).1 = c_state cl /\
  c_net (run_calls guid transport cs cl log).1 = c_net cl.
Proof.
  revert cl log. induction cs as [|c cs IH]; intros cl log; [done|]. simpl.
  destruct (run_call_frame c cl) as [Hs Hn].
  destruct (run_call guid transport c cl) as [cl' r]. simpl in *.
  destruct (IH cl' (log ++ [(c, r)])) as [Hs' Hn']. split; congruence.
Qed.

(** The flush records the queued calls, in order, after the log. *)
Lemma run_calls_log cs cl log :
  map fst (run_calls guid transport cs cl log).2 = map fst log ++ cs.
Proof.
  revert cl log. induction cs as [|c cs IH]; intros cl log; simpl; [by rewrite app_nil_r|].
  destruct (run_call guid transport c cl) as [cl' r].
  rewrite IH, map_app. simpl. by rewrite <- app_assoc.
Qed.
End ReadyLaws.

(** The order invariant of the buffered model: the calls executed,
    then the queued ones, are the calls made, in order; nothing runs
    before readiness and nothing waits after it. *)
Definition fifo_inv (s : system) : Prop :=
  map fst (sys_executed s) ++ sys_queue s = sys_invoked s /\
  (sys_ready s = false -> sys_executed s = []) /\
  (sys_ready s = true -> sys_queue s = []).

Section Fifo.
Context `{SubCodeValidator} (guid : nat -> jsval)
        (transport : nat -> jsval -> option string -> tresult).

Lemma resolve_fifo s : fifo_inv s -> fifo_inv (resolve guid transport s).
Proof.
  intros (Hord & Hnr & Hr). unfold resolve.
  pose proof (run_calls_log guid transport (sys_queue s) (sys_client s) (sys_executed s)) as Hl.
  destruct (run_calls guid transport (sys_queue s) (sys_client s) (sys_executed s))
    as [cl' log] eqn:E.
  simpl in Hl. unfold fifo_inv; simpl. rewrite app_nil_r, Hl. by repeat split.
Qed.

Lemma sys_step_fifo s s' : sys_step guid transport s s' -> fifo_inv s -> fifo_inv s'.
Proof.
  intros Hs Hinv. destruct Hinv as (Hord & Hnr & Hr). destruct Hs as [s c|s counter clock Hl].
  - unfold invoke. destruct (sys_ready s) eqn:E.
    + assert (Hq : sys_queue s = []) by (apply Hr; done). rewrite Hq in Hord.
      destruct (run_call guid transport c (sys_client s)) as [cl' r]. unfold fifo_inv; simpl.
      rewrite app_nil_r in Hord. rewrite Hq.
      split; [by rewrite app_nil_r, map_app, Hord|]. split; [done|]. by intros _.
    + unfold fifo_inv; simpl. split; [by rewrite app_assoc, Hord|]. split; [by apply Hnr|done].
  - unfold cycle. destruct (resolution guid transport counter (sys_client s)) as [cl' []].
    all: try (unfold fifo_inv; simpl; by auto).
    apply resolve_fifo. by repeat split.
Qed.

Lemma fifo_inv_rtc x y : rtc (sys_step guid transport) x y -> fifo_inv x -> fifo_inv y.
Proof.
  induction 1 as [|x y z Hxy _ IH]; [done|]. intros Hx. apply IH. by eapply sys_step_fifo.
Qed.

End Fifo.

(** The readiness invariant of the buffered model started on state
    [s0]: credentials and hooks are those of [s0]; readiness comes with
    the loop finished, a verified token and [Bearer <token>] as the
    default header; the loop finishes only by becoming ready. *)
Definition ready_inv (s0 : state) (s : system) : Prop :=
  let st := c_state (sys_client s) in
  clientId st = clientId s0 /\ clientSecret st = clientSecret s0 /\
  preHook st = preHook s0 /\ postHook st = postHook s0 /\
  (sys_ready s = true ->
     sys_loop s = LoopDone /\ truthy (token st) = true /\ tokenVerified st = JBool true /\
     authorization (c_net (sys_client s)) = Some ("Bearer " +:+ js_to_string (token st))) /\
  (sys_loop s = LoopDone -> sys_ready s = true).

Section ReadyInv.
Context `{SubCodeValidator} (guid : nat -> jsval)
        (transport : nat -> jsval -> option string -> tresult).

Lemma sys_step_ready s0 s s' :
  sys_step guid transport s s' -> ready_inv s0 s -> ready_inv s0 s'.
Proof.
  intros Hs (E1 & E2 & E3 & E4 & Hrd & Hdone). destruct Hs as [s c|s counter clock Hl].
  - unfold invoke. destruct (sys_ready s) eqn:Er.
    + destruct (run_call_frame guid transport c (sys_client s)) as [Hfs Hfn].
      destruct (run_call guid transport c (sys_client s)) as [cl' r].
      simpl in Hfs, Hfn. unfold ready_inv; simpl. rewrite Hfs, Hfn.
      destruct (Hrd eq_refl) as (? & ? & ? & ?). by repeat split.
    + unfold ready_inv; simpl. repeat split; auto; by intros.
  - assert (Hnr : sys_ready s = false)
      by (destruct (sys_ready s) eqn:Er; [|done]; rewrite Hl in Hrd; by destruct (Hrd eq_refl)).
    pose proof (login_series_cases guid transport (sys_client s)) as Heff.
    pose proof (login_series_ok_header guid transport (sys_client s)) as Hhd.
    destruct (cycle_effect_frame _ _ _ Heff) as (F1 & F2 & F3 & F4).
    unfold cycle, resolution.
    destruct (login_series guid transport (sys_client s)) as [cl' []]; simpl in *;
      [|unfold ready_inv; simpl; rewrite Hnr; repeat split; intros; congruence..].
    unfold resolve. simpl.
    destruct (run_calls_frame guid transport (sys_queue s) cl' (sys_executed s)) as [Hfs Hfn].
    destruct (run_calls guid transport (sys_queue s) cl' (sys_executed s)) as [cl'' log].
    simpl in *. unfold ready_inv; simpl. rewrite Hfs, Hfn.
    destruct Heff as [[_ [=]]|[(tok & _ & _ & [=])|(tok & Ht & Hst & _)]].
    rewrite Hst in F1, F2, F3, F4 |- *. simpl in *.
    repeat split; try congruence. rewrite Hhd by done. by rewrite Hst.
Qed.

Lemma ready_inv_reach s0 x y :
  rtc (sys_step guid transport) x y -> ready_inv s0 x -> ready_inv s0 y.
Proof.
  induction 1 as [|x y z Hxy _ IH]; [done|]. intros Hx. apply IH. by eapply sys_step_ready.
Qed.

(** C19: once the buffered client is ready, whatever the interleaving
    of calls and login cycles before and after, [validate()] reports
    [TOKEN_VERIFIED] (for truthy credentials) and the default header is
    [Bearer <token>] with the stored token. *)
Theorem ready_client_verified id secret pre post initialized axiosConfig s0 s :
  construct id secret pre post initialized axiosConfig = Buffered s0 ->
  truthy id = true -> truthy secret = true ->
  rtc (sys_step guid transport) s0 s -> sys_ready s = true ->
  validate (Some (c_state (sys_client s))) = JStr (status_name TOKEN_VERIFIED) /\
  authorization (c_net (sys_client s)) =
  Some ("Bearer " +:+ js_to_string (token (c_state (sys_client s)))).
Proof.
  unfold construct. destruct (is_initialized initialized); intros [= <-] Hid Hsec Hr Hready.
  assert (Hinv : ready_inv (init_state id secret pre post) s).
  { eapply ready_inv_reach; [exact Hr|]. by repeat split. }
  destruct Hinv as (E1 & E2 & _ & _ & Hrd & _).
  destruct (Hrd Hready) as (_ & Ht & Hv & Ha). split; [|done].
  simpl in E1, E2. apply validate_token_verified; [rewrite E1|rewrite E2|..]; done.
Qed.
End ReadyInv.

(** ** Progress of the buffered client *)

(** The step relation of the buffered client restricted to its login
    cycles simulates the login loop of [Auth]. *)
Section Progress.
Context `{SubCodeValidator} (guid : nat -> jsval)
        (transport : nat -> jsval -> option string -> tresult).
Hypothesis guid_truthy : forall n, truthy (guid n) = true.

Lemma stalled_final cl l : rtc (loop_step guid transport) (LStalled cl) l -> l = LStalled cl.
Proof. intros Hr. inversion Hr as [|? ? ? Hs]; [done|]. inversion Hs. Qed.

(** Each run of the loop to readiness is matched by login cycles of the
    system that leave it ready, with no new call made. *)
Lemma sys_follows_loop l l' :
  rtc (loop_step guid transport) l l' ->
  forall s counter clock cl' t,
  l = LRunning counter (sys_client s) clock -> sys_loop s = LoopAt counter clock ->
  l' = LReady cl' t ->
  exists s', rtc (sys_step guid transport) s s' /\ sys_ready s' = true /\
             sys_invoked s' = sys_invoked s.
Proof.
  induction 1 as [x|x y z Hxy Hyz IH]; intros s counter clock cl' t Hx Hl Hz; subst x;
    [done|subst z].
  inversion Hxy as [? ? ? cl1 next delay E|? ? ? cl1 E|? ? ? cl1 E]; subst.
  - destruct (IH (cycle guid transport counter clock s) (Some next) (clock + delay)%Z cl' t)
      as (s' & Hr & Hrd & Hinv); [by unfold cycle; rewrite E|by unfold cycle; rewrite E|done|].
    exists s'. split; [eapply rtc_l; [by constructor|exact Hr]|]. split; [done|].
    rewrite Hinv. unfold cycle. by rewrite E.
  - exists (cycle guid transport counter clock s). split; [by apply rtc_once; constructor|].
    unfold cycle. rewrite E. unfold resolve. by destruct (run_calls _ _ _ _ _).
  - by apply stalled_final in Hyz.
Qed.

(** With answering hooks and a transport that never hangs, no cycle
    stalls. *)
Lemma sys_step_not_stuck s s' :
  sys_step guid transport s s' ->
  hooks_answer (c_state (sys_client s)) -> (forall n c a, transport n c a <> THang) ->
  sys_loop s <> LoopStuck -> sys_loop s' <> LoopStuck.
Proof.
  intros Hs Hh Hhang Hl. destruct Hs as [s c|s counter clock E].
  - unfold invoke. by destruct (sys_ready s), (run_call guid transport c (sys_client s)).
  - destruct (cycle_progress guid transport (sys_client s) Hh Hhang) as [Hns _].
    unfold cycle, resolution.
    destruct (login_series guid transport (sys_client s)) as [cl' []]; simpl in *; try done.
    unfold resolve. by destruct (run_calls guid transport _ _ _).
Qed.

Lemma not_stuck_reach s0 x y :
  rtc (sys_step guid transport) x y ->
  ready_inv s0 x -> hooks_answer s0 -> (forall n c a, transport n c a <> THang) ->
  sys_loop x <> LoopStuck -> sys_loop y <> LoopStuck.
Proof.
  induction 1 as [|x y z Hxy _ IH]; intros Hinv Hh Hhang Hx; [done|].
  apply IH; [by eapply sys_step_ready|done|done|].
  eapply sys_step_not_stuck; [exact Hxy| |done|done].
  destruct Hinv as (_ & _ & E3 & E4 & _). unfold hooks_answer. by rewrite E3, E4.
Qed.

(** C18: liveness of the buffered client.  If the hooks given to the
    constructor always answer, the transport never hangs, and from the
    [N]-th request on the server answers every request with an accepted
    body holding a token, then from any state the client reaches, the
    login cycles lead to readiness, and by then every call made so far
    has been executed, in the order made. *)
Theorem buffered_calls_eventually_run id secret pre post initialized axiosConfig s0 s N code gs :
  construct id secret pre post initialized axiosConfig = Buffered s0 ->
  hooks_answer (init_state id secret pre post) -> (forall n c a, transport n c a <> THang) ->
  validateSubCode ((JObj gs) .@ "subCode") = true ->
  truthy (js_get_path (JObj gs) ["data"; "token"]) = true ->
  (forall n c a, N <= n -> transport n c a = TResp code (JObj gs)) ->
  rtc (sys_step guid transport) s0 s ->
  exists s', rtc (sys_step guid transport) s s' /\ sys_ready s' = true /\
             map fst (sys_executed s') = sys_invoked s.
Proof.
  unfold construct. destruct (is_initialized initialized); intros [= <-] Hh Hhang Hsub Htok Hgood Hr.
  set (st0 := init_state id secret pre post).
  assert (Hinv0 : ready_inv st0 (mkSystem (mkClient st0 (getNetwork axiosConfig) (mkPState 0 0 []))
                                  (LoopAt None 0) false [] [] [])) by (by repeat split).
  pose proof (ready_inv_reach guid transport st0 _ _ Hr Hinv0) as Hinv.
  pose proof (fifo_inv_rtc guid transport _ _ Hr ltac:(by repeat split)) as Hfifo.
  pose proof (not_stuck_reach st0 _ _ Hr Hinv0 Hh Hhang ltac:(done)) as Hns.
  assert (Hhs : hooks_answer (c_state (sys_client s))).
  { destruct Hinv as (_ & _ & E3 & E4 & _). unfold hooks_answer. by rewrite E3, E4. }
  destruct (sys_loop s) as [counter clock| |] eqn:Hl; [|..|done].
  - destruct (loop_eventually_ready guid transport guid_truthy N code gs counter (sys_client s) clock
                Hhs Hhang Hsub Htok Hgood) as (cl' & t & Hloop).
    destruct (sys_follows_loop _ _ Hloop s counter clock cl' t eq_refl Hl eq_refl)
      as (s' & Hr' & Hrd & Hinvk).
    exists s'. split; [done|]. split; [done|].
    destruct (fifo_inv_rtc guid transport _ _ Hr' Hfifo) as (Hord & _ & Hq).
    rewrite Hq, app_nil_r in Hord by done. by rewrite Hord.
  - destruct Hinv as (_ & _ & _ & _ & _ & Hdone). exists s. split; [done|].
    split; [by apply Hdone|]. destruct Hfifo as (Hord & _ & Hq).
    rewrite Hq, app_nil_r in Hord by (by apply Hdone). done.
Qed.
End Progress.
