(* ===== verification/Scenarios.v ===== *)
(** * Concrete runs of the client

    A fixed guid supply, a fixed state and transports that answer with
    the provider's documented bodies; the witnesses below instantiate
    the theorems of [Network] and [Client] on them. *)

From S2P Require Import Prelude JsValue Constants State Validate Promise SubCode Interceptors Network Concurrent PipelineSpec Rejections Client.

Definition demo_guid (n : nat) : jsval := JStr ("guid-" +:+ pretty n).

Lemma demo_guid_truthy n : truthy (demo_guid n) = true.
Proof. reflexivity. Qed.

Lemma demo_guid_inj : Inj eq eq demo_guid.
Proof. intros n m [= H]. by apply (inj pretty). Qed.

Definition token_body : js_fields :=
  [("status", JStr "SUCCESS"); ("subCode", JStr "200");
   ("message", JStr "Token generated");
   ("data", JObj [("token", JStr "tkn"); ("expiry", JNum 1700000000)])].

Definition no_token_body : js_fields :=
  [("status", JStr "SUCCESS"); ("subCode", JStr "200"); ("data", JObj [])].

Definition denied_body : js_fields :=
  [("status", JStr "ERROR"); ("subCode", JStr "403"); ("message", JStr "Invalid clientId")].

(** A transport that always answers [body]. *)
Definition const_transport (code : Z) (body : jsval) (n : nat) (cfg : jsval) (auth : option string)
  : tresult := TResp code body.

Definition demo_state : state := init_state (JStr "CF_ID") (JStr "CF_SECRET") None None.

Definition blocking_hook : hook := fun _ => Some (JStr "blocked").

Definition veto_state : state :=
  init_state (JStr "CF_ID") (JStr "CF_SECRET") (Some blocking_hook) None.

Definition demo_net : network := getNetwork JUndef.

Definition demo_ps : pstate := mkPState 0 0 [].

Definition demo_client : client := mkClient demo_state demo_net demo_ps.

Definition token_transport := const_transport 200 (JObj token_body).
Definition no_token_transport := const_transport 200 (JObj no_token_body).
Definition denied_transport := const_transport 200 (JObj denied_body).
Definition empty_transport := const_transport 204 (JStr "").

Definition demo_id : jsval :=
  request_id demo_guid (mergeConfig (defaults demo_net) getBalance_config) demo_ps.

(** ** Witnesses *)

Lemma request_correlation_witness :
  (forall n, truthy (demo_guid n) = true) /\
  (forall inv, hook_passes (preHook demo_state) inv) /\
  (forall c a code b, token_transport (ps_sent demo_ps) c a = TResp code b -> body_ok b) /\
  ((exists tr c,
      ps_trace (request demo_guid token_transport demo_state demo_net getBalance_config demo_ps).1
      = ps_trace demo_ps ++ tr /\ EvSend c (authorization demo_net) ∈ tr /\
      c .@ "networkId" = demo_id) /\
   settled_carries
     (request demo_guid token_transport demo_state demo_net getBalance_config demo_ps).2 demo_id).
Proof.
  split; [exact demo_guid_truthy|]. split; [intros; exact I|].
  split; [intros c a code b [= <- <-]; exact I|].
  apply (request_correlation demo_guid token_transport demo_guid_truthy);
    [intros; exact I | intros c a code b [= <- <-]; exact I].
Defined.

Lemma prehook_veto_not_sent_witness :
  preHook veto_state = Some blocking_hook /\
  (forall inv, blocking_hook inv = Some (JStr "blocked")) /\
  truthy (JStr "blocked") = true /\
  (forall inv, hook_passes (postHook veto_state) inv) /\
  truthy ((mergeConfig (defaults demo_net) getBalance_config) .@ "networkId") = false /\
  request demo_guid token_transport veto_state demo_net getBalance_config demo_ps =
  (mkPState 2 0
     ([] ++ [EvHook PreSide
               (mkInvocation JUndef
                  (js_set (mergeConfig (defaults demo_net) getBalance_config) "networkId" (demo_guid 0))
                  (js_pick (js_set (mergeConfig (defaults demo_net) getBalance_config)
                              "networkId" (demo_guid 0)) request_param_keys))]
         ++ hook_events PostSide (postHook veto_state)
              (mkInvocation (hook_error (JStr "blocked") (demo_guid 1)) JUndef JUndef)),
   Rejected (hook_error (JStr "blocked") (demo_guid 1))).
Proof.
  do 4 (split; [reflexivity || (intros; exact I) ||
               (intros; reflexivity) |]).
  split; [reflexivity|].
  exact (prehook_veto_not_sent demo_guid token_transport veto_state
           blocking_hook (JStr "blocked") demo_net getBalance_config demo_ps
           eq_refl (fun _ => eq_refl) eq_refl (fun _ => I) eq_refl).
Defined.

Lemma request_rejects_bad_subcode_witness :
  (forall inv, hook_passes (preHook demo_state) inv) /\
  (forall inv, hook_passes (postHook demo_state) inv) /\
  (forall c a, denied_transport (ps_sent demo_ps) c a = TResp 200 (JObj denied_body)) /\
  validateSubCode ((JObj denied_body) .@ "subCode") = false /\
  ((request demo_guid denied_transport demo_state demo_net getBalance_config demo_ps).2 =
   Rejected (JObj (fields_set "networkId" demo_id denied_body)) /\
   exists tr r, r .@ "data" = JObj (fields_set "networkId" demo_id denied_body) /\
     ps_trace (request demo_guid denied_transport demo_state demo_net getBalance_config demo_ps).1 =
     ps_trace demo_ps ++ tr ++ hook_events PostSide (postHook demo_state)
       (mkInvocation (JObj (fields_set "networkId" demo_id denied_body)) r JNull)).
Proof.
  split; [intros; exact I|]. split; [intros; exact I|].
  split; [intros; reflexivity|]. split; [reflexivity|].
  exact (request_rejects_bad_subcode demo_guid denied_transport demo_guid_truthy demo_state demo_net
           getBalance_config demo_ps 200 denied_body (fun _ => I) (fun _ => I) (fun _ _ => eq_refl)
           eq_refl).
Defined.

Lemma request_accepts_good_subcode_witness :
  (forall inv, hook_passes (preHook demo_state) inv) /\
  (forall inv, hook_passes (postHook demo_state) inv) /\
  (forall c a, token_transport (ps_sent demo_ps) c a = TResp 200 (JObj token_body)) /\
  validateSubCode ((JObj token_body) .@ "subCode") = true /\
  (request demo_guid token_transport demo_state demo_net getBalance_config demo_ps).2 =
  Fulfilled (js_set (js_set (axios_response
                               (js_set (mergeConfig (defaults demo_net) getBalance_config)
                                       "networkId" demo_id) 200 (JObj token_body))
                            "networkId" demo_id)
                    "data" (JObj (fields_set "networkId" demo_id token_body))).
Proof.
  split; [intros; exact I|]. split; [intros; exact I|].
  split; [intros; reflexivity|]. split; [reflexivity|].
  apply (request_accepts_good_subcode demo_guid token_transport demo_guid_truthy _ _ _ _ 200);
    [intros; exact I | intros; exact I | intros; reflexivity | reflexivity].
Defined.

Lemma request_falsy_body_succeeds_witness :
  (forall inv, hook_passes (preHook demo_state) inv) /\
  (forall inv, hook_passes (postHook demo_state) inv) /\
  (forall c a, empty_transport (ps_sent demo_ps) c a = TResp 204 (JStr "")) /\
  truthy (JStr "") = false /\
  (validateSubCode ((JStr "") .@ "subCode") = false /\
   exists r, (request demo_guid empty_transport demo_state demo_net getBalance_config demo_ps).2
             = Fulfilled r /\ r .@ "data" = JStr "").
Proof.
  split; [intros; exact I|]. split; [intros; exact I|].
  split; [intros; reflexivity|]. split; [reflexivity|].
  apply (request_falsy_body_succeeds demo_guid empty_transport demo_guid_truthy _ _ _ _ 204);
    [intros; exact I | intros; exact I | intros; reflexivity | reflexivity].
Defined.

Lemma authenticate_stores_token_witness :
  answers token_transport demo_client 200 token_body /\
  validateSubCode ((JObj token_body) .@ "subCode") = true /\
  truthy (js_get_path (JObj token_body) ["data"; "token"]) = true /\
  ((authenticate demo_guid token_transport demo_client).2 = Reply JUndef JUndef /\
   c_state (authenticate demo_guid token_transport demo_client).1
   = set_token demo_state (JStr "tkn") /\
   authorization (c_net (authenticate demo_guid token_transport demo_client).1)
   = Some ("Bearer " +:+ "tkn")).
Proof.
  assert (Hans : answers token_transport demo_client 200 token_body)
    by (split; [intros; exact I | split; [intros; exact I | intros; reflexivity]]).
  split; [exact Hans|]. split; [reflexivity|]. split; [reflexivity|].
  exact (authenticate_stores_token demo_guid token_transport demo_guid_truthy demo_client 200
           token_body Hans eq_refl eq_refl).
Defined.

Lemma authenticate_without_token_witness :
  answers no_token_transport demo_client 200 no_token_body /\
  validateSubCode ((JObj no_token_body) .@ "subCode") = true /\
  truthy (js_get_path (JObj no_token_body) ["data"; "token"]) = false /\
  ((authenticate demo_guid no_token_transport demo_client).2
   = Reply (JStr "No token returned") JUndef /\
   c_state (authenticate demo_guid no_token_transport demo_client).1 = demo_state /\
   c_net (authenticate demo_guid no_token_transport demo_client).1 = demo_net).
Proof.
  assert (Hans : answers no_token_transport demo_client 200 no_token_body)
    by (split; [intros; exact I | split; [intros; exact I | intros; reflexivity]]).
  split; [exact Hans|]. split; [reflexivity|]. split; [reflexivity|].
  exact (authenticate_without_token demo_guid no_token_transport demo_guid_truthy demo_client 200
           no_token_body Hans eq_refl eq_refl).
Defined.

Lemma verifyToken_marks_verified_witness :
  answers token_transport demo_client 200 token_body /\
  validateSubCode ((JObj token_body) .@ "subCode") = true /\
  ((verifyToken demo_guid token_transport demo_client).2 = Reply JUndef JUndef /\
   c_state (verifyToken demo_guid token_transport demo_client).1 = set_token_verified demo_state /\
   c_net (verifyToken demo_guid token_transport demo_client).1 = demo_net).
Proof.
  assert (Hans : answers token_transport demo_client 200 token_body)
    by (split; [intros; exact I | split; [intros; exact I | intros; reflexivity]]).
  split; [exact Hans|]. split; [reflexivity|].
  exact (verifyToken_marks_verified demo_guid token_transport demo_guid_truthy demo_client 200
           token_body Hans eq_refl).
Defined.

(** A post-hook that reports an error for every response. *)
Definition post_veto_state : state :=
  init_state (JStr "CF_ID") (JStr "CF_SECRET") None (Some blocking_hook).

Lemma posthook_error_supersedes_witness :
  (forall inv, hook_passes (preHook post_veto_state) inv) /\
  postHook post_veto_state = Some blocking_hook /\
  (forall inv, blocking_hook inv = Some (JStr "blocked")) /\
  truthy (JStr "blocked") = true /\
  (forall c a, token_transport (ps_sent demo_ps) c a <> THang) /\
  (forall c a code b, token_transport (ps_sent demo_ps) c a = TResp code b -> body_ok b) /\
  (request demo_guid token_transport post_veto_state demo_net getBalance_config demo_ps).2 =
  Rejected (hook_error (JStr "blocked") demo_id).
Proof.
  split; [intros; exact I|]. split; [reflexivity|]. split; [intros; reflexivity|].
  split; [reflexivity|]. split; [intros c a; discriminate|].
  split; [intros c a code b [= <- <-]; exact I|].
  apply (posthook_error_supersedes demo_guid token_transport demo_guid_truthy post_veto_state
           blocking_hook (JStr "blocked"));
    [intros; exact I | reflexivity | intros; reflexivity | reflexivity
    | intros c a; discriminate | intros c a code b [= <- <-]; exact I].
Defined.

(** ** Two calls in flight *)

(** [getBalance] and [verifyToken] called at once; their stages
    interleave, and the second call is answered first. *)
Definition two_calls : conc := mkConc demo_ps [PStart getBalance_config; PStart verifyToken_config].

Definition demo_schedule : list nat := [0; 1; 1; 0; 1; 0; 1; 0].

Definition two_calls_run : conc :=
  conc_run demo_guid token_transport demo_state demo_net demo_schedule two_calls.

Lemma token_transport_body_ok k c a code b :
  token_transport k c a = TResp code b -> body_ok b.
Proof. intros [= <- <-]. exact I. Qed.

Lemma conc_correlation_witness :
  exists c s,
    rtc (conc_step demo_guid token_transport demo_state demo_net) two_calls two_calls_run /\
    cc_reqs two_calls_run !! 0 = Some (PDone (Some c) s) /\
    (settled_carries s (c .@ "networkId") /\
     EvSend c (authorization demo_net) ∈ ps_trace (cc_ps two_calls_run)).
Proof.
  assert (Hr : rtc (conc_step demo_guid token_transport demo_state demo_net) two_calls two_calls_run)
    by apply conc_run_reach.
  do 2 eexists. split; [exact Hr|]. split; [vm_compute; reflexivity|].
  exact (conc_correlation demo_guid token_transport demo_state demo_net demo_guid_truthy
           token_transport_body_ok demo_ps [getBalance_config; verifyToken_config] two_calls_run 0 _ _
           Hr eq_refl).
Defined.

Lemma conc_ids_distinct_witness :
  exists p q x,
    Forall (fresh_cfg demo_net) [getBalance_config; verifyToken_config] /\
    rtc (conc_step demo_guid token_transport demo_state demo_net) two_calls two_calls_run /\
    cc_reqs two_calls_run !! 0 = Some p /\ cc_reqs two_calls_run !! 1 = Some q /\
    phase_id p = Some x /\ phase_id q <> Some x.
Proof.
  assert (Hr : rtc (conc_step demo_guid token_transport demo_state demo_net) two_calls two_calls_run)
    by apply conc_run_reach.
  assert (Hf : Forall (fresh_cfg demo_net) [getBalance_config; verifyToken_config])
    by (repeat constructor).
  do 3 eexists. split; [exact Hf|]. split; [exact Hr|].
  split; [vm_compute; reflexivity|]. split; [vm_compute; reflexivity|].
  split; [vm_compute; reflexivity|].
  exact (conc_ids_distinct demo_guid token_transport demo_state demo_net demo_ps
           [getBalance_config; verifyToken_config] two_calls_run 0 1 _ _ _
           demo_guid_inj Hf Hr ltac:(lia) eq_refl eq_refl eq_refl).
Defined.

(** An accepted answer whose [data] is [null]. *)
Definition null_data_body : js_fields :=
  [("status", JStr "SUCCESS"); ("subCode", JStr "200"); ("data", JNull)].

Definition null_data_transport := const_transport 200 (JObj null_data_body).

Definition bank_details : jsval :=
  JObj [("bankAccount", JStr "026291800001191"); ("ifsc", JStr "YESB0000262")].

Lemma validateBeneficiary_reply_witness :
  answers null_data_transport demo_client 200 null_data_body /\
  validateSubCode ((JObj null_data_body) .@ "subCode") = true /\
  (validateBeneficiary demo_guid null_data_transport bank_details demo_client).2 =
  Reply js_type_error JUndef.
Proof.
  assert (Hans : answers null_data_transport demo_client 200 null_data_body)
    by (split; [intros; exact I | split; [intros; exact I | intros; reflexivity]]).
  split; [exact Hans|]. split; [reflexivity|].
  exact (validateBeneficiary_reply demo_guid null_data_transport demo_guid_truthy bank_details
           demo_client 200 null_data_body Hans eq_refl).
Defined.

(** ** The pipeline contract when the post-hook fails an accepted call *)

Lemma pipeline_refines_spec_witness :
  hook_answers (preHook post_veto_state) (AErr JUndef) /\
  hook_answers (postHook post_veto_state) (AErr (JStr "blocked")) /\
  (forall c a, token_transport (ps_sent demo_ps) c a = TResp 200 (JObj token_body)) /\
  plain_answer (TResp 200 (JObj token_body)) /\
  vetoes (AErr JUndef) = false /\
  (vetoes (AErr (JStr "blocked")) = true ->
   transport_error validateSubCode (TResp 200 (JObj token_body)) = false) /\
  observe (request demo_guid token_transport post_veto_state demo_net getBalance_config demo_ps).2 =
  OHookError (JStr "blocked") demo_id None.
Proof.
  assert (Hv : vetoes (AErr (JStr "blocked")) = true ->
               transport_error validateSubCode (TResp 200 (JObj token_body)) = false)
    by reflexivity.
  assert (Hpost : hook_answers (postHook post_veto_state) (AErr (JStr "blocked")))
    by (intros inv; reflexivity).
  split; [reflexivity|]. split; [exact Hpost|]. split; [intros; reflexivity|].
  split; [split; reflexivity|]. split; [reflexivity|]. split; [exact Hv|].
  exact (pipeline_refines_spec demo_guid token_transport demo_guid_truthy post_veto_state demo_net
           getBalance_config demo_ps (AErr JUndef) (AErr (JStr "blocked")) (TResp 200 (JObj token_body))
           eq_refl Hpost (fun _ _ => eq_refl) (conj eq_refl eq_refl) eq_refl Hv).
Defined.

(** The error a call answered with [denied_body] rejects with. *)
Definition denied_rejection : jsval :=
  match (request demo_guid denied_transport demo_state demo_net getBalance_config demo_ps).2 with
  | Rejected e => e
  | _ => JUndef
  end.

Lemma request_rejection_typed_witness :
  (request demo_guid denied_transport demo_state demo_net getBalance_config demo_ps).2 = Rejected denied_rejection /\
  rejection_ty denied_rejection.
Proof.
  assert (E : (request demo_guid denied_transport demo_state demo_net getBalance_config demo_ps).2 =
              Rejected denied_rejection) by (vm_compute; reflexivity).
  split; [exact E|].
  exact (request_rejection_typed demo_guid denied_transport demo_state demo_net getBalance_config demo_ps _ E).
Defined.

(** A client created with [axiosConfig = { timeout: 0 }], after login. *)
Definition no_timeout_net : network :=
  set_authorization (getNetwork (JObj [("timeout", JNum 0)])) (JStr "tkn").

Lemma request_timeout_witness :
  defaults no_timeout_net = defaults (getNetwork (JObj [("timeout", JNum 0)])) /\
  (forall gs, JObj [("timeout", JNum 0)] = JObj gs -> NoDup gs.*1) /\
  (forall cs, getBalance_config = JObj cs -> "timeout" ∉ cs.*1) /\
  exists c,
    (addRequestNetworkTracking demo_guid (preHookInterceptor demo_state)
       (mergeConfig (defaults no_timeout_net) getBalance_config) demo_ps).2 = Fulfilled c /\
    c .@ "timeout" = JNum 0.
Proof.
  assert (Hnd : forall gs, JObj [("timeout", JNum 0)] = JObj gs -> NoDup gs.*1)
    by (intros gs [= <-]; apply NoDup_singleton).
  assert (Hcfg : forall cs, getBalance_config = JObj cs -> "timeout" ∉ cs.*1)
    by (intros cs [= <-]; simpl; rewrite list_elem_of_singleton; discriminate).
  split; [reflexivity|]. split; [exact Hnd|]. split; [exact Hcfg|].
  eexists. split; [vm_compute; reflexivity|].
  exact (request_timeout demo_guid demo_state no_timeout_net _ getBalance_config demo_ps _
           eq_refl Hnd Hcfg eq_refl).
Defined.

(** ** A plain-text answer loses the correlation id *)

Definition html_transport := const_transport 502 (JStr "<html>Bad Gateway</html>").

Lemma request_string_body_untagged_witness :
  (forall inv, hook_passes (preHook demo_state) inv) /\
  (forall inv, hook_passes (postHook demo_state) inv) /\
  (forall c a, html_transport (ps_sent demo_ps) c a = TResp 502 (JStr "<html>Bad Gateway</html>")) /\
  truthy (JStr "<html>Bad Gateway</html>") = true /\ is_object (JStr "<html>Bad Gateway</html>") = false /\
  (request demo_guid html_transport demo_state demo_net getBalance_config demo_ps).2
  = Rejected (JStr "<html>Bad Gateway</html>") /\
  (JStr "<html>Bad Gateway</html>") .@ "networkId" = JUndef.
Proof.
  do 2 (split; [intros; exact I|]). split; [intros; reflexivity|].
  do 2 (split; [reflexivity|]).
  exact (request_string_body_untagged demo_guid html_transport demo_guid_truthy demo_state demo_net getBalance_config
           demo_ps 502 (JStr "<html>Bad Gateway</html>") (fun _ => I) (fun _ => I)
           (fun _ _ => eq_refl) eq_refl eq_refl).
Defined.
