(* ===== verification/Runs.v ===== *)
(** * Concrete runs of the login loop and of the buffered client

    Witnesses for the theorems of [Backoff], [Auth], [Ready] and the
    response-handling theorems of [Client], on the data of [Scenarios]:
    a transport that fails its first four requests and then answers
    with a token, one that always fails, and a client built by
    [construct] on which two methods are called before the first login
    cycle. *)

From S2P Require Import Prelude JsValue Constants State Validate Promise SubCode Interceptors Network Client Backoff Auth Ready Concurrent TestScript ScriptRun Scenarios.

(** Connection resets for the first [k] requests, then the token body. *)
Definition flaky_transport (k : nat) (n : nat) (cfg : jsval) (auth : option string) : tresult :=
  if Nat.ltb n k then TFail "ECONNRESET" else TResp 200 (JObj token_body).

Definition down_transport (n : nat) (cfg : jsval) (auth : option string) : tresult :=
  TFail "ECONNREFUSED".

(** The client the loop of a good transport ends with. *)
Definition demo_logged_in : client :=
  (resolution demo_guid token_transport None demo_client).1.

(** The buffered model, two calls made, then the first login cycle. *)
Definition demo_sys0 : system :=
  mkSystem demo_client (LoopAt None 0) false [] [] [].

Definition demo_sys : system :=
  cycle demo_guid token_transport None 0 (invoke demo_guid token_transport CGetBalance
    (invoke demo_guid token_transport CValidate demo_sys0)).

Lemma demo_construct :
  construct (JStr "CF_ID") (JStr "CF_SECRET") None None JUndef JUndef = Buffered demo_sys0.
Proof. reflexivity. Qed.

Lemma demo_sys_reach : rtc (sys_step demo_guid token_transport) demo_sys0 demo_sys.
Proof.
  eapply rtc_l; [apply sys_invoke|]. eapply rtc_l; [apply sys_invoke|].
  eapply rtc_l; [by apply sys_cycle|]. apply rtc_refl.
Qed.

Lemma demo_loop_reach :
  rtc (loop_step demo_guid token_transport) (loop_init demo_client) (LReady demo_logged_in 0).
Proof. eapply rtc_l; [apply step_resolve; reflexivity|]. apply rtc_refl. Qed.

Lemma demo_hooks_answer : hooks_answer demo_state.
Proof. split; intros; exact I. Qed.

(** ** Witnesses *)

Lemma backoff_delay_doubles_witness :
  (1 <= 3 <= 21)%Z /\ backoff_delay 1 = 1000%Z /\ backoff_delay (3 + 1) = (2 * backoff_delay 3)%Z.
Proof. split; [lia|]. apply backoff_delay_doubles. lia. Defined.

Lemma backoff_delay_collapses_witness : (23 <= 23)%Z /\ (1 <= backoff_delay 23 <= 9)%Z.
Proof. split; [lia|]. apply backoff_delay_collapses. lia. Defined.

Lemma loop_invariant_witness :
  state_wf demo_state /\
  rtc (loop_step demo_guid token_transport) (loop_init demo_client) (LReady demo_logged_in 0) /\
  loop_inv demo_state (LReady demo_logged_in 0).
Proof.
  assert (Hwf : state_wf demo_state) by (intros H; discriminate H).
  split; [exact Hwf|]. split; [exact demo_loop_reach|].
  exact (loop_invariant demo_guid token_transport demo_client _ Hwf demo_loop_reach).
Defined.

Lemma login_cycle_two_requests_witness :
  hooks_answer (c_state demo_client) /\
  (forall c a, token_transport (ps_sent (c_ps demo_client)) c a = TResp 200 (JObj token_body)) /\
  (forall c a, token_transport (S (ps_sent (c_ps demo_client))) c a = TResp 200 (JObj token_body)) /\
  ((resolution demo_guid token_transport None demo_client).2 = Resolve /\
   ps_sent (c_ps (resolution demo_guid token_transport None demo_client).1) = 2 /\
   (exists tr c1 c2,
      ps_trace (c_ps (resolution demo_guid token_transport None demo_client).1) = [] ++ tr /\
      sends tr = [(c1, None); (c2, Some ("Bearer " +:+ "tkn"))] /\
      c1 .@ "url" = URLS .@ "AUTHENTICATE" /\ c2 .@ "url" = URLS .@ "VERIFY_TOKEN") /\
   validate (Some (c_state (resolution demo_guid token_transport None demo_client).1)) =
   JStr (status_name TOKEN_VERIFIED)).
Proof.
  split; [exact demo_hooks_answer|]. split; [reflexivity|]. split; [reflexivity|].
  exact (login_cycle_two_requests demo_guid token_transport demo_guid_truthy None demo_client 200
           token_body demo_hooks_answer eq_refl eq_refl eq_refl eq_refl
           (fun _ _ => eq_refl) (fun _ _ => eq_refl)).
Defined.

(** Two calls queued on a client whose first four requests fail. *)
Definition flaky_queued : system :=
  invoke demo_guid (flaky_transport 4) CGetBalance
    (invoke demo_guid (flaky_transport 4) CValidate demo_sys0).

Lemma flaky_queued_reach : rtc (sys_step demo_guid (flaky_transport 4)) demo_sys0 flaky_queued.
Proof. eapply rtc_l; [apply sys_invoke|]. eapply rtc_l; [apply sys_invoke|]. apply rtc_refl. Qed.

Lemma buffered_calls_eventually_run_witness :
  construct (JStr "CF_ID") (JStr "CF_SECRET") None None JUndef JUndef = Buffered demo_sys0 /\
  hooks_answer demo_state /\
  (forall n c a, flaky_transport 4 n c a <> THang) /\
  (forall n c a, (4 <= n)%nat -> flaky_transport 4 n c a = TResp 200 (JObj token_body)) /\
  rtc (sys_step demo_guid (flaky_transport 4)) demo_sys0 flaky_queued /\
  exists s', rtc (sys_step demo_guid (flaky_transport 4)) flaky_queued s' /\
             sys_ready s' = true /\ map fst (sys_executed s') = [CValidate; CGetBalance].
Proof.
  assert (Hh : forall n c a, flaky_transport 4 n c a <> THang)
    by (intros n c a; unfold flaky_transport; by destruct (Nat.ltb n 4)).
  assert (Hg : forall n c a, (4 <= n)%nat -> flaky_transport 4 n c a = TResp 200 (JObj token_body))
    by (intros n c a Hn; unfold flaky_transport; by rewrite (proj2 (Nat.ltb_ge n 4) Hn)).
  split; [exact demo_construct|]. split; [exact demo_hooks_answer|].
  split; [exact Hh|]. split; [exact Hg|]. split; [exact flaky_queued_reach|].
  exact (buffered_calls_eventually_run demo_guid (flaky_transport 4) demo_guid_truthy
           _ _ _ _ _ _ _ _ 4 200 token_body demo_construct demo_hooks_answer Hh eq_refl eq_refl Hg
           flaky_queued_reach).
Defined.

Lemma loop_status_monotone_witness :
  rtc (loop_step demo_guid token_transport) (loop_init demo_client) (LReady demo_logged_in 0) /\
  status_rank (status_of (c_state (loop_client (loop_init demo_client)))) <=
  status_rank (status_of (c_state (loop_client (LReady demo_logged_in 0)))).
Proof.
  split; [exact demo_loop_reach|].
  exact (loop_status_monotone demo_guid token_transport _ _ demo_loop_reach).
Defined.

Lemma loop_failing_schedule_witness :
  hooks_answer (c_state demo_client) /\
  (forall n c a, down_transport n c a = TFail "ECONNREFUSED") /\
  exists cl', c_state cl' = c_state demo_client /\
    rtc (loop_step demo_guid down_transport) (loop_init demo_client)
        (LRunning (counter_after 3) cl' (sum_delays 3)).
Proof.
  split; [exact demo_hooks_answer|]. split; [reflexivity|].
  exact (loop_failing_schedule demo_guid down_transport demo_client "ECONNREFUSED" 3
           demo_hooks_answer (fun _ _ _ => eq_refl)).
Defined.

Lemma ready_client_verified_witness :
  construct (JStr "CF_ID") (JStr "CF_SECRET") None None JUndef JUndef = Buffered demo_sys0 /\
  rtc (sys_step demo_guid token_transport) demo_sys0 demo_sys /\
  sys_ready demo_sys = true /\
  (validate (Some (c_state (sys_client demo_sys))) = JStr (status_name TOKEN_VERIFIED) /\
   authorization (c_net (sys_client demo_sys)) =
   Some ("Bearer " +:+ js_to_string (token (c_state (sys_client demo_sys))))).
Proof.
  split; [exact demo_construct|]. split; [exact demo_sys_reach|]. split; [reflexivity|].
  exact (ready_client_verified demo_guid token_transport _ _ _ _ _ _ _ _
           demo_construct eq_refl eq_refl demo_sys_reach eq_refl).
Defined.

Lemma wrapResponse_never_returns_body_witness :
  exists r,
    (request demo_guid token_transport (c_state demo_client) (c_net demo_client)
       getBalance_config (c_ps demo_client)).2 = Fulfilled r /\
    (wrapResponse (reply_with id) r demo_client = reply_with id (r .@ "data") demo_client \/
     wrapResponse (reply_with id) r demo_client = inl js_type_error).
Proof.
  eexists. split; [reflexivity|].
  apply (wrapResponse_never_returns_body demo_guid token_transport getBalance_config
           (reply_with id) demo_client).
  reflexivity.
Defined.

Lemma call_method_falsy_body_throws_witness :
  (forall inv, hook_passes (preHook (c_state demo_client)) inv) /\
  (forall inv, hook_passes (postHook (c_state demo_client)) inv) /\
  (forall c a, empty_transport (ps_sent (c_ps demo_client)) c a = TResp 204 (JStr "")) /\
  truthy (JStr "") = false /\
  (call_method demo_guid empty_transport getBalance_config (reply_with id) demo_client).2 =
  Reply js_type_error JUndef.
Proof.
  split; [intros; exact I|]. split; [intros; exact I|].
  split; [intros; reflexivity|]. split; [reflexivity|].
  exact (call_method_falsy_body_throws demo_guid empty_transport demo_guid_truthy
           getBalance_config (reply_with id) demo_client 204 (JStr "")
           (fun _ => I) (fun _ => I) (fun _ _ => eq_refl) eq_refl).
Defined.

Lemma no_token_retries_like_failure_witness :
  hooks_answer (c_state demo_client) /\
  validateSubCode ((JObj no_token_body) .@ "subCode") = true /\
  truthy (js_get_path (JObj no_token_body) ["data"; "token"]) = false /\
  (forall c a, no_token_transport (ps_sent (c_ps demo_client)) c a = TResp 200 (JObj no_token_body)) /\
  (forall n c a, down_transport n c a = TFail "ECONNREFUSED") /\
  ((resolution demo_guid no_token_transport None demo_client).2 = retry_after None /\
   (resolution demo_guid down_transport None demo_client).2 = retry_after None /\
   c_state (resolution demo_guid no_token_transport None demo_client).1 = c_state demo_client /\
   c_state (resolution demo_guid down_transport None demo_client).1 = c_state demo_client).
Proof.
  split; [exact demo_hooks_answer|]. do 2 (split; [reflexivity|]).
  split; [intros; reflexivity|]. split; [intros; reflexivity|].
  exact (no_token_retries_like_failure demo_guid no_token_transport down_transport demo_guid_truthy
           None demo_client 200 no_token_body "ECONNREFUSED" demo_hooks_answer eq_refl eq_refl
           (fun _ _ => eq_refl) (fun _ _ _ => eq_refl)).
Defined.

Lemma demo_guid_key_inj : Inj eq eq (fun n => js_to_string (demo_guid n)).
Proof. intros n m H. cbn in H. simplify_eq. by apply (inj pretty). Qed.

Lemma token_transport_answers n :
  (exists code gs, forall c a, token_transport n c a = TResp code (JObj gs)) \/
  (exists msg, forall c a, token_transport n c a = TFail msg).
Proof. left. eexists _, _. intros. reflexivity. Qed.

Lemma requests_complete_count_witness :
  (forall n, truthy (demo_guid n) = true) /\
  Inj eq eq (fun n => js_to_string (demo_guid n)) /\
  (forall n, (exists code gs, forall c a, token_transport n c a = TResp code (JObj gs)) \/
             (exists msg, forall c a, token_transport n c a = TFail msg)) /\
  Forall (fun cfg => truthy ((mergeConfig (defaults demo_net) cfg) .@ "networkId") = false)
    [getBalance_config; getBalance_config; getBalance_config] /\
  requests_complete
    (cache_of_trace (ps_trace (run_requests demo_guid token_transport
       (test_state (JStr "CF_ID") (JStr "CF_SECRET")) demo_net
       [getBalance_config; getBalance_config; getBalance_config] (mkPState 0 0 [])))) 3 = true.
Proof.
  split; [exact demo_guid_truthy|]. split; [exact demo_guid_key_inj|].
  pose proof token_transport_answers as Ht.
  assert (Hf : Forall (fun cfg => truthy ((mergeConfig (defaults demo_net) cfg) .@ "networkId") = false)
    [getBalance_config; getBalance_config; getBalance_config]) by (repeat constructor).
  split; [exact Ht|]. split; [exact Hf|].
  exact (requests_complete_count demo_guid token_transport demo_guid_truthy demo_guid_key_inj Ht
           (JStr "CF_ID") (JStr "CF_SECRET") demo_net _ 0 0 Hf).
Defined.

(** Two calls of the script's client in flight at once, their stages
    interleaved by [demo_schedule]. *)
Definition script_calls : conc :=
  mkConc (mkPState 0 0 []) (map PStart [getBalance_config; getBalance_config]).

Definition script_calls_run : conc :=
  conc_run demo_guid token_transport (test_state (JStr "CF_ID") (JStr "CF_SECRET")) demo_net
    demo_schedule script_calls.

Lemma conc_requests_complete_witness :
  Forall (fresh_cfg demo_net) [getBalance_config; getBalance_config] /\
  rtc (conc_step demo_guid token_transport (test_state (JStr "CF_ID") (JStr "CF_SECRET")) demo_net)
    script_calls script_calls_run /\
  Forall (fun p => started p = true) (cc_reqs script_calls_run) /\
  (length (cache_of_trace (ps_trace (cc_ps script_calls_run))) = started_count (cc_reqs script_calls_run) /\
   (Forall (fun p => started p = true) (cc_reqs script_calls_run) ->
    requests_complete (cache_of_trace (ps_trace (cc_ps script_calls_run))) 2 = true)).
Proof.
  assert (Hf : Forall (fresh_cfg demo_net) [getBalance_config; getBalance_config]) by (repeat constructor).
  pose proof (conc_run_reach demo_guid token_transport (test_state (JStr "CF_ID") (JStr "CF_SECRET"))
                demo_net demo_schedule script_calls) as Hr.
  split; [exact Hf|]. split; [exact Hr|]. split; [vm_compute; repeat constructor|].
  exact (conc_requests_complete demo_guid token_transport (JStr "CF_ID") (JStr "CF_SECRET") demo_net
           demo_guid_truthy demo_guid_key_inj token_transport_answers _ 0 0 _ Hf Hr).
Defined.

Lemma script_lifecycle_checks_witness :
  truthy (JStr "CF_ID") = true /\ truthy (JStr "CF_SECRET") = true /\
  (forall n c a, token_transport n c a = TResp 200 (JObj token_body)) /\
  validateSubCode ((JObj token_body) .@ "subCode") = true /\
  truthy (js_get_path (JObj token_body) ["data"; "token"]) = true /\
  (let cl := mkClient (test_state (JStr "CF_ID") (JStr "CF_SECRET")) demo_net (mkPState 0 0 []) in
   let cl1 := (authenticate demo_guid token_transport cl).1 in
   checkCashFreeStatus cl (STATUS .@ "UNAUTHENTICATED") = JNull /\
   checkCashFreeStatus cl1 (STATUS .@ "AUTHENTICATED") = JNull /\
   checkCashFreeStatus (verifyToken demo_guid token_transport cl1).1 (STATUS .@ "TOKEN_VERIFIED") = JNull).
Proof.
  do 2 (split; [reflexivity|]). split; [intros; reflexivity|]. do 2 (split; [reflexivity|]).
  exact (script_lifecycle_checks demo_guid token_transport demo_guid_truthy (JStr "CF_ID") (JStr "CF_SECRET")
           demo_net (mkPState 0 0 []) 200 token_body eq_refl eq_refl (fun _ _ _ => eq_refl) eq_refl eq_refl).
Defined.

Lemma cache_roundtrip_witness :
  truthy ((mergeConfig (defaults demo_net) getBalance_config) .@ "networkId") = false /\
  ((exists code gs, forall c a, token_transport 0 c a = TResp code (JObj gs)) \/
   (exists msg, forall c a, token_transport 0 c a = TFail msg)) /\
  (let ps' := (request demo_guid token_transport (test_state (JStr "CF_ID") (JStr "CF_SECRET")) demo_net
                 getBalance_config (mkPState 0 0 [])).1 in
   let k := js_to_string (demo_guid 0) in
   exists c, EvSend c (authorization demo_net) ∈ ps_trace ps' /\ c .@ "networkId" = demo_guid 0 /\
     js_get_path (JObj (cache_of_trace (ps_trace ps'))) [k; "request"] = js_pick c request_param_keys /\
     js_get_path (JObj (cache_of_trace (ps_trace ps'))) [k; "response"] =
       match token_transport 0 c (authorization demo_net) with
       | TResp _ b => js_set b "networkId" (demo_guid 0)
       | TFail msg => js_set (axios_error c msg) "networkId" (demo_guid 0)
       | THang => JUndef
       end).
Proof.
  split; [reflexivity|]. split; [apply token_transport_answers|].
  exact (cache_roundtrip demo_guid token_transport demo_guid_truthy (JStr "CF_ID") (JStr "CF_SECRET")
           demo_net getBalance_config (mkPState 0 0 []) eq_refl (token_transport_answers 0)).
Defined.

(** A provider that accepts every request with one body holding what
    each call of the script reads: a token, one beneficiary, an account
    that exists, its id and one transfer. *)
Definition script_body : js_fields :=
  [("status", JStr "SUCCESS"); ("subCode", JStr "200");
   ("data", JObj [("token", JStr "tkn");
                  ("beneficiaries", JArr [JObj [("beneId", JStr "b1"); ("ifsc", JStr "IFSC0001")]]);
                  ("accountExists", JStr "YES"); ("nameAtBank", JStr "Jane Doe");
                  ("beneId", JStr "b1");
                  ("transfers", JArr [JObj [("referenceId", JNum 7); ("transferId", JStr "t1")]])])].

Definition script_transport := const_transport 200 (JObj script_body).

Definition script_client : client :=
  mkClient (test_state (JStr "CF_ID") (JStr "CF_SECRET"))
    (getNetwork (JObj [("baseURL", JStr "https://payout-gamma.cashfree.com")])) (mkPState 0 0 []).

Definition script_details : jsval :=
  JObj [("bankAccount", JStr "026291800001191"); ("ifsc", JStr "YESB0000262"); ("name", JStr "Jane");
        ("beneId", JStr "b1"); ("email", JStr "jane@example.com"); ("phone", JStr "9999999999");
        ("address1", JStr "Main Street")].

Definition script_demo : script_outcome :=
  script_run demo_guid script_transport (JStr "b1") (JStr "t1") 1 script_details script_client.

Definition script_demo_cl : client :=
  match script_demo with ScriptDone cl _ => cl | ScriptFailed _ _ cl | ScriptWaiting _ cl => cl end.

Definition script_demo_res : js_fields :=
  match script_demo with ScriptDone _ res => res | _ => [] end.

Lemma script_transport_answers n :
  (exists code gs, forall c a, script_transport n c a = TResp code (JObj gs)) \/
  (exists msg, forall c a, script_transport n c a = TFail msg).
Proof. left. eexists _, _. intros. reflexivity. Qed.

Lemma script_run_counts_witness :
  script_hooks (c_state script_client) /\ no_id (defaults (c_net script_client)) /\
  c_ps script_client = mkPState 0 0 [] /\
  script_run demo_guid script_transport (JStr "b1") (JStr "t1") 1 script_details script_client =
    ScriptDone script_demo_cl script_demo_res /\
  ((exists clr k, run_loop demo_guid script_transport 1 (loop_init script_client) = LReady clr k /\
                  ps_sent (c_ps clr) = 2) /\
   length (js_items (result_of script_demo_res "getBeneficiaries")) = 1 /\
   length (cache_of_trace (ps_trace (c_ps script_demo_cl))) = 12).
Proof.
  assert (Hh : script_hooks (c_state script_client)) by (split; reflexivity).
  assert (Hd : no_id (defaults (c_net script_client))) by reflexivity.
  assert (Hr : script_run demo_guid script_transport (JStr "b1") (JStr "t1") 1 script_details script_client =
               ScriptDone script_demo_cl script_demo_res) by (vm_compute; reflexivity).
  split; [exact Hh|]. split; [exact Hd|]. split; [reflexivity|]. split; [exact Hr|].
  exact (script_run_counts demo_guid script_transport 0 demo_guid_truthy demo_guid_key_inj
           script_transport_answers (JStr "b1") (JStr "t1") 1 script_details script_client _ _
           Hh Hd eq_refl Hr).
Defined.

(** The script against a provider whose first request is reset: the
    login needs a second cycle. *)
Definition retry_ready : client :=
  match run_loop demo_guid (flaky_transport 1) 2 (loop_init script_client) with
  | LReady cl _ | LRunning _ cl _ | LStalled cl => cl
  end.

Definition retry_listed : client * reply :=
  getBeneficiaries demo_guid (flaky_transport 1) (JObj []) retry_ready.

Lemma flaky_transport_answers k n :
  (exists code gs, forall c a, flaky_transport k n c a = TResp code (JObj gs)) \/
  (exists msg, forall c a, flaky_transport k n c a = TFail msg).
Proof.
  unfold flaky_transport. destruct (Nat.ltb n k); [right|left]; eexists; [|eexists]; intros; reflexivity.
Qed.

Lemma script_mid_check_fails_witness :
  run_loop demo_guid (flaky_transport 1) 2 (loop_init script_client) = LReady retry_ready 1000 /\
  ps_sent (c_ps retry_ready) <> 2 /\
  getBeneficiaries demo_guid (flaky_transport 1) (JObj []) retry_ready = (retry_listed.1, Reply JNull (JArr [])) /\
  (script_run demo_guid (flaky_transport 1) (JStr "b1") (JStr "t1") 2 script_details script_client =
     ScriptFailed "completedRequestsMid"
       (verifyRequestsComplete 3 (cache_of_trace (ps_trace (c_ps retry_listed.1)))) retry_listed.1 /\
   ps_sent (c_ps retry_listed.1) = S (ps_sent (c_ps retry_ready))).
Proof.
  assert (L : run_loop demo_guid (flaky_transport 1) 2 (loop_init script_client) = LReady retry_ready 1000)
    by (vm_compute; reflexivity).
  assert (Hn : ps_sent (c_ps retry_ready) <> 2) by (vm_compute; discriminate).
  assert (Hg : getBeneficiaries demo_guid (flaky_transport 1) (JObj []) retry_ready =
               (retry_listed.1, Reply JNull (JArr []))) by (vm_compute; reflexivity).
  split; [exact L|]. split; [exact Hn|]. split; [exact Hg|].
  exact (script_mid_check_fails demo_guid (flaky_transport 1) 0 demo_guid_truthy demo_guid_key_inj
           (flaky_transport_answers 1) (JStr "b1") (JStr "t1") 2 script_details script_client _ _ _ _ _
           (conj eq_refl eq_refl) eq_refl eq_refl L Hn Hg eq_refl).
Defined.
